(** * Plutus FX dashboard: the data synchronisation and charting core

    A shallow embedding of the parts of the dashboard that carry the
    numeric and temporal logic:

    - [lib/fx.ts]: [toQueryParam], [fetchLatestRates], [fetchTimeSeries],
      [computeRangeDates], [toISODateSGT];
    - [app/api/fx/timeseries/route.ts]: the [GET] handler;
    - [components/FxDashboard.tsx]: [loadLatest] and the derived [status];
    - [components/TimeSeriesChart.tsx]: [xFor], [xToT], [hoverFromEvent].

    JavaScript built-ins the code calls ([Date], [String.prototype.trim],
    [Math.round], ...) are written out after ECMA-262. *)

From Stdlib Require Import ZArith QArith Qround Lqa String Ascii List Lia
  Sorted Qabs.
From stdpp Require Import gmap strings list pretty.

Open Scope Z_scope.

(** ** Strings

    Strings are sequences of 8-bit characters; the texts that reach this
    code (currency codes, range tokens, ISO dates) are ASCII, and the
    case mapping below is the ASCII part of [String.prototype.toUpperCase]. *)
Module JsString.

Definition upper_ascii (c : ascii) : ascii :=
  let n := nat_of_ascii c in
  if ((97 <=? n) && (n <=? 122))%nat then ascii_of_nat (n - 32) else c.

Fixpoint toUpperCase (s : string) : string :=
  match s with
  | EmptyString => EmptyString
  | String c r => String (upper_ascii c) (toUpperCase r)
  end.

(** White space and line terminators of ECMA-262 in the ASCII range:
    TAB, LF, VT, FF, CR and SPACE. *)
Definition is_space (c : ascii) : bool :=
  let n := nat_of_ascii c in
  (((9 <=? n) && (n <=? 13)) || (n =? 32))%nat.

Fixpoint trimStart (s : string) : string :=
  match s with
  | EmptyString => EmptyString
  | String c r => if is_space c then trimStart r else s
  end.

(** [trimEnd] keeps a character when it is not a space or when something
    survives to its right. *)
Fixpoint trimEnd (s : string) : string :=
  match s with
  | EmptyString => EmptyString
  | String c r =>
      match trimEnd r with
      | EmptyString => if is_space c then EmptyString else String c EmptyString
      | r' => String c r'
      end
  end.

Definition trim (s : string) : string := trimEnd (trimStart s).

(** JavaScript truthiness of a string: only the empty string is falsy. *)
Definition truthy (s : string) : bool :=
  match s with EmptyString => false | _ => true end.

(** [a || b] on strings. *)
Definition or_else (a b : string) : string := if truthy a then a else b.

(** Truthiness of [string | null]. *)
Definition truthy_opt (o : option string) : bool :=
  match o with Some s => truthy s | None => false end.

(** [Array.prototype.join(",")]. *)
Fixpoint join_comma (l : list string) : string :=
  match l with
  | [] => EmptyString
  | [s] => s
  | s :: r => s +:+ "," +:+ join_comma r
  end.

(** [a < b] on strings: code-unit order. *)
Definition ltb (a b : string) : bool :=
  match String.compare a b with Lt => true | _ => false end.

End JsString.

(** ** Dates

    A [Date] object is its time value, the number of milliseconds since
    the epoch, an integer.  The day and calendar functions are those of
    ECMA-262, section "Time Values and Time Range".  Time values stay in
    the range where [TimeClip] is the identity. *)
Module JsDate.

Definition msPerDay : Z := 86400000.

Definition Day (t : Z) : Z := t / msPerDay.
Definition TimeWithinDay (t : Z) : Z := t mod msPerDay.

Definition isLeap (y : Z) : bool :=
  ((y mod 4 =? 0) && negb (y mod 100 =? 0)) || (y mod 400 =? 0).

Definition DaysInYear (y : Z) : Z := if isLeap y then 366 else 365.

Definition DayFromYear (y : Z) : Z :=
  365 * (y - 1970) + (y - 1969) / 4 - (y - 1901) / 100 + (y - 1601) / 400.

(** [YearFromTime]: the largest [y] with [DayFromYear y <= d], found
    from the mean year length and one step of correction
    ([YearFromDay_spec] below shows it is that year). *)
Definition YearFromDay (d : Z) : Z :=
  let y := 1970 + (400 * d) / 146097 in
  if d <? DayFromYear y then y - 1
  else if DayFromYear (y + 1) <=? d then y + 1 else y.

Definition DayWithinYear (d : Z) : Z := d - DayFromYear (YearFromDay d).

(** Day number within the year at which month [m] (0 = January) starts;
    [monthStart leap 12] is the length of the year. *)
Definition monthStart (leap : bool) (m : Z) : Z :=
  let l := if leap then 1 else 0 in
  match m with
  | 0 => 0 | 1 => 31 | 2 => 59 + l | 3 => 90 + l | 4 => 120 + l
  | 5 => 151 + l | 6 => 181 + l | 7 => 212 + l | 8 => 243 + l
  | 9 => 273 + l | 10 => 304 + l | 11 => 334 + l | _ => 365 + l
  end.

Definition monthOfDayInYear (leap : bool) (k : Z) : Z :=
  if k <? monthStart leap 1 then 0
  else if k <? monthStart leap 2 then 1
  else if k <? monthStart leap 3 then 2
  else if k <? monthStart leap 4 then 3
  else if k <? monthStart leap 5 then 4
  else if k <? monthStart leap 6 then 5
  else if k <? monthStart leap 7 then 6
  else if k <? monthStart leap 8 then 7
  else if k <? monthStart leap 9 then 8
  else if k <? monthStart leap 10 then 9
  else if k <? monthStart leap 11 then 10
  else 11.

Definition MonthFromDay (d : Z) : Z :=
  monthOfDayInYear (isLeap (YearFromDay d)) (DayWithinYear d).

Definition DateFromDay (d : Z) : Z :=
  DayWithinYear d - monthStart (isLeap (YearFromDay d)) (MonthFromDay d) + 1.

Definition YearFromTime (t : Z) : Z := YearFromDay (Day t).
Definition MonthFromTime (t : Z) : Z := MonthFromDay (Day t).
Definition DateFromTime (t : Z) : Z := DateFromDay (Day t).

(** [MakeDay(year, month, date)]: months outside 0..11 carry into the
    year, and the date is added as a plain day count, so a date past
    the end of the month runs on into the following month. *)
Definition MakeDay (year month date : Z) : Z :=
  let ym := year + month / 12 in
  let mn := month mod 12 in
  DayFromYear ym + monthStart (isLeap ym) mn + date - 1.

Definition MakeDate (day time : Z) : Z := day * msPerDay + time.

(** Number of days of month [m] (0 = January). *)
Definition monthLength (leap : bool) (m : Z) : Z :=
  match m with
  | 1 => if leap then 29 else 28
  | 3 | 5 | 8 | 10 => 30
  | _ => 31
  end.

Definition daysInMonth (y m : Z) : Z := monthLength (isLeap y) m.

(** The host's local time zone, as a fixed offset [tza] in
    milliseconds east of UTC (daylight-saving changes are not
    modelled). *)
Section Local.
Variable tza : Z.

Definition LocalTime (t : Z) : Z := t + tza.
Definition UTC (t : Z) : Z := t - tza.

Definition getFullYear (t : Z) : Z := YearFromTime (LocalTime t).
Definition getMonth (t : Z) : Z := MonthFromTime (LocalTime t).
Definition getDate (t : Z) : Z := DateFromTime (LocalTime t).

Definition setDate (t dt : Z) : Z :=
  let lt := LocalTime t in
  UTC (MakeDate (MakeDay (YearFromTime lt) (MonthFromTime lt) dt)
         (TimeWithinDay lt)).

Definition setMonth (t m : Z) : Z :=
  let lt := LocalTime t in
  UTC (MakeDate (MakeDay (YearFromTime lt) m (DateFromTime lt))
         (TimeWithinDay lt)).

Definition setFullYear (t y : Z) : Z :=
  let lt := LocalTime t in
  UTC (MakeDate (MakeDay y (MonthFromTime lt) (DateFromTime lt))
         (TimeWithinDay lt)).
End Local.

(** Decimal numerals. *)
Definition dec (n : Z) : string := pretty n.

Definition pad2 (n : Z) : string :=
  if n <? 10 then "0" +:+ dec n else dec n.

Definition pad3 (n : Z) : string :=
  if n <? 10 then "00" +:+ dec n
  else if n <? 100 then "0" +:+ dec n else dec n.

Definition pad4 (n : Z) : string :=
  if n <? 10 then "000" +:+ dec n
  else if n <? 100 then "00" +:+ dec n
  else if n <? 1000 then "0" +:+ dec n else dec n.

Definition pad6 (n : Z) : string :=
  if n <? 10 then "00000" +:+ dec n
  else if n <? 100 then "0000" +:+ dec n
  else if n <? 1000 then "000" +:+ dec n
  else if n <? 10000 then "00" +:+ dec n
  else if n <? 100000 then "0" +:+ dec n else dec n.

(** [Date.prototype.toISOString]: UTC fields, four-digit years from 0
    to 9999 and signed six-digit years outside. *)
Definition toISOString (t : Z) : string :=
  let y := YearFromTime t in
  let ms := TimeWithinDay t in
  let ys := if (0 <=? y) && (y <=? 9999) then pad4 y
            else if y <? 0 then "-" +:+ pad6 (- y) else "+" +:+ pad6 y in
  ys +:+ "-" +:+ pad2 (MonthFromTime t + 1) +:+ "-" +:+ pad2 (DateFromTime t)
     +:+ "T" +:+ pad2 (ms / 3600000) +:+ ":" +:+ pad2 (ms / 60000 mod 60)
     +:+ ":" +:+ pad2 (ms / 1000 mod 60) +:+ "." +:+ pad3 (ms mod 1000)
     +:+ "Z".

End JsDate.

(** ** Numbers, JSON values and thrown values *)

(** A JavaScript number as far as this code looks at it: not-a-number,
    the two infinities, or a finite value (an exact rational; rounding to
    double precision is not modelled). *)
Inductive number : Type :=
  | NaN
  | PosInf
  | NegInf
  | Finite (q : Q).

Module JsNumber.

(** [Number.isFinite]. *)
Definition isFinite (n : number) : bool :=
  match n with Finite _ => true | _ => false end.

(** [n > 0]; every comparison with [NaN] is false. *)
Definition gt0 (n : number) : bool :=
  match n with
  | Finite q => negb (Qle_bool q 0)
  | PosInf => true
  | NegInf | NaN => false
  end.

End JsNumber.

(** A value produced by [JSON.parse]. *)
#[warnings="-register-all"]
Inductive json : Type :=
  | JNull
  | JBool (b : bool)
  | JNum (n : number)
  | JStr (s : string)
  | JArr (l : list json)
  | JObj (o : list (string * json)).

(** What a [throw] or a rejected promise carries: the [DOMException]
    named [AbortError], an [Error] with its message, or anything else. *)
Inductive thrown : Type :=
  | AbortError (message : string)
  | JsError (message : string)
  | NonError.

(** [err instanceof Error ? err.message : "Unknown error"]; a
    [DOMException] is an [Error]. *)
Definition message_of (err : thrown) : string :=
  match err with
  | AbortError m | JsError m => m
  | NonError => "Unknown error"
  end.

(** The result of running a computation that may throw. *)
Inductive outcome (A : Type) : Type :=
  | Returned (a : A)
  | Threw (e : thrown).
Arguments Returned {A} a.
Arguments Threw {A} e.

#[global] Instance outcome_ret : MRet outcome := @Returned.
#[global] Instance outcome_bind : MBind outcome :=
  fun A B f m => match m with Returned a => f a | Threw e => Threw e end.

(** A [Response] of [fetch]: [text] and [json] are the results of
    [res.text()] and [res.json()]. *)
Record Response (B : Type) : Type := mkResponse {
  ok : bool;
  status : Z;
  statusText : string;
  text : outcome string;
  json_body : outcome B
}.
Arguments mkResponse {B}.
Arguments ok {B}.
Arguments status {B}.
Arguments statusText {B}.
Arguments text {B}.
Arguments json_body {B}.

(** ** [lib/fx.ts] *)
Module Fx.
Import JsString JsDate.

Record FrankfurterLatestResponse : Type := {
  l_amount : number;
  l_base : option string;
  l_date : string;
  l_rates : option (list (string * number))
}.

(** The entries of [rates] come in the iteration order of
    [Object.entries]; each holds whatever JSON value the provider sent. *)
Record FrankfurterTimeSeriesResponse : Type := {
  s_amount : number;
  s_base : option string;
  start_date : string;
  end_date : string;
  s_rates : option (list (string * json))
}.

Record LatestRates : Type := {
  base : string;
  asOf : string;
  providerDate : string;
  symbols : list string;
  rates : gmap string number
}.

Record TimeSeriesPoint : Type := { t : string; v : number }.

Record TimeSeries : Type := {
  ts_base : string;
  symbol : string;
  ts_asOf : string;
  range : option string;
  from : string;
  to : string;
  points : list TimeSeriesPoint
}.

Definition assertOk {B} (res : Response B) : outcome unit :=
  if negb (ok res)
  then Threw (JsError ("FX provider error: " +:+ dec (status res) +:+ " "
                         +:+ statusText res))
  else Returned tt.

Definition toQueryParam (codes : list string) : string :=
  join_comma (filter (fun c => truthy c = true)
                (map (fun c => toUpperCase (trim c)) codes)).

(** [Object.fromEntries]: a later entry overrides an earlier one with
    the same key. *)
Definition fromEntries (l : list (string * number)) : gmap string number :=
  foldl (fun m kv => <[kv.1 := kv.2]> m) ∅ l.

(** [fetchLatestRates]: [net] is what the awaited [fetch] settles
    with, [clock] the time value [new Date()] reads after it. *)
Definition fetchLatestRates (base : string) (symbols : list string)
    (net : outcome (Response FrankfurterLatestResponse)) (clock : Z)
  : outcome LatestRates :=
  res ← net;
  _ ← assertOk res;
  data ← json_body res;
  mret {| base := toUpperCase (or_else (default "" (l_base data)) base);
          asOf := toISOString clock;
          providerDate := l_date data;
          symbols := filter (fun s => truthy s = true)
                       (map (fun s => toUpperCase (trim s)) symbols);
          rates := fromEntries
                     (map (fun kv => (toUpperCase kv.1, kv.2))
                        (default [] (l_rates data))) |}.

(** Property lookup [rateMap?.[key]] for an alphabetic key; [None] is
    [undefined].  Only an object has such a property. *)
Fixpoint lookup_key (key : string) (o : list (string * json)) : option json :=
  match o with
  | [] => None
  | (k, x) :: r => if String.eqb k key then Some x else lookup_key key r
  end.

Definition get_prop (rateMap : json) (key : string) : option json :=
  match rateMap with
  | JObj o => lookup_key key o
  | _ => None
  end.

(** [Array.prototype.sort] with the comparator on [t]; the sort is
    stable, an element goes in front of the first one that is not
    smaller. *)
Fixpoint insert_point (p : TimeSeriesPoint) (l : list TimeSeriesPoint)
  : list TimeSeriesPoint :=
  match l with
  | [] => [p]
  | q :: r => if ltb (t q) (t p) then q :: insert_point p r else p :: q :: r
  end.

Definition sort_points (l : list TimeSeriesPoint) : list TimeSeriesPoint :=
  foldr insert_point [] l.

Definition keep_point (p : TimeSeriesPoint) : bool :=
  JsNumber.isFinite (v p) && JsNumber.gt0 (v p).

Section Coercion.
(** [Number(raw)] on a string parses it and on an array or an object
    goes through its string form; both are left to the engine. *)
Variable StringToNumber : string -> number.
Variable ObjectToNumber : json -> number.

Definition Number_ (raw : option json) : number :=
  match raw with
  | None => NaN
  | Some JNull => Finite 0
  | Some (JBool b) => Finite (if b then 1 else 0)
  | Some (JNum n) => n
  | Some (JStr s) => StringToNumber s
  | Some x => ObjectToNumber x
  end.

Definition raw_point (upperSymbol : string) (e : string * json)
  : TimeSeriesPoint :=
  let raw := get_prop e.2 upperSymbol in
  let v := match raw with Some (JNum n) => n | _ => Number_ raw end in
  {| t := e.1; v := v |}.

Definition normalize_points (upperSymbol : string)
    (entries : list (string * json)) : list TimeSeriesPoint :=
  sort_points
    (List.filter keep_point (map (raw_point upperSymbol) entries)).

Definition fetchTimeSeries (base symbol from to : string)
    (range : option string)
    (net : outcome (Response FrankfurterTimeSeriesResponse)) (clock : Z)
  : outcome TimeSeries :=
  res ← net;
  _ ← assertOk res;
  data ← json_body res;
  let upperSymbol := toUpperCase symbol in
  mret {| ts_base := toUpperCase (or_else (default "" (s_base data)) base);
          symbol := upperSymbol;
          ts_asOf := toISOString clock;
          range := range;
          from := from;
          to := to;
          points := normalize_points upperSymbol
                      (default [] (s_rates data)) |}.
End Coercion.

(** Asia/Singapore is UTC+8 without daylight saving (since 1982). *)
Definition sgtOffset : Z := 8 * 3600000.

(** The [year: "numeric"] part: the year of the era, unpadded. *)
Definition yearPart (y : Z) : string := dec (if y <=? 0 then 1 - y else y).

Definition formatDay (d : Z) : string :=
  yearPart (YearFromDay d) +:+ "-" +:+ pad2 (MonthFromDay d + 1)
    +:+ "-" +:+ pad2 (DateFromDay d).

(** [toISODateSGT]: the year, month and day parts that
    [Intl.DateTimeFormat] gives for the zone; the three parts are always
    present, so the fallback branch is never taken. *)
Definition toISODateSGT (date : Z) : string :=
  formatDay (Day (date + sgtOffset)).

Record RangeDates : Type := { rd_from : string; rd_to : string }.

(** The [Date d] of [computeRangeDates] after it has been moved back;
    [tza] is the host's zone, in which the [Date] getters and setters
    work. *)
Definition moveBack (tza : Z) (normalized : string) (now : Z) : Z :=
  let d := now in
  if String.eqb normalized "1D" then setDate tza d (getDate tza d - 1)
  else if String.eqb normalized "1W" then setDate tza d (getDate tza d - 7)
  else if String.eqb normalized "1M" then setMonth tza d (getMonth tza d - 1)
  else if String.eqb normalized "3M" then setMonth tza d (getMonth tza d - 3)
  else if String.eqb normalized "6M" then setMonth tza d (getMonth tza d - 6)
  else if String.eqb normalized "1Y"
       then setFullYear tza d (getFullYear tza d - 1)
  else setMonth tza d (getMonth tza d - 1).

Definition computeRangeDates (tza : Z) (range : string) (now : Z)
  : RangeDates :=
  let normalized := toUpperCase range in
  let to := toISODateSGT now in
  let from := toISODateSGT (moveBack tza normalized now) in
  {| rd_from := from; rd_to := to |}.

End Fx.

(** ** [app/api/fx/timeseries/route.ts] *)
Module TimeseriesRoute.
Import JsString Fx.

Inductive Body : Type :=
  | ErrorBody (error : string)
  | DataBody (data : TimeSeries).

Record NextResponse : Type := {
  nr_body : Body;
  nr_status : Z;
  cacheControl : string
}.

Definition allowedRanges : list string := ["1D"; "1W"; "1M"; "3M"; "6M"; "1Y"].

(** [Array.prototype.includes] on strings. *)
Definition includes (l : list string) (s : string) : bool :=
  existsb (String.eqb s) l.

Definition bad_request (msg : string) : NextResponse :=
  {| nr_body := ErrorBody msg; nr_status := 400; cacheControl := "no-store" |}.

Section Handler.
Variable StringToNumber : string -> number.
Variable ObjectToNumber : json -> number.

(** [GET]: [symbolQ] and [rangeQ] are [searchParams.get("symbol")] and
    [searchParams.get("range")] ([None] is [null]); [tza] is the zone
    of the host that runs the handler, [now] the instant
    [computeRangeDates] reads and [clock] the one [fetchTimeSeries]
    reads. *)
Definition GET (tza : Z) (symbolQ rangeQ : option string) (now : Z)
    (net : outcome (Response FrankfurterTimeSeriesResponse)) (clock : Z)
  : NextResponse :=
  let symbolParam := toUpperCase (trim (or_else (default "" symbolQ) "")) in
  let rangeParam := toUpperCase (trim (or_else (default "" rangeQ) "1M")) in
  if negb (truthy symbolParam)
  then bad_request "Missing required query param: symbol"
  else if (String.length symbolParam <? 3)%nat
          || (5 <? String.length symbolParam)%nat
  then bad_request "Invalid symbol"
  else
    let symbol := symbolParam in
    let range := if includes allowedRanges rangeParam
                 then rangeParam else "1M" in
    if truthy_opt rangeQ && negb (String.eqb rangeParam range)
    then bad_request "Invalid range"
    else
      let rd := computeRangeDates tza range now in
      match fetchTimeSeries StringToNumber ObjectToNumber
              "SGD" symbol (rd_from rd) (rd_to rd) (Some range) net clock
      with
      | Returned data =>
          {| nr_body := DataBody data; nr_status := 200;
             cacheControl :=
               "public, s-maxage=300, stale-while-revalidate=600" |}
      | Threw err =>
          {| nr_body := ErrorBody (message_of err); nr_status := 500;
             cacheControl := "no-store" |}
      end.
End Handler.

End TimeseriesRoute.

(** ** [components/FxDashboard.tsx]: the refresh controller *)
Module Dashboard.
Import JsString JsDate Fx.

(** The React state of the component that the refresh path reads and
    writes, with the [AbortController]s it has made: a controller is
    named by its number, [aborted] holds those whose [abort()] has
    been called. *)
Record State : Type := {
  latest : option LatestRates;
  isLoading : bool;
  errorMessage : option string;
  abortRef : option nat;
  aborted : gset nat;
  controllers : nat
}.

Definition initial : State :=
  {| latest := None; isLoading := false; errorMessage := None;
     abortRef := None; aborted := ∅; controllers := 0 |}.

Definition setLatest (x : option LatestRates) (s : State) : State :=
  {| latest := x; isLoading := isLoading s; errorMessage := errorMessage s;
     abortRef := abortRef s; aborted := aborted s;
     controllers := controllers s |}.

Definition setIsLoading (b : bool) (s : State) : State :=
  {| latest := latest s; isLoading := b; errorMessage := errorMessage s;
     abortRef := abortRef s; aborted := aborted s;
     controllers := controllers s |}.

Definition setErrorMessage (m : option string) (s : State) : State :=
  {| latest := latest s; isLoading := isLoading s; errorMessage := m;
     abortRef := abortRef s; aborted := aborted s;
     controllers := controllers s |}.

(** [abortRef.current?.abort()]. *)
Definition abortCurrent (s : State) : State :=
  match abortRef s with
  | None => s
  | Some c =>
      {| latest := latest s; isLoading := isLoading s;
         errorMessage := errorMessage s; abortRef := abortRef s;
         aborted := {[ c ]} ∪ aborted s; controllers := controllers s |}
  end.

(** [const controller = new AbortController(); abortRef.current = controller]. *)
Definition newController (s : State) : State :=
  {| latest := latest s; isLoading := isLoading s;
     errorMessage := errorMessage s; abortRef := Some (controllers s);
     aborted := aborted s; controllers := S (controllers s) |}.

(** [loadLatest] up to the point where it awaits [fetch]: the state it
    leaves and the controller whose signal the request carries ([None]
    when it returned at once). *)
Definition loadLatest_begin (symbolsParam : string) (s : State)
  : State * option nat :=
  if negb (truthy symbolsParam) then (s, None)
  else
    let s1 := newController (abortCurrent s) in
    let s2 := setErrorMessage None (setIsLoading true s1) in
    (s2, abortRef s2).

(** The rest of the [try] block, from the settled [fetch] on. *)
Definition awaited (net : outcome (Response LatestRates))
  : outcome LatestRates :=
  res ← net;
  if negb (ok res)
  then
    let text := match text res with Returned x => x | Threw _ => "" end in
    Threw (JsError ("Failed to load latest rates (" +:+ dec (status res)
                      +:+ "): " +:+ or_else text (statusText res)))
  else json_body res.

(** [loadLatest] from the settled [fetch] to its end: [try] body,
    [catch], and the [finally] that runs on every path. *)
Definition loadLatest_settle (net : outcome (Response LatestRates))
    (s : State) : State :=
  let s1 :=
    match awaited net with
    | Returned data => setLatest (Some data) s
    | Threw (AbortError _) => s
    | Threw err => setErrorMessage (Some (message_of err)) s
    end in
  setIsLoading false s1.

(** A call of [loadLatest] that runs to its end with nothing in
    between. *)
Definition loadLatest (symbolsParam : string)
    (net : outcome (Response LatestRates)) (s : State) : State :=
  match loadLatest_begin symbolsParam s with
  | (s1, Some _) => loadLatest_settle net s1
  | (s1, None) => s1
  end.

Inductive Status : Type := idle | loading | loaded | error.

(** Truthiness of [LatestRates | null]: an object is truthy. *)
Definition present (x : option LatestRates) : bool :=
  match x with Some _ => true | None => false end.

(** The [status] handed to the controls. *)
Definition status (s : State) : Status :=
  if isLoading s && negb (present (latest s)) then loading
  else if truthy_opt (errorMessage s) && negb (present (latest s)) then error
  else if present (latest s) then loaded
  else idle.

(** The label of the indicator in the header. *)
Definition indicator (s : State) : string :=
  if truthy_opt (errorMessage s) then "DEGRADED"
  else if isLoading s then "SYNCING" else "LIVE".

(** What happens to the controller, in order: [loadLatest] is called
    (manual refresh, timer tick or symbol change), or the request made
    under controller [c] settles. *)
Inductive event : Type :=
  | Refresh (symbolsParam : string)
  | Settled (c : nat) (net : outcome (Response LatestRates)).

Definition step (s : State) (e : event) : State :=
  match e with
  | Refresh symbolsParam => (loadLatest_begin symbolsParam s).1
  | Settled _ net => loadLatest_settle net s
  end.

Definition run (s : State) (es : list event) : State := foldl step s es.

(** The reason a settled request fails with, when it fails other than
    by cancellation. *)
Definition failure (net : outcome (Response LatestRates)) : option string :=
  match awaited net with
  | Returned _ => None
  | Threw (AbortError _) => None
  | Threw err => Some (message_of err)
  end.

End Dashboard.

(** ** [components/TimeSeriesChart.tsx]: the chart geometry

    Coordinates are finite numbers, taken as exact rationals. *)
Module Chart.
Import Fx.
Open Scope Q_scope.

Definition Math_max (a b : Q) : Q := if Qle_bool a b then b else a.
Definition Math_min (a b : Q) : Q := if Qle_bool a b then a else b.

(** [Math.round]: the nearest integer, halves going up. *)
Definition Math_round (x : Q) : Z := Qfloor (x + (1 # 2)).

Definition pad : Q := 24.

Definition length_ (points : list TimeSeriesPoint) : Q :=
  inject_Z (Z.of_nat (length points)).

Definition innerW (width : Q) : Q := width - pad * 2.
Definition innerH (height : Q) : Q := height - pad * 2.

Definition xFor (points : list TimeSeriesPoint) (width : Q) (i : Q) : Q :=
  pad + (i / Math_max (length_ points - 1) 1) * innerW width.

Definition xToT (left right x : Q) : Q :=
  if Qle_bool right left then 0 else (x - left) / (right - left).

Record HoverState : Type := {
  idx : Z;
  vx : Q;
  vy : Q;
  px : Q;
  py : Q
}.

(** What [getBoundingClientRect] gives for the [svg] element. *)
Record DOMRect : Type := {
  rect_left : Q;
  rect_top : Q;
  rect_width : Q;
  rect_height : Q
}.

Record MouseEvent : Type := { clientX : Q; clientY : Q }.

(** [hoverFromEvent]: [svg] is [svgRef.current] seen through its
    bounding rectangle ([None] when the element is not mounted).  A
    mouse event reaches only an element laid out with a width and a
    height above zero. *)
Definition hoverFromEvent (points : list TimeSeriesPoint) (width height : Q)
    (svg : option DOMRect) (e : MouseEvent) : option HoverState :=
  match svg with
  | None => None
  | Some rect =>
      if (length points =? 0)%nat then None
      else
        let px := clientX e - rect_left rect in
        let py := clientY e - rect_top rect in
        let vx := (px / rect_width rect) * width in
        let vy := (py / rect_height rect) * height in
        let left := pad in
        let right := pad + innerW width in
        let clampedX := Math_min (Math_max vx left) right in
        let t := xToT left right clampedX in
        let idx := Math_round (t * (length_ points - 1)) in
        let clampedIdx :=
          Z.min (Z.max idx 0) (Z.of_nat (length points) - 1) in
        Some {| idx := clampedIdx; vx := vx; vy := vy; px := px; py := py |}
  end.

(** [onMove] and [onLeave] on the [hover] state. *)
Definition onMove (points : list TimeSeriesPoint) (width height : Q)
    (svg : option DOMRect) (e : MouseEvent) (hover : option HoverState)
  : option HoverState :=
  hoverFromEvent points width height svg e.

Definition onLeave (hover : option HoverState) : option HoverState := None.

End Chart.

(** ** The specification's wording, for comparison with the code *)
Module Spec.
Import JsString JsDate Fx.

(** The number of calendar months [computeRangeDates] moves back for a
    normalized token, read off its branches: [None] for the two
    day-count ranges, and one month for any token it does not know. *)
Definition months_back (normalized : string) : option Z :=
  if String.eqb normalized "1D" then None
  else if String.eqb normalized "1W" then None
  else if String.eqb normalized "1M" then Some 1
  else if String.eqb normalized "3M" then Some 3
  else if String.eqb normalized "6M" then Some 6
  else if String.eqb normalized "1Y" then Some 12
  else Some 1.

(** The year, month (0 = January) and day of month a [Date] shows in
    the host's zone. *)
Definition localFields (tza t : Z) : Z * Z * Z :=
  (getFullYear tza t, getMonth tza t, getDate tza t).

(** Calendar rollback as the specification words it: [from] is the
    date [to] (today in Singapore) moved back [k] calendar months, the
    day of month cut down to the last day of the target month when the
    target month is shorter. *)
Definition rollback_from (k now : Z) : string :=
  let today := Day (now + sgtOffset) in
  let ty := YearFromDay today + (MonthFromDay today - k) / 12 in
  let tm := (MonthFromDay today - k) mod 12 in
  formatDay (MakeDay ty tm (Z.min (DateFromDay today) (daysInMonth ty tm))).

(** A value a [TimeSeriesPoint] may hold: finite and above zero. *)
Definition positive_finite (n : number) : Prop :=
  exists q : Q, n = Finite q /\ (0 < q)%Q.

(** The caller's symbol list as the snapshot carries it: each entry
    trimmed and upper-cased, the empty ones left out, the order kept. *)
Definition requested_symbols (symbols : list string) : list string :=
  filter (fun s => s <> "") (map (fun s => toUpperCase (trim s)) symbols).

(** The specification's four states, as the [status] value each one is
    called by in the component. *)
Definition Idle := Dashboard.idle.
Definition Syncing := Dashboard.loading.
Definition Loaded := Dashboard.loaded.
Definition Degraded := Dashboard.error.

End Spec.

(** ** Sample inputs used in the examples *)
Module Samples.
Import Fx.

Definition instant_2024_03_15_noon_sgt : Z := 1710475200000.
Definition instant_2024_03_31_noon_sgt : Z := 1711857600000.
(** 2024-03-31T20:00:00Z, which is 04:00 on 1 April in Singapore. *)
Definition instant_2024_03_31_20h_utc : Z := 1711915200000.

Definition no_coercion : string -> number := fun _ => NaN.
Definition no_object_coercion : json -> number := fun _ => NaN.

Definition ok_response {B} (data : B) : outcome (Response B) :=
  Returned (mkResponse true 200 "OK" (Returned "") (Returned data)).

Definition series_jan : FrankfurterTimeSeriesResponse :=
  {| s_amount := Finite 1; s_base := Some "SGD";
     start_date := "2024-01-02"; end_date := "2024-01-02";
     s_rates :=
       Some [("2024-01-01", JObj [("JPY", JNum (Finite 0))]);
             ("2024-01-02", JObj [("JPY", JNum (Finite (1143 # 10)))])] |}.

Definition latest_without_usd : FrankfurterLatestResponse :=
  {| l_amount := Finite 1; l_base := Some "SGD"; l_date := "2024-03-15";
     l_rates := Some [("EUR", Finite (69 # 100))] |}.

Definition snapshot : LatestRates :=
  {| base := "SGD"; asOf := "2024-03-15T04:00:00.000Z";
     providerDate := "2024-03-15"; symbols := ["USD"];
     rates := {[ "USD" := Finite (74 # 100) ]} |}.

(** The controller after a first successful refresh. *)
Definition loaded_state : Dashboard.State :=
  {| Dashboard.latest := Some snapshot; Dashboard.isLoading := false;
     Dashboard.errorMessage := None; Dashboard.abortRef := Some 0%nat;
     Dashboard.aborted := ∅; Dashboard.controllers := 1 |}.

Definition network_down : outcome (Response LatestRates) :=
  Threw (JsError "Failed to fetch").

Definition service_unavailable : outcome (Response LatestRates) :=
  Returned (mkResponse false 503 "Service Unavailable" (Returned "")
              (Threw (JsError "Unexpected end of JSON input"))).

Definition cancelled : outcome (Response LatestRates) :=
  Threw (AbortError "The operation was aborted.").

End Samples.

(** ** More of the built-ins: splitting, sorting, deduplication *)
Module JsArray.

(** [String.prototype.split(",")]: the pieces between the commas; the
    empty string splits into one empty piece. *)
Fixpoint split_comma (s : string) : list string :=
  match s with
  | EmptyString => [EmptyString]
  | String c r =>
      if Ascii.eqb c "," then EmptyString :: split_comma r
      else match split_comma r with
           | piece :: rest => String c piece :: rest
           | [] => [String c EmptyString]
           end
  end.

(** [Array.prototype.sort(cmp)], for a comparator that is consistent:
    [lt a b] stands for [cmp(a, b) < 0].  The sort is stable: an element
    goes in front of the first one it is smaller than or equal to. *)
Section Sort.
Context {A : Type} (lt : A -> A -> bool).

Fixpoint insert_by (p : A) (l : list A) : list A :=
  match l with
  | [] => [p]
  | q :: r => if lt q p then q :: insert_by p r else p :: q :: r
  end.

Definition sort_by (l : list A) : list A := foldr insert_by [] l.
End Sort.

(** [Array.from(new Set(l))]: the first occurrence of each string, in
    order. *)
Fixpoint dedupe (seen : list string) (l : list string) : list string :=
  match l with
  | [] => []
  | x :: r =>
      if existsb (String.eqb x) seen then dedupe seen r
      else x :: dedupe (x :: seen) r
  end.

(** [Array.prototype.slice(0, n)]. *)
Definition slice0 {A} (n : nat) (l : list A) : list A := take n l.

(** [Array.prototype.findIndex]; [None] is the result -1. *)
Fixpoint findIndex {A} (f : A -> bool) (l : list A) : option nat :=
  match l with
  | [] => None
  | x :: r => if f x then Some 0%nat else S <$> findIndex f r
  end.

End JsArray.

(** ** [lib/fx.ts]: the query sent to the provider *)
Module FxQuery.
Import JsString Fx.

(** The [to] parameter of the request for the latest rates: it is set
    only when [toQueryParam] gives a non-empty text. *)
Definition to_param (symbols : list string) : option string :=
  let symbolsParam := toQueryParam symbols in
  if truthy symbolsParam then Some symbolsParam else None.


End FxQuery.

(** ** [app/api/fx/latest/route.ts] *)
Module LatestRoute.
Import JsString JsArray Fx.

Definition DEFAULT_WATCHLIST_codes : list string :=
  ["USD"; "EUR"; "JPY"; "GBP"; "AUD"].

Inductive Body : Type :=
  | ErrorBody (error : string)
  | DataBody (data : LatestRates).

Record NextResponse : Type := {
  nr_body : Body;
  nr_status : Z;
  cacheControl : string
}.

(** The symbols the handler asks for: from the [symbols] parameter,
    split at the commas, trimmed, upper-cased, without the empty pieces
    and without repetitions, or the default watchlist when the parameter
    is absent or empty; at most twenty of them. *)
Definition requested (symbolsQ : option string) : list string :=
  let symbolsParam := or_else (default "" symbolsQ) "" in
  let symbols :=
    if truthy symbolsParam
    then dedupe []
           (filter (fun s => truthy s = true)
              (map (fun s => toUpperCase (trim s)) (split_comma symbolsParam)))
    else DEFAULT_WATCHLIST_codes in
  slice0 20 symbols.

Definition GET (symbolsQ : option string)
    (net : outcome (Response FrankfurterLatestResponse)) (clock : Z)
  : NextResponse :=
  let symbolsParam := or_else (default "" symbolsQ) "" in
  let symbols := requested symbolsQ in
  if truthy symbolsParam && (length symbols =? 0)%nat
  then {| nr_body := ErrorBody "No valid symbols provided"; nr_status := 400;
          cacheControl := "no-store" |}
  else
    match fetchLatestRates "SGD" symbols net clock with
    | Returned data =>
        {| nr_body := DataBody data; nr_status := 200;
           cacheControl := "public, s-maxage=30, stale-while-revalidate=60" |}
    | Threw err =>
        {| nr_body := ErrorBody (message_of err); nr_status := 500;
           cacheControl := "no-store" |}
    end.

End LatestRoute.

(** ** [lib/format.ts] *)
Module Format.
Import JsString.

(** The result of [parseDecimalInput]: a value, or no value with an
    error text or [null]. *)
Inductive ParseNumberResult : Type :=
  | ParsedOk (value : number)
  | ParseError (error : option string).

(** [s.replace(/,/g, "")]. *)
Fixpoint removeCommas (s : string) : string :=
  match s with
  | EmptyString => EmptyString
  | String c r =>
      if Ascii.eqb c "," then removeCommas r else String c (removeCommas r)
  end.

Definition normalizeNumberInput (raw : string) : string :=
  removeCommas (trim raw).

Definition is_digit (c : ascii) : bool :=
  let n := nat_of_ascii c in ((48 <=? n) && (n <=? 57))%nat.

Definition digit_value (c : ascii) : Z := Z.of_nat (nat_of_ascii c) - 48.

(** The digits a text starts with, read as a number, with how many
    there are, and the rest of the text. *)
Fixpoint read_digits (acc : Z) (count : nat) (s : string) : Z * nat * string :=
  match s with
  | EmptyString => (acc, count, EmptyString)
  | String c r =>
      if is_digit c then read_digits (10 * acc + digit_value c) (S count) r
      else (acc, count, s)
  end.

(** The pattern [/^[0-9]*\.?[0-9]*$/]: digits, at most one point, digits. *)
Definition matches_decimal (s : string) : bool :=
  match read_digits 0 0 s with
  | (_, _, EmptyString) => true
  | (_, _, String c r) =>
      Ascii.eqb c "."
      && match read_digits 0 0 r with
         | (_, _, EmptyString) => true
         | _ => false
         end
  end.

(** The largest finite double is just below [2^1024 - 2^970]; a decimal
    text with a value from there on is read as [Infinity].  Below that
    the value is taken exactly (rounding is not modelled). *)
Definition overflow_threshold : Z := 2 ^ 1024 - 2 ^ 970.

Definition to_double (q : Q) : number :=
  if Qle_bool (inject_Z overflow_threshold) q then PosInf else Finite q.

(** [Number(s)] for a text that matches the pattern: the empty text is
    0, a lone point is not a number, anything else is its decimal value. *)
Definition Number_decimal (s : string) : number :=
  match read_digits 0 0 s with
  | (i, ni, EmptyString) => to_double (inject_Z i)
  | (i, ni, String _ r) =>
      match read_digits 0 0 r with
      | (f, nf, _) =>
          if ((ni =? 0) && (nf =? 0))%nat then NaN
          else to_double (inject_Z i + inject_Z f / inject_Z (10 ^ Z.of_nat nf))
      end
  end.

Definition parseDecimalInput (raw : string) : ParseNumberResult :=
  let trimmed := trim raw in
  if String.eqb trimmed "" || String.eqb trimmed "." then ParseError None
  else
    let normalized := normalizeNumberInput trimmed in
    if negb (matches_decimal normalized)
    then ParseError (Some "Enter a number (e.g. 1000 or 1,000.50)")
    else
      let n := Number_decimal normalized in
      if negb (JsNumber.isFinite n) then ParseError (Some "Invalid number")
      else ParsedOk n.

(** [Math.max] and [Math.min] on numbers: not-a-number if either side
    is. *)
Definition num_le (a b : number) : bool :=
  match a, b with
  | NaN, _ | _, NaN => false
  | NegInf, _ => true
  | _, PosInf => true
  | Finite x, Finite y => Qle_bool x y
  | _, _ => false
  end.

Definition Math_max (a b : number) : number :=
  match a, b with
  | NaN, _ | _, NaN => NaN
  | _, _ => if num_le a b then b else a
  end.

Definition Math_min (a b : number) : number :=
  match a, b with
  | NaN, _ | _, NaN => NaN
  | _, _ => if num_le a b then a else b
  end.

Definition clampNumber (n min max : number) : number :=
  Math_min max (Math_max min n).

(** [maximumFractionDigits] and [minimumFractionDigits] as
    [formatFxAmount] sets them for a finite value. *)
Definition fx_max_digits (value : Q) : Z :=
  let abs := Qabs value in
  if Qle_bool 100 abs then 2 else if Qle_bool 1 abs then 4 else 6.

Definition fx_min_digits (value : Q) : Z := Z.min 2 (fx_max_digits value).

End Format.

(** ** [components/FxDashboard.tsx]: the amount typed in *)
Module Amount.
Import Format.

(** The two pieces of state the effect on [sgdAmountInput] writes. *)
Record State : Type := {
  sgdAmount : number;
  sgdAmountError : option string
}.

Definition initial : State :=
  {| sgdAmount := Finite 1; sgdAmountError := None |}.

(** The effect that runs when the input text changes. *)
Definition onInput (sgdAmountInput : string) (s : State) : State :=
  match parseDecimalInput sgdAmountInput with
  | ParsedOk value =>
      let capped := clampNumber value (Finite 0) (Finite 10000000) in
      {| sgdAmount := capped; sgdAmountError := None |}
  | ParseError error =>
      {| sgdAmount := sgdAmount s; sgdAmountError := error |}
  end.

End Amount.

(** ** [lib/watchlist.ts] *)
Module Watchlist.
Import JsString Fx.

Record WatchlistItem : Type := { code : string }.





Section Storage.
(** [JSON.parse] and [JSON.stringify] are the engine's. *)
Variable JSON_parse : string -> outcome json.
Variable JSON_stringify : json -> string.


End Storage.

Definition addToWatchlist (items : list WatchlistItem) (c : string)
  : list WatchlistItem :=
  let upper := toUpperCase c in
  if existsb (fun i => String.eqb (code i) upper) items then items
  else items ++ [ {| code := upper |} ].

Definition removeFromWatchlist (items : list WatchlistItem) (c : string)
  : list WatchlistItem :=
  let upper := toUpperCase c in
  List.filter (fun i => negb (String.eqb (code i) upper)) items.

End Watchlist.

(** ** [lib/currencies.ts] *)
Module Currencies.
Import JsString JsArray.

Record CurrencyEntry : Type := {
  code : string;
  name : string;
  symbol : option string
}.

Definition CURRENCIES : list CurrencyEntry :=
  [
    {| code := "SGD"; name := "Singapore Dollar"; symbol := Some "$" |};
    {| code := "USD"; name := "United States Dollar"; symbol := Some "$" |};
    {| code := "EUR"; name := "Euro"; symbol := Some "€" |};
    {| code := "GBP"; name := "British Pound Sterling"; symbol := Some "£" |};
    {| code := "JPY"; name := "Japanese Yen"; symbol := Some "¥" |};
    {| code := "AUD"; name := "Australian Dollar"; symbol := Some "$" |};
    {| code := "CAD"; name := "Canadian Dollar"; symbol := Some "$" |};
    {| code := "CHF"; name := "Swiss Franc"; symbol := Some "CHF" |};
    {| code := "CNY"; name := "Chinese Yuan"; symbol := Some "¥" |};
    {| code := "HKD"; name := "Hong Kong Dollar"; symbol := Some "$" |};
    {| code := "NZD"; name := "New Zealand Dollar"; symbol := Some "$" |};
    {| code := "KRW"; name := "South Korean Won"; symbol := Some "₩" |};
    {| code := "TWD"; name := "New Taiwan Dollar"; symbol := Some "$" |};
    {| code := "MYR"; name := "Malaysian Ringgit"; symbol := Some "RM" |};
    {| code := "THB"; name := "Thai Baht"; symbol := Some "฿" |};
    {| code := "IDR"; name := "Indonesian Rupiah"; symbol := Some "Rp" |};
    {| code := "PHP"; name := "Philippine Peso"; symbol := Some "₱" |};
    {| code := "VND"; name := "Vietnamese Dong"; symbol := Some "₫" |};
    {| code := "INR"; name := "Indian Rupee"; symbol := Some "₹" |};
    {| code := "PKR"; name := "Pakistani Rupee"; symbol := Some "₨" |};
    {| code := "BDT"; name := "Bangladeshi Taka"; symbol := Some "৳" |};
    {| code := "LKR"; name := "Sri Lankan Rupee"; symbol := Some "Rs" |};
    {| code := "NPR"; name := "Nepalese Rupee"; symbol := Some "Rs" |};
    {| code := "AED"; name := "United Arab Emirates Dirham"; symbol := None |};
    {| code := "SAR"; name := "Saudi Riyal"; symbol := None |};
    {| code := "QAR"; name := "Qatari Riyal"; symbol := None |};
    {| code := "KWD"; name := "Kuwaiti Dinar"; symbol := None |};
    {| code := "BHD"; name := "Bahraini Dinar"; symbol := None |};
    {| code := "OMR"; name := "Omani Rial"; symbol := None |};
    {| code := "ILS"; name := "Israeli New Shekel"; symbol := Some "₪" |};
    {| code := "TRY"; name := "Turkish Lira"; symbol := Some "₺" |};
    {| code := "SEK"; name := "Swedish Krona"; symbol := Some "kr" |};
    {| code := "NOK"; name := "Norwegian Krone"; symbol := Some "kr" |};
    {| code := "DKK"; name := "Danish Krone"; symbol := Some "kr" |};
    {| code := "PLN"; name := "Polish Zloty"; symbol := Some "zł" |};
    {| code := "CZK"; name := "Czech Koruna"; symbol := Some "Kč" |};
    {| code := "HUF"; name := "Hungarian Forint"; symbol := Some "Ft" |};
    {| code := "RON"; name := "Romanian Leu"; symbol := None |};
    {| code := "BGN"; name := "Bulgarian Lev"; symbol := None |};
    {| code := "HRK"; name := "Croatian Kuna"; symbol := None |};
    {| code := "RSD"; name := "Serbian Dinar"; symbol := None |};
    {| code := "UAH"; name := "Ukrainian Hryvnia"; symbol := Some "₴" |};
    {| code := "RUB"; name := "Russian Ruble"; symbol := Some "₽" |};
    {| code := "ISK"; name := "Icelandic Krona"; symbol := Some "kr" |};
    {| code := "MXN"; name := "Mexican Peso"; symbol := Some "$" |};
    {| code := "BRL"; name := "Brazilian Real"; symbol := Some "R$" |};
    {| code := "ARS"; name := "Argentine Peso"; symbol := Some "$" |};
    {| code := "CLP"; name := "Chilean Peso"; symbol := Some "$" |};
    {| code := "COP"; name := "Colombian Peso"; symbol := Some "$" |};
    {| code := "PEN"; name := "Peruvian Sol"; symbol := Some "S/" |};
    {| code := "UYU"; name := "Uruguayan Peso"; symbol := Some "$" |};
    {| code := "ZAR"; name := "South African Rand"; symbol := Some "R" |};
    {| code := "EGP"; name := "Egyptian Pound"; symbol := Some "E£" |};
    {| code := "KES"; name := "Kenyan Shilling"; symbol := None |};
    {| code := "NGN"; name := "Nigerian Naira"; symbol := Some "₦" |};
    {| code := "GHS"; name := "Ghanaian Cedi"; symbol := Some "₵" |};
    {| code := "MAD"; name := "Moroccan Dirham"; symbol := None |};
    {| code := "TND"; name := "Tunisian Dinar"; symbol := None |};
    {| code := "BTC"; name := "Bitcoin"; symbol := Some "₿" |};
    {| code := "ETH"; name := "Ethereum"; symbol := Some "Ξ" |}
  ].

(** [new Map(entries)]: a later entry overrides an earlier one with the
    same key. *)
Definition CODE_TO_ENTRY : gmap string CurrencyEntry :=
  foldl (fun m c =>
           <[toUpperCase (code c) :=
               {| code := toUpperCase (code c); name := name c;
                  symbol := symbol c |}]> m)
    ∅ CURRENCIES.

Definition normalizeCurrencyQuery (q : string) : string :=
  toUpperCase (trim q).

Definition getCurrencyByCode (c : string) : option CurrencyEntry :=
  CODE_TO_ENTRY !! normalizeCurrencyQuery c.

Record CurrencySuggestion : Type := {
  s_code : string;
  s_name : string;
  s_symbol : option string;
  score : Z
}.

(** [s.includes(q)]. *)
Fixpoint includes (s q : string) : bool :=
  String.prefix q s
  || match s with
     | EmptyString => false
     | String _ r => includes r q
     end.

(** The score of an entry for the query, -1 when it does not match. *)
Definition score_of (q : string) (c : CurrencyEntry) : Z :=
  let code := toUpperCase (code c) in
  let nameUp := toUpperCase (name c) in
  if String.eqb code q then 0
  else if String.prefix q code then 1
  else if includes code q then 2
  else if includes nameUp q then 3
  else -1.

(** The comparator of the sort, as "comes first": by score, and for
    equal scores by [localeCompare] on the codes, which for upper-case
    letters is the alphabetical order. *)
Definition suggestion_lt (a b : CurrencySuggestion) : bool :=
  if negb (score a =? score b) then score a - score b <? 0
  else ltb (s_code a) (s_code b).

Definition searchCurrencies (query : string) (excludeCodes : list string)
    (limit : Z) : list CurrencySuggestion :=
  let q := normalizeCurrencyQuery query in
  if negb (truthy q) then []
  else
    let excluded := map normalizeCurrencyQuery excludeCodes in
    let results :=
      flat_map
        (fun c =>
           let code := toUpperCase (code c) in
           if existsb (String.eqb code) excluded then []
           else
             let score := score_of q c in
             if 0 <=? score
             then [ {| s_code := code; s_name := name c;
                       s_symbol := symbol c; score := score |} ]
             else [])
        CURRENCIES in
    slice0 (Z.to_nat (Z.max 1 (Z.min 20 limit))) (sort_by suggestion_lt results).

End Currencies.

(** ** [components/WatchlistControls.tsx] *)
Module Controls.
Import JsString JsArray Watchlist.

(** The pattern [/^[A-Z]+$/]; the text is not empty where it is used. *)
Definition is_upper (c : ascii) : bool :=
  let n := nat_of_ascii c in ((65 <=? n) && (n <=? 90))%nat.

Fixpoint all_upper (s : string) : bool :=
  match s with
  | EmptyString => true
  | String c r => is_upper c && all_upper r
  end.

Definition letters_only (s : string) : bool := truthy s && all_upper s.

Definition validate (watchlist : list WatchlistItem) (c : string)
  : option string :=
  if negb (truthy c) then Some "Enter a currency code (e.g., USD)"
  else if (String.length c <? 3)%nat || (5 <? String.length c)%nat
  then Some "Code must be 3–5 characters"
  else if negb (letters_only c) then Some "Code must be letters only"
  else if existsb (fun w => String.eqb (Watchlist.code w) c) watchlist
  then Some "Already in watchlist"
  else None.

(** The state of the input box; [activeIndex] is -1 when no suggestion
    is marked. *)
Record State : Type := {
  input : string;
  inputError : option string;
  isSuggestOpen : bool;
  activeIndex : Z
}.

Definition normalizedInput (s : State) : string := toUpperCase (trim (input s)).

Definition suggestions (watchlist : list WatchlistItem) (s : State)
  : list Currencies.CurrencySuggestion :=
  if negb (truthy (normalizedInput s)) then []
  else Currencies.searchCurrencies (normalizedInput s)
         (map Watchlist.code watchlist) 8.

(** [onAdd] of the dashboard. *)
Definition onAdd (watchlist : list WatchlistItem) (c : string)
  : list WatchlistItem := addToWatchlist watchlist c.

Definition accepted (s : State) : State :=
  {| input := ""; inputError := None; isSuggestOpen := false;
     activeIndex := -1 |}.

Definition rejected (err : option string) (s : State) : State :=
  {| input := input s; inputError := err; isSuggestOpen := isSuggestOpen s;
     activeIndex := activeIndex s |}.

Definition acceptSuggestion (c : string)
    (watchlist : list WatchlistItem) (s : State)
  : list WatchlistItem * State :=
  let cleaned := toUpperCase (trim c) in
  match validate watchlist cleaned with
  | Some err => (watchlist, rejected (Some err) s)
  | None => (onAdd watchlist cleaned, accepted s)
  end.

Definition handleAdd (watchlist : list WatchlistItem) (s : State)
  : list WatchlistItem * State :=
  let sugg := suggestions watchlist s in
  if isSuggestOpen s && (0 <=? activeIndex s)
     && (activeIndex s <? Z.of_nat (length sugg))
  then
    match sugg !! Z.to_nat (activeIndex s) with
    | Some x => acceptSuggestion (Currencies.s_code x) watchlist s
    | None => (watchlist, s)
    end
  else
    match validate watchlist (normalizedInput s) with
    | Some err => (watchlist, rejected (Some err) s)
    | None => (onAdd watchlist (normalizedInput s), accepted s)
    end.




End Controls.

(** ** [components/TimeSeriesChart.tsx]: the extremes and their markers *)
Module ChartMarkers.
Import Fx JsArray.

(** [a === b] on numbers: not-a-number is equal to nothing. *)
Definition strict_eq (a b : number) : bool :=
  match a, b with
  | Finite x, Finite y => Qeq_bool x y
  | PosInf, PosInf | NegInf, NegInf => true
  | _, _ => false
  end.

Definition values (points : list TimeSeriesPoint) : list number :=
  map v points.

(** [Math.min(...values)] and [Math.max(...values)]: the arguments are
    folded from plus and minus infinity. *)
Definition Math_min_all (values : list number) : number :=
  fold_left Format.Math_min values PosInf.

Definition Math_max_all (values : list number) : number :=
  fold_left Format.Math_max values NegInf.

Definition minV (points : list TimeSeriesPoint) : number :=
  if (0 <? length (values points))%nat then Math_min_all (values points)
  else Finite 0.

Definition maxV (points : list TimeSeriesPoint) : number :=
  if (0 <? length (values points))%nat then Math_max_all (values points)
  else Finite 0.

(** The indices [renderMinMaxMarkers] looks up; [None] when it draws
    nothing at all, [Some None] for an index of -1. *)
Definition minIdx (points : list TimeSeriesPoint) : option (option nat) :=
  if (length points <? 2)%nat then None
  else Some (findIndex (fun p => strict_eq (v p) (minV points)) points).

Definition maxIdx (points : list TimeSeriesPoint) : option (option nat) :=
  if (length points <? 2)%nat then None
  else Some (findIndex (fun p => strict_eq (v p) (maxV points)) points).

End ChartMarkers.

(** ** [lib/time.ts]: the age of the rates *)
Module TimeAgo.

(** The seconds are whole, as [secondsSince] gives them with
    [Math.floor]; [None] is [null]. *)
Definition timeAgoLabel (seconds : option Z) : string :=
  match seconds with
  | None => "—"
  | Some seconds =>
      if seconds <? 10 then "just now"
      else if seconds <? 60 then pretty seconds +:+ "s ago"
      else
        let mins := seconds / 60 in
        if mins <? 60 then pretty mins +:+ "m ago"
        else
          let hours := mins / 60 in
          pretty hours +:+ "h ago"
  end.

Inductive Level : Type := fresh | warm | stale | unknown.

Definition stalenessLevel (seconds : option Z) : Level :=
  match seconds with
  | None => unknown
  | Some seconds =>
      if seconds <? 60 then fresh
      else if seconds <? 300 then warm
      else stale
  end.

End TimeAgo.

(** ** Notions the properties are stated with *)
Module Notions.
Import JsString Fx Dashboard.

(** [p] is not after [q] in date order: the comparator of
    [fetchTimeSeries] does not put [q] first. *)
Definition not_after (p q : TimeSeriesPoint) : Prop :=
  ltb (t q) (t p) = false.

(** The value of the last entry of [l] whose key, upper-cased, is [k]. *)
Fixpoint last_rate (k : string) (l : list (string * number)) : option number :=
  match l with
  | [] => None
  | (k', x) :: r =>
      match last_rate k r with
      | Some y => Some y
      | None => if String.eqb (toUpperCase k') k then Some x else None
      end
  end.

(** A text without a comma. *)
Fixpoint has_comma (s : string) : bool :=
  match s with
  | EmptyString => false
  | String c r => Ascii.eqb c "," || has_comma r
  end.

Definition comma_free (s : string) : Prop := has_comma s = false.

(** What the time-series route asks of its two parameters: a symbol of
    three to five characters once trimmed, and a range that is absent,
    empty, or one of the six tokens once trimmed and upper-cased. *)
Definition symbol_ok (symbolQ : option string) : bool :=
  let s := toUpperCase (trim (default "" symbolQ)) in
  (3 <=? String.length s)%nat && (String.length s <=? 5)%nat.

Definition range_ok (rangeQ : option string) : bool :=
  negb (truthy_opt rangeQ)
  || TimeseriesRoute.includes TimeseriesRoute.allowedRanges
       (toUpperCase (trim (default "" rangeQ))).

(** The range the route works with: the parameter trimmed and
    upper-cased, or 1M when it is absent or empty. *)
Definition range_used (rangeQ : option string) : string :=
  if truthy_opt rangeQ then toUpperCase (trim (default "" rangeQ)) else "1M".

(** Single flight: the controller held in [abortRef] is the newest one
    made, and it is the only one that has not been aborted. *)
Definition single_flight (s : State) : Prop :=
  match abortRef s with
  | None => controllers s = 0%nat /\ aborted s = ∅
  | Some c => controllers s = S c /\ forall x, x ∈ aborted s <-> (x < c)%nat
  end.

(** [a] ranks before [b] among the suggestions, or level with it: a
    smaller score, or the same score and a code that is not after. *)
Definition ranks_before (a b : Currencies.CurrencySuggestion) : Prop :=
  Currencies.suggestion_lt b a = false.

(** The suggestion made from a directory entry with a score. *)
Definition suggestion_of (c : Currencies.CurrencyEntry) (score : Z)
  : Currencies.CurrencySuggestion :=
  {| Currencies.s_code := toUpperCase (Currencies.code c);
     Currencies.s_name := Currencies.name c;
     Currencies.s_symbol := Currencies.symbol c;
     Currencies.score := score |}.

(** The matches before they are sorted. *)
Definition matches (q : string) (excluded : list string)
  : list Currencies.CurrencySuggestion :=
  flat_map
    (fun c =>
       let code := toUpperCase (Currencies.code c) in
       if existsb (String.eqb code) excluded then []
       else
         let score := Currencies.score_of q c in
         if 0 <=? score
         then [ {| Currencies.s_code := code; Currencies.s_name := Currencies.name c;
                   Currencies.s_symbol := Currencies.symbol c; Currencies.score := score |} ]
         else [])
    Currencies.CURRENCIES.

End Notions.

(** * Properties *)

(** ** The string functions on known inputs *)
Module StringFacts.
Import JsString.

Example trim_example : trim "  usd  " = "usd".
Proof. reflexivity. Qed.

Example trim_inner_space : trim " 1 m " = "1 m".
Proof. reflexivity. Qed.

Example toUpperCase_example : toUpperCase "1m-usd" = "1M-USD".
Proof. reflexivity. Qed.

Lemma toUpperCase_idempotent s : toUpperCase (toUpperCase s) = toUpperCase s.
Proof.
  induction s as [| c r IH]; [reflexivity |].
  cbn [toUpperCase]. rewrite IH. f_equal.
  unfold upper_ascii.
  destruct ((97 <=? nat_of_ascii c)%nat && (nat_of_ascii c <=? 122)%nat) eqn:E.
  - apply andb_true_iff in E. destruct E as [E1 E2].
    apply Nat.leb_le in E1, E2.
    rewrite nat_ascii_embedding by lia.
    destruct (97 <=? nat_of_ascii c - 32)%nat eqn:E3; [| reflexivity].
    apply Nat.leb_le in E3. lia.
  - rewrite E. reflexivity.
Qed.

End StringFacts.

(** ** Facts about the calendar functions *)
Module DateFacts.
Import JsDate.

Ltac zdiv := Z.to_euclidean_division_equations; lia.

Lemma isLeap_true y :
  isLeap y = true <-> (y mod 4 = 0 /\ y mod 100 <> 0) \/ y mod 400 = 0.
Proof.
  unfold isLeap.
  rewrite orb_true_iff, andb_true_iff, negb_true_iff, !Z.eqb_eq, Z.eqb_neq.
  tauto.
Qed.

Lemma DayFromYear_succ y : DayFromYear (y + 1) = DayFromYear y + DaysInYear y.
Proof.
  unfold DaysInYear.
  destruct (isLeap y) eqn:E.
  - apply isLeap_true in E. unfold DayFromYear. zdiv.
  - assert (H : ~ ((y mod 4 = 0 /\ y mod 100 <> 0) \/ y mod 400 = 0)).
    { rewrite <- isLeap_true, E. discriminate. }
    unfold DayFromYear. zdiv.
Qed.

(** [YearFromDay d] is the year ECMA-262 asks for: the one whose days
    include [d]. *)
Lemma YearFromDay_spec d :
  DayFromYear (YearFromDay d) <= d < DayFromYear (YearFromDay d + 1).
Proof.
  unfold YearFromDay, DayFromYear.
  repeat case_match;
    rewrite ?Z.ltb_lt, ?Z.ltb_ge, ?Z.leb_le, ?Z.leb_gt in *; zdiv.
Qed.

Lemma DayFromYear_mono a b : a <= b -> DayFromYear a <= DayFromYear b.
Proof. unfold DayFromYear. intros. zdiv. Qed.

Lemma YearFromDay_unique y d :
  DayFromYear y <= d < DayFromYear (y + 1) -> YearFromDay d = y.
Proof.
  intros H. pose proof (YearFromDay_spec d) as S.
  destruct (Z.lt_trichotomy (YearFromDay d) y) as [L | [E | G]]; [| exact E |].
  - pose proof (DayFromYear_mono (YearFromDay d + 1) y ltac:(lia)). lia.
  - pose proof (DayFromYear_mono (y + 1) (YearFromDay d) ltac:(lia)). lia.
Qed.

Lemma month_cases m : 0 <= m < 12 ->
  m = 0 \/ m = 1 \/ m = 2 \/ m = 3 \/ m = 4 \/ m = 5 \/ m = 6 \/ m = 7
  \/ m = 8 \/ m = 9 \/ m = 10 \/ m = 11.
Proof. lia. Qed.

Ltac each_month H :=
  apply month_cases in H;
  repeat (destruct H as [H | H]; [subst |]); [.. | subst].

Lemma monthLength_bounds leap m : 28 <= monthLength leap m <= 31.
Proof. unfold monthLength. destruct leap; repeat case_match; lia. Qed.

Lemma monthStart_next leap m : 0 <= m < 12 ->
  monthStart leap (m + 1) = monthStart leap m + monthLength leap m.
Proof. intros H. each_month H; destruct leap; reflexivity. Qed.

Lemma monthStart_last leap : monthStart leap 12 = if leap then 366 else 365.
Proof. destruct leap; reflexivity. Qed.

Lemma monthOfDayInYear_start leap m d :
  0 <= m < 12 -> 1 <= d <= monthLength leap m ->
  monthOfDayInYear leap (monthStart leap m + d - 1) = m.
Proof.
  intros H Hd. each_month H; destruct leap; cbn in Hd |- *;
    unfold monthOfDayInYear; cbn;
    repeat (case_match; [try reflexivity; rewrite Z.ltb_lt in *; lia
                        | rewrite Z.ltb_ge in *; try lia]); reflexivity.
Qed.

Lemma monthOfDayInYear_range leap k : 0 <= monthOfDayInYear leap k < 12.
Proof. unfold monthOfDayInYear. repeat case_match; lia. Qed.

Lemma monthOfDayInYear_spec leap k :
  0 <= k < monthStart leap 12 ->
  monthStart leap (monthOfDayInYear leap k) <= k
    < monthStart leap (monthOfDayInYear leap k)
      + monthLength leap (monthOfDayInYear leap k).
Proof.
  intros H. unfold monthOfDayInYear.
  destruct leap; cbn in *;
  repeat (case_match; [rewrite ?Z.ltb_lt, ?Z.ltb_ge in *; cbn; lia |]);
  rewrite ?Z.ltb_lt, ?Z.ltb_ge in *; cbn; lia.
Qed.

Lemma DayWithinYear_range d :
  0 <= DayWithinYear d < monthStart (isLeap (YearFromDay d)) 12.
Proof.
  unfold DayWithinYear. pose proof (YearFromDay_spec d) as S.
  rewrite DayFromYear_succ in S. unfold DaysInYear in S.
  rewrite monthStart_last. destruct (isLeap _); lia.
Qed.

(** The fields of a day form a date of the calendar. *)
Lemma fields_range d :
  0 <= MonthFromDay d < 12
  /\ 1 <= DateFromDay d <= daysInMonth (YearFromDay d) (MonthFromDay d).
Proof.
  unfold DateFromDay, daysInMonth, MonthFromDay.
  pose proof (monthOfDayInYear_range (isLeap (YearFromDay d)) (DayWithinYear d)).
  pose proof (monthOfDayInYear_spec _ _ (DayWithinYear_range d)). lia.
Qed.

Lemma MakeDay_in_range y m d : 0 <= m < 12 ->
  MakeDay y m d = DayFromYear y + monthStart (isLeap y) m + d - 1.
Proof.
  intros H. unfold MakeDay.
  replace (m / 12) with 0 by zdiv. replace (m mod 12) with m by zdiv.
  rewrite Z.add_0_r. reflexivity.
Qed.

(** [MakeDay] carries a month outside 0..11 into the year. *)
Lemma MakeDay_carry y m d :
  MakeDay y m d = MakeDay (y + m / 12) (m mod 12) d.
Proof.
  rewrite (MakeDay_in_range (y + m / 12)) by zdiv. reflexivity.
Qed.

(** Reading back the fields of a date of the calendar. *)
Lemma fields_of_MakeDay y m d :
  0 <= m < 12 -> 1 <= d <= daysInMonth y m ->
  YearFromDay (MakeDay y m d) = y
  /\ MonthFromDay (MakeDay y m d) = m
  /\ DateFromDay (MakeDay y m d) = d.
Proof.
  intros Hm Hd. rewrite MakeDay_in_range by exact Hm.
  assert (Hy : YearFromDay (DayFromYear y + monthStart (isLeap y) m + d - 1) = y).
  { apply YearFromDay_unique. rewrite DayFromYear_succ. unfold DaysInYear.
    unfold daysInMonth in Hd.
    pose proof Hm as Hm'. each_month Hm'; destruct (isLeap y); cbn in *; lia. }
  unfold DateFromDay, MonthFromDay, DayWithinYear. rewrite Hy.
  replace (DayFromYear y + monthStart (isLeap y) m + d - 1 - DayFromYear y)
    with (monthStart (isLeap y) m + d - 1) by lia.
  rewrite monthOfDayInYear_start by (exact Hm || exact Hd).
  repeat split; lia.
Qed.

Lemma Day_MakeDate day tod : 0 <= tod < msPerDay ->
  Day (MakeDate day tod) = day /\ TimeWithinDay (MakeDate day tod) = tod.
Proof. unfold Day, TimeWithinDay, MakeDate, msPerDay. intros. zdiv. Qed.

Lemma TimeWithinDay_range t : 0 <= TimeWithinDay t < msPerDay.
Proof. unfold TimeWithinDay, msPerDay. zdiv. Qed.

(** A date past the end of a month is the date that many days into the
    month after it. *)
Lemma MakeDay_overflow y m d : 0 <= m < 11 ->
  MakeDay y m d = MakeDay y (m + 1) (d - daysInMonth y m).
Proof.
  intros H. rewrite !MakeDay_in_range by lia. unfold daysInMonth.
  rewrite monthStart_next by lia. lia.
Qed.

(** The calendar on known dates: the epoch, a leap day, the instant
    before the epoch, and [new Date(2024, 1, 31)], which JavaScript
    shows as 2 March 2024. *)
Example toISOString_epoch : toISOString 0 = "1970-01-01T00:00:00.000Z".
Proof. reflexivity. Qed.

Example toISOString_leap_day :
  toISOString 951827696789 = "2000-02-29T12:34:56.789Z".
Proof. reflexivity. Qed.

Example toISOString_before_epoch :
  toISOString (-1) = "1969-12-31T23:59:59.999Z".
Proof. reflexivity. Qed.

Example MakeDay_31_February :
  MakeDay 2024 1 31 = MakeDay 2024 2 2
  /\ toISOString (MakeDate (MakeDay 2024 1 31) 0) = "2024-03-02T00:00:00.000Z".
Proof. split; reflexivity. Qed.

Example MakeDay_month_carry :
  MakeDay 2024 (-1) 15 = MakeDay 2023 11 15
  /\ MakeDay 2023 12 1 = MakeDay 2024 0 1.
Proof. split; reflexivity. Qed.

End DateFacts.

(** ** The date window resolver *)
Module ResolverProps.
Import JsString JsDate Fx Spec DateFacts Samples.

(** Where a month-based range leaves the [Date]: its local time is the
    local day [MakeDay] makes from the target month and the old day of
    month, at the old time of day. *)
Lemma moveBack_local tza normalized now k :
  months_back normalized = Some k ->
  LocalTime tza (moveBack tza normalized now)
  = MakeDate (MakeDay (getFullYear tza now) (getMonth tza now - k)
                (getDate tza now))
      (TimeWithinDay (LocalTime tza now)).
Proof.
  unfold months_back, moveBack. intros H.
  repeat (case_match; [simplify_eq |]); simplify_eq;
    unfold setMonth, setFullYear, getFullYear, getMonth, getDate, LocalTime, UTC;
    try (f_equal; lia).
  assert (Hm := proj1 (fields_range (Day (now + tza)))).
  unfold MonthFromTime, YearFromTime.
  rewrite (MakeDay_carry _ (_ - 12)).
  replace ((MonthFromDay (Day (now + tza)) - 12) / 12) with (-1) by zdiv.
  replace ((MonthFromDay (Day (now + tza)) - 12) mod 12)
    with (MonthFromDay (Day (now + tza))) by zdiv.
  replace (YearFromDay (Day (now + tza)) + -1)
    with (YearFromDay (Day (now + tza)) - 1) by lia.
  lia.
Qed.

Lemma scenario_1M tza now :
  -12 * 3600000 <= tza <= 14 * 3600000 ->
  Day (now + sgtOffset) = 19797 ->
  computeRangeDates tza "1M" now
  = {| rd_from := "2024-02-15"; rd_to := "2024-03-15" |}.
Proof.
  intros Hz Hd. unfold computeRangeDates, toISODateSGT. rewrite Hd.
  change (toUpperCase "1M") with "1M".
  change (moveBack tza "1M" now) with (setMonth tza now (getMonth tza now - 1)).
  unfold setMonth, getMonth, YearFromTime, MonthFromTime, DateFromTime, LocalTime, UTC.
  assert (Hl : Day (now + tza) = 19796 \/ Day (now + tza) = 19797
               \/ Day (now + tza) = 19798).
  { unfold Day, msPerDay, sgtOffset in *. zdiv. }
  assert (Hf : Day (MakeDate
                 (MakeDay (YearFromDay (Day (now + tza)))
                    (MonthFromDay (Day (now + tza)) - 1)
                    (DateFromDay (Day (now + tza))))
                 (TimeWithinDay (now + tza)) - tza + sgtOffset) = 19768).
  { destruct Hl as [E | [E | E]]; rewrite E;
      match goal with |- context [MakeDay ?a ?b ?c] =>
        let r := eval vm_compute in (MakeDay a b c) in
        change (MakeDay a b c) with r end;
      unfold Day, TimeWithinDay, MakeDate, msPerDay, sgtOffset in *; zdiv. }
  rewrite Hf. reflexivity.
Qed.


(** The fields of the moved [Date], by whether the old day of month
    exists in the target month. *)
Lemma moveBack_fields tza normalized now k :
  months_back normalized = Some k ->
  let y := getFullYear tza now in
  let m := getMonth tza now in
  let d := getDate tza now in
  let ty := y + (m - k) / 12 in
  let tm := (m - k) mod 12 in
  let back := moveBack tza normalized now in
  (d <= daysInMonth ty tm -> localFields tza back = (ty, tm, d))
  /\ (daysInMonth ty tm < d ->
      localFields tza back = (ty, tm + 1, d - daysInMonth ty tm)).
Proof.
  intros Hk y m d ty tm back.
  pose proof (moveBack_local tza normalized now k Hk) as Hl.
  fold y m d back in Hl. rewrite MakeDay_carry in Hl. fold ty tm in Hl.
  destruct (Day_MakeDate (MakeDay ty tm d) (TimeWithinDay (LocalTime tza now))
              (TimeWithinDay_range _)) as [HD _].
  rewrite <- Hl in HD.
  assert (Htm : 0 <= tm < 12) by (subst tm; zdiv).
  destruct (fields_range (Day (LocalTime tza now))) as [_ Hd].
  fold (DateFromTime (LocalTime tza now)) in Hd.
  fold (getDate tza now) in Hd. fold d in Hd.
  pose proof (monthLength_bounds
                (isLeap (YearFromDay (Day (LocalTime tza now))))
                (MonthFromDay (Day (LocalTime tza now)))) as Hb.
  unfold daysInMonth in Hd.
  pose proof (monthLength_bounds (isLeap ty) tm) as Hb'.
  unfold localFields, getFullYear, getMonth, getDate,
    YearFromTime, MonthFromTime, DateFromTime.
  rewrite HD. split; intros Hcmp.
  - destruct (fields_of_MakeDay ty tm d Htm ltac:(lia)) as (-> & -> & ->).
    reflexivity.
  - assert (Hlt : tm < 11).
    { destruct (Z.eq_dec tm 11) as [E | E]; [| lia].
      rewrite E in Hcmp. unfold daysInMonth, monthLength in Hcmp. lia. }
    rewrite MakeDay_overflow by lia.
    pose proof (monthLength_bounds (isLeap ty) (tm + 1)) as Hb''.
    unfold daysInMonth in *.
    destruct (fields_of_MakeDay ty (tm + 1) (d - monthLength (isLeap ty) tm)
                ltac:(lia) ltac:(unfold daysInMonth; lia)) as (-> & -> & ->).
    reflexivity.
Qed.

(** C3, as amended: the month and year ranges are moved back on the
    calendar fields the [Date] shows in the host's zone, keeping the day
    of month.  When that day exists in the target month the moved date
    is that day of the target month; when it does not, the date runs
    over into the month after the target month, by the number of days
    the target month is short (it is not cut down to the last day of
    the target month).  For every instant of 2024-03-15 in Singapore
    and every host offset from -12h to +14h, range 1M gives
    from = 2024-02-15 and to = 2024-03-15. *)
Theorem C3_month_arithmetic_overflows tza normalized now k :
  months_back normalized = Some k ->
  let y := getFullYear tza now in
  let m := getMonth tza now in
  let d := getDate tza now in
  let ty := y + (m - k) / 12 in
  let tm := (m - k) mod 12 in
  let back := moveBack tza normalized now in
  (d <= daysInMonth ty tm -> localFields tza back = (ty, tm, d))
  /\ (daysInMonth ty tm < d ->
      localFields tza back = (ty, tm + 1, d - daysInMonth ty tm))
  /\ (-12 * 3600000 <= tza <= 14 * 3600000 ->
      Day (now + sgtOffset) = 19797 ->
      computeRangeDates tza "1M" now
      = {| rd_from := "2024-02-15"; rd_to := "2024-03-15" |}).
Proof.
  intros Hk y m d ty tm back.
  destruct (moveBack_fields tza normalized now k Hk) as [H1 H2].
  split; [exact H1 | split; [exact H2 | apply scenario_1M]].
Qed.

(** 2024-03-31 12:00 in Singapore, on a host in that zone: one month
    back runs over to 2 March; at 2024-03-15 12:00 the window is the
    scenario's. *)
Lemma C3_month_arithmetic_overflows_witness :
  localFields sgtOffset (moveBack sgtOffset "1M" instant_2024_03_31_noon_sgt) = (2024, 2, 2)
  /\ computeRangeDates sgtOffset "1M" instant_2024_03_15_noon_sgt
     = {| rd_from := "2024-02-15"; rd_to := "2024-03-15" |}.
Proof.
  split.
  - destruct (C3_month_arithmetic_overflows sgtOffset "1M" instant_2024_03_31_noon_sgt 1
                eq_refl) as (_ & H & _).
    apply H. vm_compute. reflexivity.
  - destruct (C3_month_arithmetic_overflows sgtOffset "1M" instant_2024_03_15_noon_sgt 1
                eq_refl) as (_ & _ & H).
    apply H; vm_compute; [split; discriminate | reflexivity].
Defined.

(** C3 as stated fails: on 2024-03-31 the code gives from = 2024-03-02,
    a day of March, where rolling back to the closest day of February
    gives 2024-02-29. *)
Lemma C3_counterexample :
  rd_from (computeRangeDates sgtOffset "1M" instant_2024_03_31_noon_sgt) = "2024-03-02"
  /\ rd_to (computeRangeDates sgtOffset "1M" instant_2024_03_31_noon_sgt) = "2024-03-31"
  /\ rollback_from 1 instant_2024_03_31_noon_sgt = "2024-02-29"
  /\ rd_from (computeRangeDates sgtOffset "1M" instant_2024_03_31_noon_sgt)
     <> rollback_from 1 instant_2024_03_31_noon_sgt.
Proof. vm_compute. repeat split; discriminate. Qed.

(** *** The host's zone *)

Lemma MakeDay_fields d :
  MakeDay (YearFromDay d) (MonthFromDay d) (DateFromDay d) = d.
Proof.
  rewrite MakeDay_in_range by apply fields_range.
  unfold DateFromDay, DayWithinYear. lia.
Qed.

(** [to] never looks at the host's zone. *)
Lemma to_zone_free tza1 tza2 range now :
  rd_to (computeRangeDates tza1 range now)
  = rd_to (computeRangeDates tza2 range now).
Proof. unfold computeRangeDates. cbn [rd_to]. reflexivity. Qed.

(** The two day-count ranges take whole days off the instant, whatever
    the host's (fixed) offset. *)
Lemma setDate_minus tza now n :
  setDate tza now (getDate tza now - n) = now - n * msPerDay.
Proof.
  unfold setDate, getDate, YearFromTime, MonthFromTime, DateFromTime,
    LocalTime, UTC.
  replace (MakeDay (YearFromDay (Day (now + tza)))
             (MonthFromDay (Day (now + tza)))
             (DateFromDay (Day (now + tza)) - n))
    with (MakeDay (YearFromDay (Day (now + tza)))
            (MonthFromDay (Day (now + tza)))
            (DateFromDay (Day (now + tza))) - n)
    by (unfold MakeDay; lia).
  rewrite MakeDay_fields.
  unfold MakeDate, Day, TimeWithinDay, msPerDay. zdiv.
Qed.

Lemma day_ranges_zone_free tza1 tza2 normalized now :
  months_back normalized = None ->
  moveBack tza1 normalized now = moveBack tza2 normalized now.
Proof.
  unfold months_back, moveBack. intros H.
  repeat (case_match; [simplify_eq; rewrite !setDate_minus; reflexivity |]).
  discriminate.
Qed.

(** C5, the code at the failing input: at 2024-03-31T20:00:00Z the 1M
    window is 2024-03-03..2024-04-01 on a host in UTC and
    2024-03-01..2024-04-01 on a host in Singapore time, so [from]
    depends on the zone of the host. *)
Theorem C5_window_depends_on_host_zone :
  computeRangeDates 0 "1M" instant_2024_03_31_20h_utc
  = {| rd_from := "2024-03-03"; rd_to := "2024-04-01" |}
  /\ computeRangeDates sgtOffset "1M" instant_2024_03_31_20h_utc
     = {| rd_from := "2024-03-01"; rd_to := "2024-04-01" |}
  /\ computeRangeDates 0 "1M" instant_2024_03_31_20h_utc
     <> computeRangeDates sgtOffset "1M" instant_2024_03_31_20h_utc.
Proof. vm_compute. repeat split; discriminate. Qed.

(** *** Unrecognized range tokens *)

Lemma moveBack_default tza normalized now :
  TimeseriesRoute.includes TimeseriesRoute.allowedRanges normalized = false ->
  moveBack tza normalized now = moveBack tza "1M" now.
Proof.
  unfold TimeseriesRoute.includes, TimeseriesRoute.allowedRanges. cbn [existsb].
  intros H. repeat (apply orb_false_elim in H; destruct H as [? H]).
  change (moveBack tza "1M" now) with (setMonth tza now (getMonth tza now - 1)).
  unfold moveBack.
  repeat match goal with
         | E : String.eqb _ _ = false |- _ => rewrite E; clear E
         end.
  reflexivity.
Qed.

End ResolverProps.

(** ** The time-series route *)
Module RouteProps.
Import JsString JsDate Fx TimeseriesRoute Spec Samples ResolverProps.

Lemma includes_1M : includes allowedRanges "1M" = true.
Proof. reflexivity. Qed.

(** C6, as amended: a token whose upper-cased form is none of 1D, 1W,
    1M, 3M, 6M, 1Y gets the window of 1M from [computeRangeDates]; the
    route answers 400 to every non-empty range parameter whose trimmed,
    upper-cased form is none of the six. *)
Theorem C6_unrecognized_range
    (StringToNumber : string -> number) (ObjectToNumber : json -> number)
    (tza : Z) (r : string) (symbolQ : option string) (now : Z)
    (net : outcome (Response FrankfurterTimeSeriesResponse)) (clock : Z) :
  (includes allowedRanges (toUpperCase r) = false ->
   computeRangeDates tza r now = computeRangeDates tza "1M" now)
  /\ (truthy r = true ->
      includes allowedRanges (toUpperCase (trim r)) = false ->
      nr_status (GET StringToNumber ObjectToNumber tza symbolQ (Some r)
                   now net clock) = 400).
Proof.
  split.
  - intros H. unfold computeRangeDates.
    rewrite (moveBack_default _ _ _ H). reflexivity.
  - intros Ht H. unfold GET.
    repeat (case_match; [reflexivity |]).
    exfalso.
    match goal with
    | Hc : truthy_opt (Some r) && _ = false |- _ =>
        cbn [truthy_opt default from_option id] in Hc; unfold or_else in Hc;
        rewrite Ht, H in Hc; cbn [andb negb] in Hc
    end.
    match goal with
    | Hc : negb (String.eqb ?a "1M") = false |- _ =>
        apply negb_false_iff, String.eqb_eq in Hc;
        rewrite Hc in H
    end.
    rewrite includes_1M in H. discriminate.
Qed.

(** The token "abc" and the parameter range=abc. *)
Lemma C6_unrecognized_range_witness :
  computeRangeDates 0 "abc" instant_2024_03_15_noon_sgt
  = computeRangeDates 0 "1M" instant_2024_03_15_noon_sgt
  /\ nr_status (GET no_coercion no_object_coercion 0 (Some "USD")
                  (Some "abc") instant_2024_03_15_noon_sgt
                  (ok_response series_jan) instant_2024_03_15_noon_sgt)
     = 400.
Proof.
  split.
  - apply (C6_unrecognized_range no_coercion no_object_coercion 0 "abc"
             None instant_2024_03_15_noon_sgt (ok_response series_jan) 0).
    reflexivity.
  - apply (C6_unrecognized_range no_coercion no_object_coercion 0 "abc"
             (Some "USD") instant_2024_03_15_noon_sgt
             (ok_response series_jan) instant_2024_03_15_noon_sgt);
      reflexivity.
Defined.

(** C6 as stated fails on both halves: the string "1d" is none of the
    six tokens, yet [computeRangeDates] gives it the one-day window,
    not the window of 1M, and the route accepts range=1d (and takes an
    empty range parameter for an absent one) instead of answering 400. *)
Lemma C6_counterexample :
  ~ In "1d" allowedRanges
  /\ computeRangeDates 0 "1d" instant_2024_03_15_noon_sgt
     = {| rd_from := "2024-03-14"; rd_to := "2024-03-15" |}
  /\ computeRangeDates 0 "1M" instant_2024_03_15_noon_sgt
     = {| rd_from := "2024-02-15"; rd_to := "2024-03-15" |}
  /\ nr_status (GET no_coercion no_object_coercion 0 (Some "USD")
                  (Some "1d") instant_2024_03_15_noon_sgt
                  (ok_response series_jan) instant_2024_03_15_noon_sgt)
     = 200
  /\ ~ In "" allowedRanges
  /\ nr_status (GET no_coercion no_object_coercion 0 (Some "USD")
                  (Some "") instant_2024_03_15_noon_sgt
                  (ok_response series_jan) instant_2024_03_15_noon_sgt)
     = 200.
Proof.
  assert (N : forall s, includes allowedRanges s = false ->
                        ~ In s allowedRanges).
  { intros s E Hin.
    assert (T : includes allowedRanges s = true); [| congruence].
    apply existsb_exists. exists s.
    split; [exact Hin | apply String.eqb_refl]. }
  split; [apply N; reflexivity |].
  split; [vm_compute; reflexivity |].
  split; [vm_compute; reflexivity |].
  split; [vm_compute; reflexivity |].
  split; [apply N; reflexivity |].
  vm_compute; reflexivity.
Qed.

End RouteProps.

(** ** Normalization of provider responses *)
Module NormalizerProps.
Import JsString JsDate Fx Spec Samples.

Lemma keep_point_positive p : keep_point p = true -> positive_finite (v p).
Proof.
  unfold keep_point, positive_finite. destruct (v p) as [| | | q]; try discriminate.
  cbn. intros H. exists q. split; [reflexivity |].
  apply negb_true_iff in H. apply Qnot_le_lt. intros Hle.
  apply Qle_bool_iff in Hle. congruence.
Qed.

Lemma insert_point_Forall (P : TimeSeriesPoint -> Prop) p l :
  P p -> Forall P l -> Forall P (insert_point p l).
Proof.
  intros Hp. induction 1 as [| q r Hq Hr IH]; cbn.
  - repeat constructor. exact Hp.
  - destruct (ltb (t q) (t p)); repeat constructor; assumption.
Qed.

Lemma sort_points_Forall (P : TimeSeriesPoint -> Prop) l :
  Forall P l -> Forall P (sort_points l).
Proof.
  induction 1 as [| p r Hp Hr IH]; cbn; [constructor |].
  apply insert_point_Forall; assumption.
Qed.

Lemma normalize_points_positive StringToNumber ObjectToNumber sym entries :
  Forall (fun p => positive_finite (v p))
    (normalize_points StringToNumber ObjectToNumber sym entries).
Proof.
  unfold normalize_points. apply sort_points_Forall.
  apply List.Forall_forall. intros p Hp.
  apply List.filter_In in Hp. apply keep_point_positive, Hp.
Qed.

(** A response with a success status and a body that parses is turned
    into a series; a bad point does not make the call fail. *)
Lemma fetchTimeSeries_returns StringToNumber ObjectToNumber
    base symbol from to range res data clock :
  ok res = true -> json_body res = Returned data ->
  fetchTimeSeries StringToNumber ObjectToNumber base symbol from to range
    (Returned res) clock
  = Returned
      {| ts_base := toUpperCase (or_else (default "" (s_base data)) base);
         Fx.symbol := toUpperCase symbol;
         ts_asOf := toISOString clock;
         Fx.range := range;
         Fx.from := from;
         Fx.to := to;
         points := normalize_points StringToNumber ObjectToNumber
                     (toUpperCase symbol) (default [] (s_rates data)) |}.
Proof.
  intros Hok Hbody. unfold fetchTimeSeries, assertOk.
  cbn [mbind outcome_bind]. rewrite Hok. cbn [negb]. rewrite Hbody.
  reflexivity.
Qed.

Lemma fetchTimeSeries_points StringToNumber ObjectToNumber
    base symbol from to range net clock ts :
  fetchTimeSeries StringToNumber ObjectToNumber base symbol from to range
    net clock = Returned ts ->
  exists entries,
    points ts = normalize_points StringToNumber ObjectToNumber
                  (toUpperCase symbol) entries.
Proof.
  unfold fetchTimeSeries, assertOk. destruct net as [res | e]; [| discriminate].
  cbn [mbind outcome_bind]. destruct (negb (ok res)); [discriminate |].
  destruct (json_body res) as [data | e]; [| discriminate].
  intros [= <-]. eexists. reflexivity.
Qed.

(** C4: every point of a series that [fetchTimeSeries] returns has a
    finite value above zero, so no zero, negative, not-a-number or
    infinite value is among them; the raw rates
    2024-01-01 -> JPY 0, 2024-01-02 -> JPY 114.3 normalize to the single
    point (2024-01-02, 114.3). *)
Theorem C4_points_finite_and_positive
    (StringToNumber : string -> number) (ObjectToNumber : json -> number)
    base symbol from to range net clock ts :
  fetchTimeSeries StringToNumber ObjectToNumber base symbol from to range
    net clock = Returned ts ->
  Forall (fun p => positive_finite (v p)) (points ts)
  /\ Forall (fun p => JsNumber.isFinite (v p) = true
                      /\ JsNumber.gt0 (v p) = true
                      /\ v p <> NaN /\ v p <> Finite 0) (points ts)
  /\ exists ts',
       fetchTimeSeries StringToNumber ObjectToNumber base "JPY" from to
         range (ok_response series_jan) clock = Returned ts'
       /\ points ts' = [ {| t := "2024-01-02"; v := Finite (1143 # 10) |} ].
Proof.
  intros H. destruct (fetchTimeSeries_points _ _ _ _ _ _ _ _ _ _ H) as [es ->].
  pose proof (normalize_points_positive StringToNumber ObjectToNumber
                (toUpperCase symbol) es) as Hpos.
  split; [exact Hpos | split].
  - eapply List.Forall_impl; [| exact Hpos]. intros p (q & Hq & Hlt).
    rewrite Hq. cbn. repeat split; try discriminate.
    + apply negb_true_iff. destruct (Qle_bool q 0) eqn:E; [| reflexivity].
      apply Qle_bool_iff in E. exfalso. exact (Qlt_not_le _ _ Hlt E).
    + intros [= ->]. exact (Qlt_irrefl 0 Hlt).
  - eexists. split; [reflexivity |]. reflexivity.
Qed.

(** The scenario's response, asked for JPY. *)
Lemma C4_points_finite_and_positive_witness :
  fetchTimeSeries no_coercion no_object_coercion "SGD" "JPY" "2024-01-01"
    "2024-01-02" (Some "1M") (ok_response series_jan) 0
  = Returned
      {| ts_base := "SGD"; Fx.symbol := "JPY";
         ts_asOf := "1970-01-01T00:00:00.000Z"; Fx.range := Some "1M";
         Fx.from := "2024-01-01"; Fx.to := "2024-01-02";
         points := [ {| t := "2024-01-02"; v := Finite (1143 # 10) |} ] |}
  /\ Forall (fun p => positive_finite (v p))
       [ {| t := "2024-01-02"; v := Finite (1143 # 10) |} ].
Proof.
  split; [reflexivity |].
  exact (proj1 (C4_points_finite_and_positive no_coercion no_object_coercion
                  "SGD" "JPY" "2024-01-01" "2024-01-02" (Some "1M")
                  (ok_response series_jan) 0 _ eq_refl)).
Defined.

(** *** Time stamps and dates *)

Lemma fetchLatestRates_returns base symbols res data clock :
  ok res = true -> json_body res = Returned data ->
  fetchLatestRates base symbols (Returned res) clock
  = Returned
      {| Fx.base := toUpperCase (or_else (default "" (l_base data)) base);
         asOf := toISOString clock;
         providerDate := l_date data;
         Fx.symbols := filter (fun s => truthy s = true)
                         (map (fun s => toUpperCase (trim s)) symbols);
         rates := fromEntries
                    (map (fun kv => (toUpperCase kv.1, kv.2))
                       (default [] (l_rates data))) |}.
Proof.
  intros Hok Hbody. unfold fetchLatestRates, assertOk.
  cbn [mbind outcome_bind]. rewrite Hok. cbn [negb]. rewrite Hbody.
  reflexivity.
Qed.

(** C9, as amended: [asOf] is the instant of normalization (the clock
    read after the response has arrived), in the snapshot and in the
    series; [providerDate] is the date the provider reports; the [from]
    and [to] of a series are the dates the caller asked for, not the
    [start_date] and [end_date] the provider reports. *)
Theorem C9_asOf_is_the_normalization_instant
    (StringToNumber : string -> number) (ObjectToNumber : json -> number)
    base symbols symbol from to range resL dataL resS dataS clock :
  ok resL = true -> json_body resL = Returned dataL ->
  ok resS = true -> json_body resS = Returned dataS ->
  (exists snap,
      fetchLatestRates base symbols (Returned resL) clock = Returned snap
      /\ asOf snap = toISOString clock
      /\ providerDate snap = l_date dataL)
  /\ (exists ts,
        fetchTimeSeries StringToNumber ObjectToNumber base symbol from to
          range (Returned resS) clock = Returned ts
        /\ ts_asOf ts = toISOString clock
        /\ Fx.from ts = from
        /\ Fx.to ts = to).
Proof.
  intros HokL HbL HokS HbS. split.
  - eexists. split; [apply fetchLatestRates_returns; eassumption |].
    split; reflexivity.
  - eexists. split; [apply fetchTimeSeries_returns; eassumption |].
    repeat split; reflexivity.
Qed.

(** A snapshot and a series observed at 2024-03-15T04:00:00Z; the
    provider's dates are 2024-03-15 and 2024-01-02. *)
Lemma C9_asOf_is_the_normalization_instant_witness :
  (exists snap,
      fetchLatestRates "SGD" ["USD"] (ok_response latest_without_usd)
        instant_2024_03_15_noon_sgt = Returned snap
      /\ asOf snap = toISOString instant_2024_03_15_noon_sgt
      /\ providerDate snap = "2024-03-15")
  /\ (exists ts,
        fetchTimeSeries no_coercion no_object_coercion "SGD" "JPY"
          "2024-01-01" "2024-01-31" (Some "1M") (ok_response series_jan)
          instant_2024_03_15_noon_sgt = Returned ts
        /\ ts_asOf ts = toISOString instant_2024_03_15_noon_sgt
        /\ Fx.from ts = "2024-01-01"
        /\ Fx.to ts = "2024-01-31").
Proof.
  exact (C9_asOf_is_the_normalization_instant no_coercion no_object_coercion
           "SGD" ["USD"] "JPY" "2024-01-01" "2024-01-31" (Some "1M")
           (mkResponse true 200 "OK" (Returned "") (Returned latest_without_usd))
           latest_without_usd
           (mkResponse true 200 "OK" (Returned "") (Returned series_jan))
           series_jan instant_2024_03_15_noon_sgt
           eq_refl eq_refl eq_refl eq_refl).
Defined.

(** C9 as stated fails for the series: asked for 2024-01-01..2024-01-31,
    with the provider reporting 2024-01-02..2024-01-02, the series
    carries the dates asked for. *)
Lemma C9_counterexample :
  match fetchTimeSeries no_coercion no_object_coercion "SGD" "JPY"
          "2024-01-01" "2024-01-31" (Some "1M") (ok_response series_jan)
          instant_2024_03_15_noon_sgt
  with
  | Returned ts =>
      Fx.from ts = "2024-01-01" /\ Fx.to ts = "2024-01-31"
      /\ start_date series_jan = "2024-01-02"
      /\ end_date series_jan = "2024-01-02"
      /\ Fx.from ts <> start_date series_jan
      /\ Fx.to ts <> end_date series_jan
  | Threw _ => False
  end.
Proof. cbn. repeat split; discriminate. Qed.

(** *** The symbols of a snapshot *)

Lemma truthy_nonempty (l : list string) :
  filter (fun s => truthy s = true) l = filter (fun s => s <> "") l.
Proof.
  induction l as [| s r IH]; [reflexivity |].
  rewrite !filter_cons, IH.
  destruct s; cbn; repeat case_decide; try reflexivity; congruence.
Qed.

Lemma fetchLatestRates_symbols base symbols net clock snap :
  fetchLatestRates base symbols net clock = Returned snap ->
  Fx.symbols snap = requested_symbols symbols.
Proof.
  unfold fetchLatestRates, assertOk. destruct net as [res | e]; [| discriminate].
  cbn [mbind outcome_bind]. destruct (negb (ok res)); [discriminate |].
  destruct (json_body res) as [data | e]; [| discriminate].
  intros [= <-]. cbn [Fx.symbols]. apply truthy_nonempty.
Qed.

(** C10: the [symbols] of a snapshot are the caller's list, trimmed,
    upper-cased, without the empty entries and in the caller's order,
    whatever the provider answered; a symbol asked for can be in
    [symbols] with no key in [rates], as USD is when the provider
    answers with EUR only. *)
Theorem C10_symbols_are_the_request
    base symbols net clock snap net' clock' snap' :
  fetchLatestRates base symbols net clock = Returned snap ->
  fetchLatestRates base symbols net' clock' = Returned snap' ->
  Fx.symbols snap = requested_symbols symbols
  /\ Fx.symbols snap' = Fx.symbols snap
  /\ exists snap0,
       fetchLatestRates base [" usd "; ""; "eur"]
         (ok_response latest_without_usd) clock = Returned snap0
       /\ Fx.symbols snap0 = ["USD"; "EUR"]
       /\ rates snap0 !! "USD" = None
       /\ rates snap0 !! "EUR" = Some (Finite (69 # 100)).
Proof.
  intros H H'.
  rewrite (fetchLatestRates_symbols _ _ _ _ _ H),
    (fetchLatestRates_symbols _ _ _ _ _ H').
  split; [reflexivity | split; [reflexivity |]].
  eexists. split; [reflexivity |].
  split; [reflexivity |]. split; vm_compute; reflexivity.
Qed.

(** The same request answered with and without a rate for EUR. *)
Lemma C10_symbols_are_the_request_witness :
  exists snap snap',
    fetchLatestRates "SGD" ["usd"] (ok_response latest_without_usd) 0
    = Returned snap
    /\ fetchLatestRates "SGD" ["usd"]
         (ok_response {| l_amount := Finite 1; l_base := None;
                         l_date := "2024-03-14"; l_rates := None |}) 1
       = Returned snap'
    /\ Fx.symbols snap = ["USD"]
    /\ Fx.symbols snap' = Fx.symbols snap.
Proof.
  eexists. eexists.
  split; [reflexivity |]. split; [reflexivity |].
  destruct (C10_symbols_are_the_request "SGD" ["usd"]
              (ok_response latest_without_usd) 0 _
              (ok_response {| l_amount := Finite 1; l_base := None;
                              l_date := "2024-03-14"; l_rates := None |}) 1 _
              eq_refl eq_refl) as (H1 & H2 & _).
  split; [exact H1 | exact H2].
Defined.

End NormalizerProps.

(** ** The refresh controller *)
Module DashboardProps.
Import JsString Fx Dashboard Spec Samples.

Lemma begin_keeps_latest symbolsParam s :
  latest (loadLatest_begin symbolsParam s).1 = latest s.
Proof.
  unfold loadLatest_begin, abortCurrent.
  destruct (truthy symbolsParam); cbn; [| reflexivity].
  destruct (abortRef s); reflexivity.
Qed.

Lemma begin_starts symbolsParam s :
  truthy symbolsParam = true ->
  exists c, (loadLatest_begin symbolsParam s).2 = Some c.
Proof.
  unfold loadLatest_begin. intros ->. cbn. eexists. reflexivity.
Qed.

(** A request that fails with a prior snapshot on the screen. *)
Lemma settle_failure net msg s snap :
  failure net = Some msg -> latest s = Some snap ->
  let s' := loadLatest_settle net s in
  latest s' = Some snap
  /\ errorMessage s' = Some msg
  /\ isLoading s' = false
  /\ status s' = loaded
  /\ (msg <> "" -> indicator s' = "DEGRADED").
Proof.
  unfold failure, loadLatest_settle. intros Hf Hl.
  destruct (awaited net) as [data | [m | m | ]]; try discriminate;
    injection Hf as <-;
    (split; [exact Hl |]); (split; [reflexivity |]); (split; [reflexivity |]);
    (split; [unfold status; cbn; rewrite Hl; cbn; rewrite ?andb_false_r;
             reflexivity |]);
    intros Hne; unfold indicator; cbn; try reflexivity;
    destruct m; [congruence | reflexivity].
Qed.

Lemma loadLatest_failure symbolsParam net msg s snap :
  truthy symbolsParam = true ->
  failure net = Some msg -> latest s = Some snap ->
  let s' := loadLatest symbolsParam net s in
  latest s' = Some snap
  /\ errorMessage s' = Some msg
  /\ isLoading s' = false
  /\ status s' = loaded
  /\ (msg <> "" -> indicator s' = "DEGRADED").
Proof.
  intros Ht Hf Hl. unfold loadLatest.
  destruct (begin_starts symbolsParam s Ht) as [c Hc].
  pose proof (begin_keeps_latest symbolsParam s) as Hk.
  destruct (loadLatest_begin symbolsParam s) as [s1 o]. cbn in Hc, Hk.
  subst o. apply settle_failure; [exact Hf | congruence].
Qed.

(** Any number of failed refreshes in a row leaves the snapshot in
    place. *)
Lemma failures_keep_latest symbolsParam nets s snap :
  truthy symbolsParam = true ->
  Forall (fun net => is_Some (failure net)) nets ->
  latest s = Some snap ->
  latest (foldl (fun s net => loadLatest symbolsParam net s) s nets)
  = Some snap.
Proof.
  intros Ht Hall. revert s. induction Hall as [| net nets [msg Hm] _ IH];
    intros s Hl; cbn; [exact Hl |].
  apply IH. apply (loadLatest_failure symbolsParam net msg s snap Ht Hm Hl).
Qed.

(** C1, as amended: when a refresh fails while a snapshot is held, the
    snapshot stays as it is, the stored error message becomes the
    reason of that failure, and the indicator in the header reads
    DEGRADED (the reason being a non-empty text), after each such
    failure and so after two in a row; the [status] handed to the
    controls stays [loaded], it is [error] only when no snapshot is
    held. *)
Theorem C1_failure_keeps_last_snapshot
    symbolsParam net1 net2 msg1 msg2 s snap :
  truthy symbolsParam = true ->
  latest s = Some snap ->
  failure net1 = Some msg1 ->
  failure net2 = Some msg2 ->
  let s1 := loadLatest symbolsParam net1 s in
  let s2 := loadLatest symbolsParam net2 s1 in
  (latest s1 = Some snap
   /\ errorMessage s1 = Some msg1
   /\ isLoading s1 = false
   /\ status s1 = loaded
   /\ (msg1 <> "" -> indicator s1 = "DEGRADED"))
  /\ (latest s2 = Some snap
      /\ errorMessage s2 = Some msg2
      /\ isLoading s2 = false
      /\ status s2 = loaded
      /\ (msg2 <> "" -> indicator s2 = "DEGRADED")).
Proof.
  intros Ht Hl H1 H2 s1 s2.
  pose proof (loadLatest_failure symbolsParam net1 msg1 s snap Ht H1 Hl) as F1.
  fold s1 in F1. split; [exact F1 |].
  apply (loadLatest_failure symbolsParam net2 msg2 s1 snap Ht H2).
  apply F1.
Qed.

(** Tracking USD with a snapshot held: the network is down, then the
    route answers 503. *)
Lemma C1_failure_keeps_last_snapshot_witness :
  let s1 := loadLatest "USD" network_down loaded_state in
  let s2 := loadLatest "USD" service_unavailable s1 in
  (latest s1 = Some snapshot
   /\ errorMessage s1 = Some "Failed to fetch"
   /\ isLoading s1 = false
   /\ status s1 = loaded
   /\ ("Failed to fetch" <> "" -> indicator s1 = "DEGRADED"))
  /\ (latest s2 = Some snapshot
      /\ errorMessage s2
         = Some "Failed to load latest rates (503): Service Unavailable"
      /\ isLoading s2 = false
      /\ status s2 = loaded
      /\ ("Failed to load latest rates (503): Service Unavailable" <> "" ->
          indicator s2 = "DEGRADED")).
Proof.
  exact (C1_failure_keeps_last_snapshot "USD" network_down
           service_unavailable "Failed to fetch"
           "Failed to load latest rates (503): Service Unavailable"
           loaded_state snapshot eq_refl eq_refl eq_refl eq_refl).
Defined.

(** C1 as stated fails on the state: after a refresh that fails with a
    snapshot held, [status] is [loaded], not the state the
    specification calls Degraded. *)
Lemma C1_counterexample :
  latest loaded_state = Some snapshot
  /\ failure network_down = Some "Failed to fetch"
  /\ status (loadLatest "USD" network_down loaded_state) = loaded
  /\ status (loadLatest "USD" network_down loaded_state) <> Degraded.
Proof. repeat split; discriminate. Qed.

(** *** Cancellation *)

(** What a cancelled request leaves alone and what it does not. *)
Lemma settle_cancelled m s :
  let s' := loadLatest_settle (Threw (AbortError m)) s in
  latest s' = latest s
  /\ errorMessage s' = errorMessage s
  /\ abortRef s' = abortRef s
  /\ isLoading s' = false.
Proof. repeat split. Qed.

(** C2, the code at the failing input: a refresh is started, a second
    one supersedes it, and then the first request settles as aborted.
    Before that the flag [isLoading] is set and [status] is [loading];
    the settling of the cancelled request clears the flag and moves
    [status] to [idle] while the second request (controller 1, not
    aborted) is still in flight.  The snapshot and the error message
    are left alone. *)
Theorem C2_cancelled_fetch_clears_loading :
  let s := run initial [Refresh "USD"; Refresh "USD"] in
  let s' := step s (Settled 0 cancelled) in
  (abortRef s = Some 1%nat /\ aborted s = {[ 0%nat ]})
  /\ (isLoading s = true /\ status s = loading /\ indicator s = "SYNCING")
  /\ (isLoading s' = false /\ status s' = idle /\ indicator s' = "LIVE")
  /\ latest s' = latest s
  /\ errorMessage s' = errorMessage s.
Proof. vm_compute. repeat split. Qed.

(** The same when the superseded request had already got a failure
    status and is cancelled while its body is read: the reading is
    given up for the empty text, and the failure of the cancelled
    request is stored as the error message. *)
Lemma cancelled_body_read_sets_error m s :
  errorMessage
    (loadLatest_settle
       (Returned (mkResponse false 500 "Internal Server Error"
                    (Threw (AbortError m)) (Threw (AbortError m)))) s)
  = Some "Failed to load latest rates (500): Internal Server Error".
Proof. reflexivity. Qed.

End DashboardProps.

(** ** The chart geometry *)
Module ChartProps.
Import Fx Chart.
Open Scope Q_scope.

Lemma length_minus_1 (points : list TimeSeriesPoint) :
  length_ points - 1 == inject_Z (Z.of_nat (length points) - 1).
Proof.
  unfold length_, Z.sub, Qminus. rewrite inject_Z_plus, inject_Z_opp.
  reflexivity.
Qed.

(** The divisor of [xFor] is the integer [max(n - 1, 1)]. *)
Lemma divisor_is_max (points : list TimeSeriesPoint) :
  Math_max (length_ points - 1) 1
  == inject_Z (Z.max (Z.of_nat (length points) - 1) 1).
Proof.
  unfold Math_max.
  destruct (Qle_bool (length_ points - 1) 1) eqn:E.
  - apply Qle_bool_iff in E. rewrite length_minus_1 in E.
    change 1 with (inject_Z 1) in E. rewrite <- Zle_Qle in E.
    rewrite Z.max_r by exact E. reflexivity.
  - assert (H : ~ length_ points - 1 <= 1).
    { intros H. apply Qle_bool_iff in H. congruence. }
    rewrite length_minus_1 in H |- *.
    change 1 with (inject_Z 1) in H. rewrite <- Zle_Qle in H.
    rewrite Z.max_l by lia. reflexivity.
Qed.

Lemma divisor_positive (points : list TimeSeriesPoint) :
  1 <= Math_max (length_ points - 1) 1.
Proof.
  rewrite divisor_is_max. change 1 with (inject_Z 1) at 1.
  rewrite <- Zle_Qle. lia.
Qed.

(** C7: the point of index [i] among [n] is drawn at
    [pad + (i / max(n - 1, 1)) * innerW]; the divisor is at least 1, so
    never zero; a single point is drawn on the left padding edge; with
    width 640, padding 24 and 5 points, index 4 is drawn at 616. *)
Theorem C7_horizontal_mapping (points : list TimeSeriesPoint) (width i : Q) :
  xFor points width i
  == pad + (i / inject_Z (Z.max (Z.of_nat (length points) - 1) 1))
           * (width - 2 * pad)
  /\ 1 <= Math_max (length_ points - 1) 1
  /\ ~ Math_max (length_ points - 1) 1 == 0
  /\ (length points = 1%nat -> xFor points width 0 == pad)
  /\ (length points = 5%nat -> pad == 24 /\ xFor points 640 4 == 616).
Proof.
  pose proof (divisor_positive points) as Hpos.
  split; [| split; [exact Hpos | split; [| split]]].
  - unfold xFor, innerW. rewrite divisor_is_max. ring.
  - intros H0. rewrite H0 in Hpos. apply (Qlt_not_le 0 1); [reflexivity | exact Hpos].
  - intros _. unfold xFor, Qdiv. ring.
  - intros H5. split; [reflexivity |].
    unfold xFor, length_. rewrite H5. reflexivity.
Qed.

(** One point, and the five points of the scenario. *)
Lemma C7_horizontal_mapping_witness :
  xFor [ {| t := "2024-01-02"; v := Finite (1143 # 10) |} ] 640 0 == pad
  /\ xFor (repeat {| t := "2024-01-02"; v := Finite 1 |} 5) 640 4 == 616.
Proof.
  split.
  - destruct (C7_horizontal_mapping
                [ {| t := "2024-01-02"; v := Finite (1143 # 10) |} ] 640 0)
      as (_ & _ & _ & H & _).
    apply H. reflexivity.
  - destruct (C7_horizontal_mapping
                (repeat {| t := "2024-01-02"; v := Finite 1 |} 5) 640 4)
      as (_ & _ & _ & _ & H).
    apply H. reflexivity.
Defined.

(** *** The hover index inverts the horizontal mapping *)

Lemma Math_max_ge a b : b <= a -> Math_max a b == a.
Proof.
  unfold Math_max. intros H. destruct (Qle_bool a b) eqn:E; [| reflexivity].
  apply Qle_bool_iff in E. apply Qle_antisym; assumption.
Qed.

Lemma Math_min_le a b : a <= b -> Math_min a b == a.
Proof.
  unfold Math_min. intros H. destruct (Qle_bool a b) eqn:E; [reflexivity |].
  exfalso. apply Qle_bool_iff in H. congruence.
Qed.

Lemma Math_round_integer x i : x == inject_Z i -> Math_round x = i.
Proof.
  intros H. unfold Math_round.
  pose proof (Qfloor_le (x + (1 # 2))) as Hlo.
  pose proof (Qlt_floor (x + (1 # 2))) as Hhi.
  set (f := Qfloor (x + (1 # 2))) in *.
  rewrite H in Hlo, Hhi. rewrite inject_Z_plus in Hhi.
  destruct (Z.lt_trichotomy f i) as [L | [E | G]]; [| exact E |]; exfalso.
  - assert (L' : (f + 1 <= i)%Z) by lia.
    rewrite Zle_Qle, inject_Z_plus in L'. change (inject_Z 1) with 1 in *. lra.
  - assert (G' : (i + 1 <= f)%Z) by lia.
    rewrite Zle_Qle, inject_Z_plus in G'. change (inject_Z 1) with 1 in *. lra.
Qed.

Lemma hover_at_point (points : list TimeSeriesPoint) (width height : Q)
    (rect : DOMRect) (e : MouseEvent) (i : Z) :
  (0 <= i <= Z.of_nat (length points) - 1)%Z ->
  2 * pad < width ->
  rect_width rect == width ->
  clientX e - rect_left rect == xFor points width (inject_Z i) ->
  exists h,
    hoverFromEvent points width height (Some rect) e = Some h /\ idx h = i.
Proof.
  intros Hi Hw Hrw Hpx. unfold hoverFromEvent.
  destruct (length points =? 0)%nat eqn:El; [apply Nat.eqb_eq in El; lia |].
  eexists. split; [reflexivity |]. cbn [idx].
  set (px := clientX e - rect_left rect) in *.
  set (W := innerW width).
  assert (HW : 0 < W) by (unfold W, innerW, pad in *; lra).
  set (D := Math_max (length_ points - 1) 1) in *.
  assert (HD : 1 <= D) by apply divisor_positive.
  assert (HDn : inject_Z (Z.of_nat (length points) - 1) <= D).
  { unfold D. rewrite divisor_is_max. rewrite <- Zle_Qle. lia. }
  set (r := inject_Z i / D).
  assert (Hr0 : 0 <= r).
  { unfold r. apply Qle_shift_div_l; [lra |]. rewrite Qmult_0_l.
    change 0 with (inject_Z 0). rewrite <- Zle_Qle. lia. }
  assert (Hr1 : r <= 1).
  { unfold r. apply Qle_shift_div_r; [lra |]. rewrite Qmult_1_l.
    apply Qle_trans with (inject_Z (Z.of_nat (length points) - 1));
      [rewrite <- Zle_Qle; lia | exact HDn]. }
  assert (HrW0 : 0 <= r * W) by (apply Qmult_le_0_compat; lra).
  assert (HrW1 : r * W <= W).
  { rewrite <- (Qmult_1_l W) at 2. apply Qmult_le_compat_r; lra. }
  set (vx := px / rect_width rect * width).
  assert (Hvx : vx == pad + r * W).
  { unfold vx. rewrite Hrw, Hpx. unfold xFor. fold D W r.
    field. unfold pad in Hw. lra. }
  set (cx := Math_min (Math_max vx pad) (pad + W)).
  assert (Hcx : cx == pad + r * W).
  { unfold cx.
    assert (Hm : Math_max vx pad == vx) by (apply Math_max_ge; lra).
    rewrite Math_min_le; [rewrite Hm; exact Hvx |]. rewrite Hm. lra. }
  assert (Ht : xToT pad (pad + W) cx == r).
  { unfold xToT. destruct (Qle_bool (pad + W) pad) eqn:E.
    - apply Qle_bool_iff in E. lra.
    - rewrite Hcx. field. lra. }
  assert (Hidx : xToT pad (pad + W) cx * (length_ points - 1) == inject_Z i).
  { rewrite Ht. rewrite length_minus_1.
    destruct (Z.eq_dec (Z.of_nat (length points)) 1%Z) as [E1 | N1].
    - rewrite E1. assert (i = 0)%Z as -> by lia. change (inject_Z (1 - 1)%Z) with 0.
      ring.
    - assert (HDe : D == inject_Z (Z.of_nat (length points) - 1)).
      { unfold D. rewrite divisor_is_max. rewrite Z.max_l by lia. reflexivity. }
      rewrite <- HDe. unfold r. field. lra. }
  rewrite (Math_round_integer _ i Hidx). lia.
Qed.


(** C8: for a chart with at least one point, mounted and laid out with
    a width and a height above zero, every mouse event resolves to a
    hover state whose index lies in [0, n - 1]; the index is the
    rounded inverse of the horizontal mapping at the clamped cursor,
    clamped to that interval, so that a cursor on the place where point
    [i] is drawn (in a chart shown at its own width) resolves to [i]; and
    moving the mouse to the same position twice leaves the same hover
    state as moving there once. *)
Theorem C8_hover_index (points : list TimeSeriesPoint) (width height : Q)
    (rect : DOMRect) (e : MouseEvent) (hover : option HoverState) :
  (1 <= length points)%nat ->
  0 < rect_width rect -> 0 < rect_height rect ->
  (exists h,
      hoverFromEvent points width height (Some rect) e = Some h
      /\ (0 <= idx h <= Z.of_nat (length points) - 1)%Z
      /\ idx h
         = Z.min
             (Z.max
                (Math_round
                   (xToT pad (pad + innerW width)
                      (Math_min (Math_max (vx h) pad) (pad + innerW width))
                    * (length_ points - 1))) 0)
             (Z.of_nat (length points) - 1)
      /\ (forall i : Z,
            (0 <= i <= Z.of_nat (length points) - 1)%Z ->
            2 * pad < width ->
            rect_width rect == width ->
            clientX e - rect_left rect == xFor points width (inject_Z i) ->
            idx h = i))
  /\ onMove points width height (Some rect) e
       (onMove points width height (Some rect) e hover)
     = onMove points width height (Some rect) e hover.
Proof.
  intros Hn _ _. split; [| reflexivity].
  unfold hoverFromEvent.
  destruct (length points =? 0)%nat eqn:El; [apply Nat.eqb_eq in El; lia |].
  eexists. split; [reflexivity |].
  cbn [idx vx]. split; [lia | split; [reflexivity |]].
  intros i Hi Hw Hrw Hpx.
  destruct (hover_at_point points width height rect e i Hi Hw Hrw Hpx)
    as (h & Hh & <-).
  unfold hoverFromEvent in Hh. rewrite El in Hh.
  injection Hh as <-. reflexivity.
Qed.

(** Five points in a 640 by 220 chart shown at its own size, the mouse
    300 pixels from the left. *)
Lemma C8_hover_index_witness :
  exists h,
    hoverFromEvent (repeat {| t := "2024-01-02"; v := Finite 1 |} 5) 640 220
      (Some {| rect_left := 0; rect_top := 0;
               rect_width := 640; rect_height := 220 |})
      {| clientX := 300; clientY := 100 |} = Some h
    /\ idx h = 2%Z.
Proof.
  destruct (C8_hover_index (repeat {| t := "2024-01-02"; v := Finite 1 |} 5)
              640 220
              {| rect_left := 0; rect_top := 0;
                 rect_width := 640; rect_height := 220 |}
              {| clientX := 300; clientY := 100 |} None
              ltac:(cbn; lia) eq_refl eq_refl) as [[h [Hh _]] _].
  exists h. split; [exact Hh |].
  vm_compute in Hh. injection Hh as <-. reflexivity.
Defined.

End ChartProps.

(** ** Sorting and string order *)
Module SortFacts.
Import JsString JsArray.

Lemma compare_refl s : String.compare s s = Eq.
Proof.
  induction s as [| c r IH]; [reflexivity |]. cbn.
  unfold Ascii.compare. rewrite N.compare_refl. exact IH.
Qed.

(** "Not greater" on strings is transitive. *)
Lemma compare_not_gt_trans a b c :
  String.compare a b <> Gt -> String.compare b c <> Gt ->
  String.compare a c <> Gt.
Proof.
  revert b c. induction a as [| x a IH]; intros [| y b] [| z c]; cbn;
    try congruence.
  unfold Ascii.compare.
  destruct (N.compare_spec (N_of_ascii x) (N_of_ascii y)) as [E | L | G],
           (N.compare_spec (N_of_ascii y) (N_of_ascii z)) as [E' | L' | G'];
    try congruence; intros H1 H2.
  - rewrite E, E', N.compare_refl. eapply IH; eassumption.
  - rewrite E. apply N.compare_lt_iff in L'. rewrite L'. discriminate.
  - rewrite <- E'. apply N.compare_lt_iff in L. rewrite L. discriminate.
  - assert (Hlt : (N_of_ascii x < N_of_ascii z)%N) by lia.
    apply N.compare_lt_iff in Hlt. rewrite Hlt. discriminate.
Qed.

Lemma ltb_false_iff a b : ltb a b = false <-> String.compare a b <> Lt.
Proof. unfold ltb. destruct (String.compare a b); split; congruence. Qed.

Lemma ltb_asym a b : ltb a b = true -> ltb b a = false.
Proof.
  unfold ltb. rewrite (String.compare_antisym b a).
  destruct (String.compare a b); cbn; congruence.
Qed.

Lemma not_ltb_trans a b c :
  ltb b a = false -> ltb c b = false -> ltb c a = false.
Proof.
  rewrite !ltb_false_iff, (String.compare_antisym b a),
    (String.compare_antisym c b), (String.compare_antisym c a).
  intros H1 H2.
  pose proof (compare_not_gt_trans a b c) as T.
  destruct (String.compare a b), (String.compare b c), (String.compare a c);
    cbn in *; try congruence; exfalso; apply T; congruence.
Qed.

Section Sort.
Context {A : Type} (lt : A -> A -> bool).

Lemma insert_by_Permutation p l : Permutation (p :: l) (insert_by lt p l).
Proof.
  induction l as [| q r IH]; cbn; [reflexivity |].
  destruct (lt q p); [| reflexivity].
  rewrite <- IH. apply perm_swap.
Qed.

Lemma sort_by_Permutation l : Permutation l (sort_by lt l).
Proof.
  induction l as [| p r IH]; cbn; [reflexivity |].
  rewrite <- insert_by_Permutation. constructor. exact IH.
Qed.

Hypothesis lt_asym : forall a b, lt a b = true -> lt b a = false.

Lemma insert_by_Sorted p l :
  Sorted (fun a b => lt b a = false) l ->
  Sorted (fun a b => lt b a = false) (insert_by lt p l).
Proof.
  induction 1 as [| q r Hs IH Hhd]; cbn; [repeat constructor |].
  destruct (lt q p) eqn:E.
  - constructor; [exact IH |].
    destruct r as [| q' r']; cbn.
    + constructor. apply lt_asym, E.
    + destruct (lt q' p); constructor.
      * inversion Hhd; assumption.
      * apply lt_asym, E.
  - repeat constructor; assumption.
Qed.

Lemma sort_by_Sorted l : Sorted (fun a b => lt b a = false) (sort_by lt l).
Proof.
  induction l as [| p r IH]; cbn; [constructor |].
  apply insert_by_Sorted, IH.
Qed.

Hypothesis le_trans :
  forall a b c, lt b a = false -> lt c b = false -> lt c a = false.

Lemma sort_by_StronglySorted l :
  StronglySorted (fun a b => lt b a = false) (sort_by lt l).
Proof.
  apply Sorted_StronglySorted; [| apply sort_by_Sorted].
  intros a b c. apply le_trans.
Qed.
End Sort.

End SortFacts.

(** ** More on [lib/fx.ts] *)
Module FxMoreProps.
Import JsString JsDate JsArray Fx FxQuery Notions Spec Samples DateFacts
  SortFacts NormalizerProps ResolverProps.

Lemma insert_point_insert_by p s :
  insert_point p s = insert_by (fun q p => ltb (t q) (t p)) p s.
Proof.
  induction s as [| q s IH]; [reflexivity |]. cbn [insert_point insert_by].
  rewrite IH. reflexivity.
Qed.

Lemma sort_points_sort_by l :
  sort_points l = sort_by (fun q p => ltb (t q) (t p)) l.
Proof.
  unfold sort_points, sort_by.
  induction l as [| p r IH]; [reflexivity |]. cbn [foldr].
  rewrite IH. apply insert_point_insert_by.
Qed.

(** X1: the points of a series are the raw entries that pass the
    filter, each one once, in ascending date order: every point is not
    after any later point, and membership in the result is membership
    among the kept raw points. *)
Theorem normalize_points_sorted_permutation
    (StringToNumber : string -> number) (ObjectToNumber : json -> number)
    (sym : string) (entries : list (string * json)) :
  let kept := List.filter keep_point
                (map (raw_point StringToNumber ObjectToNumber sym) entries) in
  let out := normalize_points StringToNumber ObjectToNumber sym entries in
  Permutation kept out
  /\ StronglySorted not_after out
  /\ (length out <= length entries)%nat.
Proof.
  intros kept out. unfold out, normalize_points. fold kept.
  rewrite sort_points_sort_by.
  split; [apply sort_by_Permutation | split].
  - apply (sort_by_StronglySorted (fun q p => ltb (t q) (t p))).
    + intros a b. apply ltb_asym.
    + intros a b c. unfold not_after. apply not_ltb_trans.
  - rewrite <- (Permutation_length (sort_by_Permutation _ kept)).
    unfold kept. etransitivity; [apply List.filter_length_le |].
    rewrite length_map. reflexivity.
Qed.

(** X2: what one raw entry contributes, by the kind of value it holds
    for the symbol: nothing when the symbol is missing (or the entry is
    not an object), for [null], for [false] and for a number that is not
    finite and above zero; [true] counts as the rate 1; a number that
    passes is kept as it is. *)
Theorem raw_entry_kept_or_dropped
    (StringToNumber : string -> number) (ObjectToNumber : json -> number)
    (sym date : string) (rateMap : json) :
  let out := normalize_points StringToNumber ObjectToNumber sym
               [(date, rateMap)] in
  match get_prop rateMap sym with
  | None | Some JNull | Some (JBool false) => out = []
  | Some (JBool true) => out = [ {| t := date; v := Finite 1 |} ]
  | Some (JNum n) =>
      out = if JsNumber.isFinite n && JsNumber.gt0 n
            then [ {| t := date; v := n |} ] else []
  | Some (JStr s) =>
      out = if JsNumber.isFinite (StringToNumber s)
               && JsNumber.gt0 (StringToNumber s)
            then [ {| t := date; v := StringToNumber s |} ] else []
  | Some x =>
      out = if JsNumber.isFinite (ObjectToNumber x)
               && JsNumber.gt0 (ObjectToNumber x)
            then [ {| t := date; v := ObjectToNumber x |} ] else []
  end.
Proof.
  unfold normalize_points, raw_point. cbn [map List.filter fst snd].
  destruct (get_prop rateMap sym) as [[| [|] | n | s | l | o] |];
    unfold keep_point; cbn [v Number_ t];
    try reflexivity;
    match goal with
    | |- context [if ?b then _ else _] => destruct b; reflexivity
    end.
Qed.

(** *** The rates of a snapshot *)

Lemma fromEntries_snoc l k x :
  fromEntries (l ++ [(k, x)]) = <[k := x]> (fromEntries l).
Proof. unfold fromEntries. rewrite foldl_app. reflexivity. Qed.

Lemma last_rate_snoc k l k' x :
  last_rate k (l ++ [(k', x)])
  = if String.eqb (toUpperCase k') k then Some x else last_rate k l.
Proof.
  induction l as [| [k0 x0] r IH]; cbn [last_rate app].
  - reflexivity.
  - rewrite IH. destruct (String.eqb (toUpperCase k') k); [reflexivity |].
    reflexivity.
Qed.

Lemma fromEntries_lookup l k :
  fromEntries (map (fun kv => (toUpperCase kv.1, kv.2)) l) !! k
  = last_rate k l.
Proof.
  induction l as [| [k' x] IH] using rev_ind; [reflexivity |].
  rewrite map_app. cbn [map fst snd]. rewrite fromEntries_snoc, last_rate_snoc.
  destruct (String.eqb (toUpperCase k') k) eqn:E.
  - apply String.eqb_eq in E. subst k. apply lookup_insert_eq.
  - apply String.eqb_neq in E. rewrite lookup_insert_ne by exact E. exact IHIH.
Qed.

Lemma last_rate_upper k l x : last_rate k l = Some x -> toUpperCase k = k.
Proof.
  induction l as [| [k' y] r IH]; cbn [last_rate]; [discriminate |].
  destruct (last_rate k r); [intros [= ->]; apply IH; reflexivity |].
  destruct (String.eqb (toUpperCase k') k) eqn:E; [| discriminate].
  apply String.eqb_eq in E. subst k. intros _.
  apply StringFacts.toUpperCase_idempotent.
Qed.

(** X3: in a snapshot, the rate under a key is the value of the last
    entry of the provider's answer whose key, upper-cased, is that key
    (a later entry overrides an earlier one); so every key of [rates] is
    in upper case, and a key the provider did not send has no rate. *)
Theorem rates_lookup base symbols res data clock snap (k : string) :
  ok res = true -> json_body res = Returned data ->
  fetchLatestRates base symbols (Returned res) clock = Returned snap ->
  rates snap !! k = last_rate k (default [] (l_rates data))
  /\ (is_Some (rates snap !! k) -> toUpperCase k = k)
  /\ (Forall (fun kv => toUpperCase kv.1 <> k) (default [] (l_rates data)) ->
      rates snap !! k = None).
Proof.
  intros Hok Hbody H.
  rewrite (fetchLatestRates_returns _ _ _ _ _ Hok Hbody) in H.
  injection H as <-. cbn [rates]. rewrite fromEntries_lookup.
  split; [reflexivity | split].
  - intros [x Hx]. exact (last_rate_upper _ _ _ Hx).
  - generalize (default [] (l_rates data)). intros l.
    induction 1 as [| [k' y] r Hne _ IH]; cbn [last_rate]; [reflexivity |].
    rewrite IH. cbn in Hne. apply String.eqb_neq in Hne. rewrite Hne.
    reflexivity.
Qed.

(** The provider answers with "usd" and then "USD": the later one is
    the rate, and "usd" is no key. *)
Lemma rates_lookup_witness :
  exists snap,
    fetchLatestRates "SGD" ["USD"]
      (ok_response {| l_amount := Finite 1; l_base := None;
                      l_date := "2024-03-15";
                      l_rates := Some [("usd", Finite (7 # 10));
                                       ("USD", Finite (74 # 100))] |}) 0
    = Returned snap
    /\ rates snap !! "USD" = Some (Finite (74 # 100))
    /\ rates snap !! "usd" = None.
Proof.
  set (data := {| l_amount := Finite 1; l_base := None;
                  l_date := "2024-03-15";
                  l_rates := Some [("usd", Finite (7 # 10));
                                   ("USD", Finite (74 # 100))] |}).
  set (res := mkResponse true 200 "OK" (Returned "") (Returned data)).
  eexists. split; [reflexivity |].
  split.
  - exact (proj1 (rates_lookup "SGD" ["USD"] res data 0 _ "USD"
                    eq_refl eq_refl eq_refl)).
  - exact (proj1 (rates_lookup "SGD" ["USD"] res data 0 _ "usd"
                    eq_refl eq_refl eq_refl)).
Defined.

(** *** The query sent to the provider *)

Lemma upper_ascii_comma c : Ascii.eqb (upper_ascii c) "," = Ascii.eqb c ",".
Proof. destruct c as [[] [] [] [] [] [] [] []]; reflexivity. Qed.

Lemma comma_free_upper s : comma_free s -> comma_free (toUpperCase s).
Proof.
  unfold comma_free. induction s as [| c r IH]; [reflexivity |].
  cbn [has_comma toUpperCase]. rewrite upper_ascii_comma.
  intros H. apply orb_false_elim in H. destruct H as [-> H]. exact (IH H).
Qed.

Lemma comma_free_trimStart s : comma_free s -> comma_free (trimStart s).
Proof.
  unfold comma_free. induction s as [| c r IH]; [reflexivity |].
  cbn [has_comma trimStart]. intros H. destruct (is_space c); [| exact H].
  apply orb_false_elim in H. apply IH, H.
Qed.

Lemma comma_free_trimEnd s : comma_free s -> comma_free (trimEnd s).
Proof.
  unfold comma_free. induction s as [| c r IH]; [reflexivity |].
  cbn [has_comma trimEnd]. intros H. apply orb_false_elim in H.
  destruct H as [Hc Hr]. specialize (IH Hr).
  destruct (trimEnd r) as [| c' r'].
  - destruct (is_space c); [reflexivity |]. cbn [has_comma]. rewrite Hc.
    reflexivity.
  - cbn [has_comma] in *. rewrite Hc. exact IH.
Qed.

Lemma comma_free_normalized s : comma_free s -> comma_free (toUpperCase (trim s)).
Proof.
  intros H. apply comma_free_upper, comma_free_trimEnd, comma_free_trimStart, H.
Qed.

Lemma split_comma_not_nil s : split_comma s <> [].
Proof.
  induction s as [| c r IH]; cbn [split_comma]; [discriminate |].
  destruct (Ascii.eqb c ","); [discriminate |].
  destruct (split_comma r); discriminate.
Qed.

Lemma split_comma_free s : comma_free s -> split_comma s = [s].
Proof.
  unfold comma_free. induction s as [| c r IH]; [reflexivity |].
  cbn [has_comma split_comma]. intros H. apply orb_false_elim in H.
  destruct H as [-> H]. rewrite (IH H). reflexivity.
Qed.

Lemma split_comma_cons s r :
  comma_free s -> split_comma (s +:+ "," +:+ r) = s :: split_comma r.
Proof.
  unfold comma_free. induction s as [| c s IH]; [reflexivity |].
  cbn [has_comma]. intros H. apply orb_false_elim in H. destruct H as [Hc H].
  change (String c s +:+ "," +:+ r) with (String c (s +:+ "," +:+ r)).
  cbn [split_comma]. rewrite Hc, (IH H). reflexivity.
Qed.

(** Splitting what [join(",")] made gives the pieces back. *)
Lemma split_join l :
  l <> [] -> Forall comma_free l -> split_comma (join_comma l) = l.
Proof.
  intros Hne Hall. induction Hall as [| s r Hs Hr IH]; [congruence |].
  destruct r as [| s' r'].
  - cbn [join_comma]. apply split_comma_free, Hs.
  - change (join_comma (s :: s' :: r'))
      with (s +:+ "," +:+ join_comma (s' :: r')).
    rewrite split_comma_cons by exact Hs. rewrite IH by discriminate.
    reflexivity.
Qed.

Lemma join_comma_truthy s r : truthy s = true -> truthy (join_comma (s :: r)) = true.
Proof.
  destruct s as [| c s]; [discriminate |]. intros _.
  destruct r; reflexivity.
Qed.

(** X4: the [to] parameter of the request for the latest rates is left
    out exactly when no symbol remains after trimming; when it is set,
    splitting it at the commas gives the [symbols] of the snapshot, in
    order, for symbols that hold no comma. *)
Theorem to_param_lists_symbols (symbols : list string) :
  Forall comma_free symbols ->
  match to_param symbols with
  | None => requested_symbols symbols = []
  | Some q =>
      requested_symbols symbols <> []
      /\ split_comma q = requested_symbols symbols
  end.
Proof.
  intros Hall. unfold to_param, toQueryParam, requested_symbols.
  rewrite truthy_nonempty.
  assert (Hcf : Forall comma_free
                  (filter (fun s => s <> "")
                     (map (fun s => toUpperCase (trim s)) symbols))).
  { apply List.Forall_forall. intros s Hs. apply list_elem_of_In in Hs.
    apply list_elem_of_filter in Hs. destruct Hs as [_ Hs].
    apply list_elem_of_In, List.in_map_iff in Hs. destruct Hs as (s0 & <- & Hs0).
    apply comma_free_normalized.
    exact (proj1 (List.Forall_forall _ _) Hall s0 Hs0). }
  assert (Hne : Forall (fun s => truthy s = true)
                  (filter (fun s => s <> "")
                     (map (fun s => toUpperCase (trim s)) symbols))).
  { apply List.Forall_forall. intros s Hs. apply list_elem_of_In in Hs.
    apply list_elem_of_filter in Hs. destruct Hs as [Hs _].
    destruct s; [congruence | reflexivity]. }
  destruct (filter _ _) as [| s r] eqn:E.
  - reflexivity.
  - inversion Hne as [| ? ? Hs _]; subst.
    rewrite (join_comma_truthy s r Hs).
    split; [discriminate | apply split_join; [discriminate | exact Hcf]].
Qed.

(** Three symbols, one of them blank. *)
Lemma to_param_lists_symbols_witness :
  to_param [" usd"; "  "; "eur "] = Some "USD,EUR"
  /\ split_comma "USD,EUR" = requested_symbols [" usd"; "  "; "eur "].
Proof.
  split; [reflexivity |].
  exact (proj2 (to_param_lists_symbols [" usd"; "  "; "eur "]
                  ltac:(repeat constructor))).
Defined.

(** *** Every range is a whole number of days *)












End FxMoreProps.

(** ** More on the two routes *)
Module RouteMoreProps.
Import JsString JsDate JsArray Fx FxQuery Notions Spec Samples
  NormalizerProps StringFacts.

Lemma or_else_empty a : or_else a "" = a.
Proof. destruct a; reflexivity. Qed.

Lemma or_else_range rangeQ :
  toUpperCase (trim (or_else (default "" rangeQ) "1M")) = range_used rangeQ.
Proof.
  unfold range_used, or_else. destruct rangeQ as [[| c r] |]; reflexivity.
Qed.

(** X6: the time-series route answers 400 exactly when the symbol or
    the range fails its check, and then the answer does not depend on
    the provider, on the clock or on the host: nothing is fetched. *)
Theorem timeseries_validation
    (StringToNumber : string -> number) (ObjectToNumber : json -> number)
    (tza : Z) (symbolQ rangeQ : option string) (now : Z)
    (net : outcome (Response FrankfurterTimeSeriesResponse)) (clock : Z) :
  let r := TimeseriesRoute.GET StringToNumber ObjectToNumber tza symbolQ
             rangeQ now net clock in
  (TimeseriesRoute.nr_status r = 400
   <-> symbol_ok symbolQ && range_ok rangeQ = false)
  /\ (symbol_ok symbolQ && range_ok rangeQ = false ->
      forall StringToNumber' ObjectToNumber' tza' now' net' clock',
        TimeseriesRoute.GET StringToNumber' ObjectToNumber' tza' symbolQ
          rangeQ now' net' clock' = r)
  /\ (TimeseriesRoute.nr_status r = 400
      \/ TimeseriesRoute.nr_status r = 200
      \/ TimeseriesRoute.nr_status r = 500).
Proof.
  unfold TimeseriesRoute.GET, symbol_ok, range_ok. cbv zeta.
  rewrite !or_else_empty, !or_else_range.
  set (s := toUpperCase (trim (default "" symbolQ))).
  destruct (truthy s) eqn:Ht; cbn [negb].
  2:{ destruct s; [| discriminate]. cbn. repeat split; auto. }
  destruct ((String.length s <? 3)%nat || (5 <? String.length s)%nat) eqn:El.
  { assert ((3 <=? String.length s)%nat && (String.length s <=? 5)%nat = false)
      as ->.
    { apply orb_true_iff in El. apply andb_false_iff.
      destruct El as [E | E]; [left | right];
        [apply Nat.ltb_lt in E; apply Nat.leb_gt; lia
        | apply Nat.ltb_lt in E; apply Nat.leb_gt; lia]. }
    cbn. repeat split; auto. }
  assert ((3 <=? String.length s)%nat && (String.length s <=? 5)%nat = true)
    as ->.
  { apply orb_false_elim in El. destruct El as [E1 E2].
    apply Nat.ltb_ge in E1, E2. apply andb_true_iff.
    split; apply Nat.leb_le; lia. }
  cbn [andb]. unfold range_used.
  set (rp := toUpperCase (trim (default "" rangeQ))).
  destruct (truthy_opt rangeQ) eqn:Hr; cbn [negb orb andb].
  - destruct (TimeseriesRoute.includes TimeseriesRoute.allowedRanges rp) eqn:Hi.
    + rewrite (String.eqb_refl rp). cbn [negb].
      destruct (fetchTimeSeries _ _ _ _ _ _ _ _ _); cbn;
        (split; [split; discriminate | split; [discriminate | auto]]).
    + destruct (String.eqb rp "1M") eqn:E.
      * apply String.eqb_eq in E. rewrite E in Hi. discriminate.
      * cbn. repeat split; auto.
  - change (TimeseriesRoute.includes TimeseriesRoute.allowedRanges "1M")
      with true. cbn iota.
    destruct (fetchTimeSeries _ _ _ _ _ _ _ _ _); cbn;
      (split; [split; discriminate | split; [discriminate | auto]]).
Qed.

(** A symbol of two letters: the answer is the same whether the
    provider is down or up. *)
Lemma timeseries_validation_witness :
  TimeseriesRoute.GET no_coercion no_object_coercion 0 (Some "us") None
    instant_2024_03_15_noon_sgt (Threw (JsError "Failed to fetch")) 5
  = TimeseriesRoute.GET no_coercion no_object_coercion sgtOffset (Some "us")
      None 0 (ok_response series_jan) 0.
Proof.
  exact (proj1 (proj2 (timeseries_validation no_coercion no_object_coercion
                         sgtOffset (Some "us") None 0
                         (ok_response series_jan) 0))
           eq_refl no_coercion no_object_coercion 0
           instant_2024_03_15_noon_sgt (Threw (JsError "Failed to fetch")) 5).
Defined.

(** With both parameters accepted, the route is the fetch of the
    window of the range, wrapped in a 200 or a 500. *)
Lemma GET_valid
    (StringToNumber : string -> number) (ObjectToNumber : json -> number)
    (tza : Z) (symbolQ rangeQ : option string) (now : Z)
    (net : outcome (Response FrankfurterTimeSeriesResponse)) (clock : Z) :
  symbol_ok symbolQ && range_ok rangeQ = true ->
  TimeseriesRoute.GET StringToNumber ObjectToNumber tza symbolQ rangeQ now
    net clock
  = match fetchTimeSeries StringToNumber ObjectToNumber "SGD"
            (toUpperCase (trim (default "" symbolQ)))
            (rd_from (computeRangeDates tza (range_used rangeQ) now))
            (rd_to (computeRangeDates tza (range_used rangeQ) now))
            (Some (range_used rangeQ)) net clock
    with
    | Returned data =>
        {| TimeseriesRoute.nr_body := TimeseriesRoute.DataBody data;
           TimeseriesRoute.nr_status := 200;
           TimeseriesRoute.cacheControl :=
             "public, s-maxage=300, stale-while-revalidate=600" |}
    | Threw err =>
        {| TimeseriesRoute.nr_body := TimeseriesRoute.ErrorBody (message_of err);
           TimeseriesRoute.nr_status := 500;
           TimeseriesRoute.cacheControl := "no-store" |}
    end.
Proof.
  unfold TimeseriesRoute.GET, symbol_ok, range_ok. cbv zeta.
  rewrite !or_else_empty, !or_else_range.
  set (s := toUpperCase (trim (default "" symbolQ))).
  intros H. apply andb_true_iff in H. destruct H as [Hs Hr].
  apply andb_true_iff in Hs. destruct Hs as [H3 H5].
  apply Nat.leb_le in H3, H5.
  assert (Ht : truthy s = true) by (destruct s; [cbn in H3; lia | reflexivity]).
  rewrite Ht. cbn [negb].
  assert ((String.length s <? 3)%nat || (5 <? String.length s)%nat = false)
    as ->.
  { apply orb_false_iff. split; apply Nat.ltb_ge; lia. }
  unfold range_used in *.
  set (rp := toUpperCase (trim (default "" rangeQ))) in *.
  destruct (truthy_opt rangeQ) eqn:Ho; cbn [negb orb andb] in *.
  - rewrite Hr, (String.eqb_refl rp). reflexivity.
  - reflexivity.
Qed.

(** X7: with both parameters accepted, the route hands back what the
    provider call gives: a rejected request or an unreadable body is a
    500 with the message of the error, a failure status of the provider
    is a 500 naming that status, and a good answer is a 200 whose series
    is for the upper-cased symbol, the range used and the window
    [computeRangeDates] gives for it, with every point finite and above
    zero. *)
Theorem timeseries_response
    (StringToNumber : string -> number) (ObjectToNumber : json -> number)
    (tza : Z) (symbolQ rangeQ : option string) (now : Z)
    (net : outcome (Response FrankfurterTimeSeriesResponse)) (clock : Z) :
  symbol_ok symbolQ && range_ok rangeQ = true ->
  let r := TimeseriesRoute.GET StringToNumber ObjectToNumber tza symbolQ
             rangeQ now net clock in
  let rd := computeRangeDates tza (range_used rangeQ) now in
  match net with
  | Threw e =>
      TimeseriesRoute.nr_status r = 500
      /\ TimeseriesRoute.nr_body r = TimeseriesRoute.ErrorBody (message_of e)
  | Returned res =>
      if ok res then
        match json_body res with
        | Threw e =>
            TimeseriesRoute.nr_status r = 500
            /\ TimeseriesRoute.nr_body r
               = TimeseriesRoute.ErrorBody (message_of e)
        | Returned data =>
            TimeseriesRoute.nr_status r = 200
            /\ exists ts,
                 TimeseriesRoute.nr_body r = TimeseriesRoute.DataBody ts
                 /\ symbol ts = toUpperCase (trim (default "" symbolQ))
                 /\ Fx.range ts = Some (range_used rangeQ)
                 /\ Fx.from ts = rd_from rd /\ Fx.to ts = rd_to rd
                 /\ Forall (fun p => positive_finite (v p)) (points ts)
        end
      else
        TimeseriesRoute.nr_status r = 500
        /\ TimeseriesRoute.nr_body r
           = TimeseriesRoute.ErrorBody
               ("FX provider error: " +:+ dec (status res) +:+ " "
                  +:+ statusText res)
  end.
Proof.
  intros Hv r rd. unfold r. rewrite (GET_valid _ _ _ _ _ _ _ _ Hv).
  destruct net as [res | e]; [| split; reflexivity].
  destruct (ok res) eqn:Hok.
  - destruct (json_body res) as [data | e] eqn:Hb.
    + rewrite (fetchTimeSeries_returns _ _ _ _ _ _ _ _ _ _ Hok Hb).
      split; [reflexivity |]. eexists. split; [reflexivity |].
      cbn [symbol Fx.range Fx.from Fx.to points].
      rewrite StringFacts.toUpperCase_idempotent.
      repeat split. apply normalize_points_positive.
    + unfold fetchTimeSeries, assertOk. cbn [mbind outcome_bind].
      rewrite Hok, Hb. split; reflexivity.
  - unfold fetchTimeSeries, assertOk. cbn [mbind outcome_bind].
    rewrite Hok. split; reflexivity.
Qed.

(** JPY over one month, answered by the provider, and over one week
    with the provider answering 503. *)
Lemma timeseries_response_witness :
  TimeseriesRoute.nr_status
    (TimeseriesRoute.GET no_coercion no_object_coercion 0 (Some " jpy ") None
       instant_2024_03_15_noon_sgt (ok_response series_jan) 0) = 200
  /\ TimeseriesRoute.nr_body
       (TimeseriesRoute.GET no_coercion no_object_coercion 0 (Some "JPY")
          (Some "1w") instant_2024_03_15_noon_sgt
          (Returned (mkResponse false 503 "Service Unavailable"
                       (Returned "") (Returned series_jan))) 0)
     = TimeseriesRoute.ErrorBody "FX provider error: 503 Service Unavailable".
Proof.
  split.
  - exact (proj1 (timeseries_response no_coercion no_object_coercion 0
                    (Some " jpy ") None instant_2024_03_15_noon_sgt
                    (ok_response series_jan) 0 eq_refl)).
  - exact (proj2 (timeseries_response no_coercion no_object_coercion 0
                    (Some "JPY") (Some "1w") instant_2024_03_15_noon_sgt
                    (Returned (mkResponse false 503 "Service Unavailable"
                                 (Returned "") (Returned series_jan))) 0
                    eq_refl)).
Defined.

(** *** Trimming and upper-casing, once and again *)

Lemma is_space_upper c : is_space (upper_ascii c) = is_space c.
Proof. destruct c as [[] [] [] [] [] [] [] []]; reflexivity. Qed.

Lemma trimStart_upper s : trimStart (toUpperCase s) = toUpperCase (trimStart s).
Proof.
  induction s as [| c r IH]; [reflexivity |].
  cbn [toUpperCase trimStart]. rewrite is_space_upper.
  destruct (is_space c); [exact IH | reflexivity].
Qed.

Lemma trimEnd_upper s : trimEnd (toUpperCase s) = toUpperCase (trimEnd s).
Proof.
  induction s as [| c r IH]; [reflexivity |].
  cbn [toUpperCase trimEnd]. rewrite IH, is_space_upper.
  destruct (trimEnd r); cbn [toUpperCase]; [| reflexivity].
  destruct (is_space c); reflexivity.
Qed.

Lemma trimEnd_idempotent s : trimEnd (trimEnd s) = trimEnd s.
Proof.
  induction s as [| c r IH]; [reflexivity |]. cbn [trimEnd].
  destruct (trimEnd r) as [| c' r'] eqn:E.
  - destruct (is_space c) eqn:Ec; [reflexivity |]. cbn [trimEnd]. rewrite Ec.
    reflexivity.
  - cbn [trimEnd] in *. rewrite IH. reflexivity.
Qed.

(** A text that does not begin with white space. *)
Lemma trimStart_fixed c r : is_space c = false -> trimStart (String c r) = String c r.
Proof. intros H. cbn [trimStart]. rewrite H. reflexivity. Qed.

Lemma trimStart_head s :
  match trimStart s with
  | EmptyString => True
  | String c _ => is_space c = false
  end.
Proof.
  induction s as [| c r IH]; [exact I |]. cbn [trimStart].
  destruct (is_space c) eqn:E; [exact IH | exact E].
Qed.

Lemma trimStart_trimEnd s :
  match s with
  | EmptyString => True
  | String c _ => is_space c = false
  end ->
  trimStart (trimEnd s) = trimEnd s.
Proof.
  destruct s as [| c r]; [reflexivity |]. intros Hc. cbn [trimEnd].
  destruct (trimEnd r); [rewrite Hc |]; apply trimStart_fixed, Hc.
Qed.

Lemma trim_idempotent s : trim (trim s) = trim s.
Proof.
  unfold trim. rewrite (trimStart_trimEnd _ (trimStart_head s)).
  apply trimEnd_idempotent.
Qed.

(** A symbol that has been trimmed and upper-cased stays as it is when
    that is done again. *)
Lemma normalized_fixed s :
  toUpperCase (trim (toUpperCase (trim s))) = toUpperCase (trim s).
Proof.
  unfold trim at 1. rewrite trimStart_upper, trimEnd_upper.
  fold (trim (trim s)). rewrite trim_idempotent.
  apply toUpperCase_idempotent.
Qed.

(** *** The latest-rates route *)

Lemma dedupe_spec seen l :
  NoDup (dedupe seen l)
  /\ forall x, x ∈ dedupe seen l -> x ∈ l /\ x ∉ seen.
Proof.
  revert seen. induction l as [| y r IH]; intros seen; cbn [dedupe].
  - split; [constructor | intros x Hx; apply elem_of_nil in Hx; contradiction].
  - destruct (existsb (String.eqb y) seen) eqn:E.
    + destruct (IH seen) as [Hn Hin]. split; [exact Hn |].
      intros x Hx. destruct (Hin x Hx). split; [apply elem_of_cons; right |]; assumption.
    + destruct (IH (y :: seen)) as [Hn Hin]. split.
      * constructor; [| exact Hn]. intros Hy. destruct (Hin y Hy) as [_ Hns].
        apply Hns. apply elem_of_cons. left. reflexivity.
      * intros x Hx. apply elem_of_cons in Hx. destruct Hx as [-> | Hx].
        -- split; [apply elem_of_cons; left; reflexivity |]. intros Hs.
           assert (existsb (String.eqb y) seen = true); [| congruence].
           apply existsb_exists. exists y.
           split; [apply list_elem_of_In, Hs | apply String.eqb_refl].
        -- destruct (Hin x Hx) as [Hr Hns].
           split; [apply elem_of_cons; right; exact Hr |].
           intros Hs. apply Hns. apply elem_of_cons. right. exact Hs.
Qed.

Lemma requested_normalized symbolsQ x :
  x ∈ LatestRoute.requested symbolsQ ->
  x <> "" /\ toUpperCase (trim x) = x.
Proof.
  unfold LatestRoute.requested, slice0. intros Hx.
  apply elem_of_take in Hx. destruct Hx as (i & Hi & _).
  apply list_elem_of_lookup_2 in Hi. rewrite or_else_empty in Hi.
  destruct (truthy (default "" symbolsQ)).
  - destruct (proj2 (dedupe_spec [] _) x Hi) as [Hf _].
    apply list_elem_of_filter in Hf. destruct Hf as [Ht Hm].
    apply list_elem_of_In, List.in_map_iff in Hm. destruct Hm as (s0 & <- & _).
    split; [| apply normalized_fixed].
    intros E. rewrite E in Ht. discriminate.
  - unfold LatestRoute.DEFAULT_WATCHLIST_codes in Hi.
    repeat (apply elem_of_cons in Hi; destruct Hi as [-> | Hi];
            [split; [discriminate | reflexivity] |]).
    apply elem_of_nil in Hi. contradiction.
Qed.

Lemma requested_symbols_fixed l :
  Forall (fun x => x <> "" /\ toUpperCase (trim x) = x) l ->
  requested_symbols l = l.
Proof.
  unfold requested_symbols. induction 1 as [| x r [Hne Hx] _ IH];
    [reflexivity |].
  cbn [map]. rewrite filter_cons, Hx, IH. destruct (decide (x <> ""));
    [reflexivity | contradiction].
Qed.

(** X8: the symbols the latest-rates route asks for are distinct, at
    most twenty, not empty and already trimmed and upper-cased; an absent
    or empty parameter stands for USD, EUR, JPY, GBP, AUD; and whenever
    the route answers with a snapshot, the snapshot lists exactly those
    symbols, at least one. *)
Theorem latest_route_symbols (symbolsQ : option string)
    (net : outcome (Response FrankfurterLatestResponse)) (clock : Z) :
  let symbols := LatestRoute.requested symbolsQ in
  NoDup symbols
  /\ (length symbols <= 20)%nat
  /\ Forall (fun x => x <> "" /\ toUpperCase (trim x) = x) symbols
  /\ (truthy_opt symbolsQ = false ->
      symbols = ["USD"; "EUR"; "JPY"; "GBP"; "AUD"])
  /\ (forall snap,
        LatestRoute.nr_body (LatestRoute.GET symbolsQ net clock)
        = LatestRoute.DataBody snap ->
        Fx.symbols snap = symbols /\ symbols <> []).
Proof.
  intros symbols.
  assert (Hall : Forall (fun x => x <> "" /\ toUpperCase (trim x) = x) symbols).
  { apply list.Forall_forall. intros x Hx.
    exact (requested_normalized symbolsQ x Hx). }
  split; [| split; [| split; [exact Hall | split]]].
  - unfold symbols, LatestRoute.requested, slice0.
    eapply sublist_NoDup; [| apply sublist_take].
    destruct (truthy _); [apply dedupe_spec |].
    unfold LatestRoute.DEFAULT_WATCHLIST_codes.
    apply NoDup_ListNoDup. repeat constructor; cbn; intuition congruence.
  - unfold symbols, LatestRoute.requested, slice0. rewrite length_take. lia.
  - unfold symbols, LatestRoute.requested. rewrite or_else_empty.
    destruct symbolsQ as [[| c s] |]; cbn; try discriminate; reflexivity.
  - intros snap. unfold LatestRoute.GET. fold symbols.
    rewrite or_else_empty.
    destruct (truthy (default "" symbolsQ) && (length symbols =? 0)%nat) eqn:E;
      [discriminate |].
    destruct (fetchLatestRates "SGD" symbols net clock) as [d | e] eqn:F;
      [| discriminate].
    cbn [LatestRoute.nr_body]. intros [= <-].
    rewrite (fetchLatestRates_symbols _ _ _ _ _ F).
    split; [apply requested_symbols_fixed, Hall |].
    intros Hnil. rewrite Hnil in E. cbn in E. rewrite andb_true_r in E.
    unfold symbols, LatestRoute.requested in Hnil.
    rewrite or_else_empty, E in Hnil. discriminate.
Qed.

(** A parameter with a repetition and an empty piece, and no parameter. *)
Lemma latest_route_symbols_witness :
  LatestRoute.requested None = ["USD"; "EUR"; "JPY"; "GBP"; "AUD"]
  /\ exists snap,
       LatestRoute.nr_body
         (LatestRoute.GET (Some "usd, eur,usd,,jpy")
            (ok_response latest_without_usd) 0)
       = LatestRoute.DataBody snap
       /\ Fx.symbols snap = ["USD"; "EUR"; "JPY"].
Proof.
  split.
  - destruct (latest_route_symbols None (ok_response latest_without_usd) 0)
      as (_ & _ & _ & H & _).
    apply H. reflexivity.
  - eexists. split; [reflexivity |].
    destruct (latest_route_symbols (Some "usd, eur,usd,,jpy")
                (ok_response latest_without_usd) 0) as (_ & _ & _ & _ & H).
    exact (proj1 (H _ eq_refl)).
Defined.

End RouteMoreProps.

(** ** More on the refresh controller *)
Module DashboardMoreProps.
Import JsString Fx Dashboard Notions Spec Samples DashboardProps.

Lemma single_flight_step s e : single_flight s -> single_flight (step s e).
Proof.
  unfold single_flight. destruct e as [sp | c net]; cbn [step].
  - unfold loadLatest_begin. destruct (truthy sp); cbn [negb fst]; [| auto].
    unfold abortCurrent.
    destruct (abortRef s) as [c |] eqn:E; cbn; rewrite ?E.
    + intros [Hc Ha]. split; [reflexivity |]. intros x. rewrite Hc.
      rewrite elem_of_union, elem_of_singleton, Ha. lia.
    + intros [Hc Ha]. split; [reflexivity |]. intros x. rewrite Hc, Ha.
      rewrite elem_of_empty. lia.
  - unfold loadLatest_settle.
    destruct (awaited net) as [d | [m | m |]]; cbn; auto.
Qed.

(** X9: whatever refreshes are triggered and whatever requests settle,
    in whatever order, the controller held in [abortRef] is the newest
    one made and every older one has been aborted: at most one request
    is left running. *)
Theorem single_flight_always (es : list event) :
  single_flight (run initial es).
Proof.
  unfold run. assert (H : single_flight initial) by (split; reflexivity).
  revert H. generalize initial. induction es as [| e es IH]; intros s H;
    cbn [foldl]; [exact H |].
  apply IH, single_flight_step, H.
Qed.

Lemma present_step s e :
  present (latest s) = true -> present (latest (step s e)) = true.
Proof.
  destruct e as [sp | c net]; cbn [step].
  - rewrite begin_keeps_latest. auto.
  - unfold loadLatest_settle.
    destruct (awaited net) as [d | [m | m |]]; cbn; auto.
Qed.

Lemma present_loaded s : present (latest s) = true -> status s = loaded.
Proof.
  unfold status. intros ->. cbn. rewrite !andb_false_r. reflexivity.
Qed.

(** X10: once a snapshot is held it is never dropped: after any further
    refreshes and settlings, failed or cancelled ones included, there is
    a snapshot and [status] is [loaded]. *)
Theorem snapshot_never_lost (s : State) (es : list event) :
  present (latest s) = true ->
  present (latest (run s es)) = true /\ status (run s es) = loaded.
Proof.
  intros H.
  assert (G : present (latest (run s es)) = true).
  { unfold run. revert s H. induction es as [| e es IH]; intros s H;
      cbn [foldl]; [exact H |]. apply IH, present_step, H. }
  split; [exact G | apply present_loaded, G].
Qed.

(** A snapshot held, then a refresh answered with a failure, a
    superseded refresh cancelled, and a refresh with no symbols. *)
Lemma snapshot_never_lost_witness :
  status (run loaded_state
            [Refresh "USD"; Settled 1 service_unavailable; Refresh "USD";
             Refresh "USD"; Settled 2 cancelled; Refresh ""]) = loaded.
Proof.
  exact (proj2 (snapshot_never_lost loaded_state
                  [Refresh "USD"; Settled 1 service_unavailable; Refresh "USD";
                   Refresh "USD"; Settled 2 cancelled; Refresh ""] eq_refl)).
Defined.

(** X11: a refresh that succeeds replaces the snapshot with the new
    data and leaves no error behind, whatever the state before: the
    stored error message is cleared, the loading flag is down, [status]
    is [loaded] and the indicator reads LIVE. *)
Theorem success_replaces_snapshot
    (symbolsParam : string) (res : Response LatestRates) (data : LatestRates)
    (s : State) :
  truthy symbolsParam = true ->
  ok res = true -> json_body res = Returned data ->
  let s' := loadLatest symbolsParam (Returned res) s in
  latest s' = Some data
  /\ errorMessage s' = None
  /\ isLoading s' = false
  /\ status s' = loaded
  /\ indicator s' = "LIVE".
Proof.
  intros Ht Hok Hb. unfold loadLatest, loadLatest_begin. rewrite Ht.
  cbn [negb]. cbv zeta. cbn [abortRef setErrorMessage setIsLoading newController].
  unfold loadLatest_settle, awaited. cbn [mbind outcome_bind].
  rewrite Hok. cbn [negb]. rewrite Hb. repeat split.
Qed.

(** A degraded controller recovers. *)
Lemma success_replaces_snapshot_witness :
  let s := loadLatest "USD" network_down loaded_state in
  let s' := loadLatest "USD"
              (Returned (mkResponse true 200 "OK" (Returned "")
                           (Returned snapshot))) s in
  errorMessage s = Some "Failed to fetch"
  /\ errorMessage s' = None /\ indicator s' = "LIVE".
Proof.
  split; [reflexivity |].
  destruct (success_replaces_snapshot "USD"
              (mkResponse true 200 "OK" (Returned "") (Returned snapshot))
              snapshot (loadLatest "USD" network_down loaded_state)
              eq_refl eq_refl eq_refl) as (_ & H1 & _ & _ & H2).
  split; [exact H1 | exact H2].
Defined.

(** X12: a refresh that fails while no snapshot is held leaves none,
    stores the reason, and, the reason being a non-empty text, puts
    [status] at [error] and the indicator at DEGRADED; a failure whose
    message is empty shows as [idle] and LIVE. *)
Theorem first_failure (symbolsParam : string)
    (net : outcome (Response LatestRates)) (msg : string) (s : State) :
  truthy symbolsParam = true ->
  latest s = None ->
  failure net = Some msg ->
  let s' := loadLatest symbolsParam net s in
  latest s' = None
  /\ errorMessage s' = Some msg
  /\ isLoading s' = false
  /\ (msg <> "" -> status s' = error /\ indicator s' = "DEGRADED")
  /\ (msg = "" -> status s' = idle /\ indicator s' = "LIVE").
Proof.
  intros Ht Hl Hf. unfold loadLatest, loadLatest_begin. rewrite Ht.
  cbn [negb]. cbv zeta. cbn [abortRef setErrorMessage setIsLoading newController].
  unfold failure in Hf. unfold loadLatest_settle.
  assert (Hl' : latest (abortCurrent s) = None).
  { unfold abortCurrent. destruct (abortRef s); exact Hl. }
  destruct (awaited net) as [d | [m | m |]]; try discriminate;
    injection Hf as <-; unfold status, indicator; cbn; rewrite Hl'; cbn;
    (split; [reflexivity |]); (split; [reflexivity |]);
    (split; [reflexivity |]).
  - destruct m; cbn; split; [congruence | auto | auto | discriminate].
  - split; [auto | discriminate].
Qed.

(** The first refresh finds the network down. *)
Lemma first_failure_witness :
  status (loadLatest "USD" network_down initial) = error
  /\ indicator (loadLatest "USD" network_down initial) = "DEGRADED".
Proof.
  destruct (first_failure "USD" network_down "Failed to fetch" initial
              eq_refl eq_refl eq_refl) as (_ & _ & _ & H & _).
  apply H. discriminate.
Defined.

End DashboardMoreProps.

(** ** [lib/format.ts] and the amount typed in *)
Module FormatProps.
Import JsString Format Amount.
Open Scope Q_scope.

Lemma digit_value_range c : is_digit c = true -> (0 <= digit_value c <= 9)%Z.
Proof.
  unfold is_digit, digit_value. intros H. apply andb_true_iff in H.
  destruct H as [H1 H2]. apply Nat.leb_le in H1, H2. lia.
Qed.

Lemma read_digits_nonneg acc count s :
  (0 <= acc)%Z -> (0 <= (read_digits acc count s).1.1)%Z.
Proof.
  revert acc count. induction s as [| c r IH]; intros acc count Ha;
    cbn [read_digits]; [exact Ha |].
  destruct (is_digit c) eqn:E; [| exact Ha].
  apply IH. pose proof (digit_value_range c E). lia.
Qed.

Lemma to_double_finite q x :
  to_double q = Finite x -> x = q /\ q < inject_Z overflow_threshold.
Proof.
  unfold to_double. destruct (Qle_bool (inject_Z overflow_threshold) q) eqn:E;
    [discriminate |].
  intros [= <-]. split; [reflexivity |]. apply Qnot_le_lt. intros H.
  apply Qle_bool_iff in H. congruence.
Qed.

Lemma Number_decimal_nonneg s x :
  Number_decimal s = Finite x -> 0 <= x < inject_Z overflow_threshold.
Proof.
  unfold Number_decimal.
  pose proof (read_digits_nonneg 0 0 s ltac:(lia)) as Hi.
  destruct (read_digits 0 0 s) as [[i ni] rest]. cbn [fst] in Hi.
  assert (Hi' : 0 <= inject_Z i).
  { change 0 with (inject_Z 0). rewrite <- Zle_Qle. exact Hi. }
  destruct rest as [| c r].
  - intros H. apply to_double_finite in H. destruct H as [-> H].
    split; assumption.
  - pose proof (read_digits_nonneg 0 0 r ltac:(lia)) as Hf.
    destruct (read_digits 0 0 r) as [[f nf] rest']. cbn [fst] in Hf.
    destruct ((ni =? 0)%nat && (nf =? 0)%nat); [discriminate |].
    intros H. apply to_double_finite in H. destruct H as [-> H].
    split; [| exact H].
    assert (0 <= inject_Z f / inject_Z (10 ^ Z.of_nat nf)); [| lra].
    apply Qle_shift_div_l.
    + change 0 with (inject_Z 0). rewrite <- Zlt_Qlt. lia.
    + rewrite Qmult_0_l. change 0 with (inject_Z 0). rewrite <- Zle_Qle.
      exact Hf.
Qed.

Lemma ParsedOk_value (raw : string) (value : number) :
  parseDecimalInput raw = ParsedOk value ->
  exists q, value = Finite q /\ 0 <= q < inject_Z overflow_threshold.
Proof.
  unfold parseDecimalInput. cbv zeta.
  destruct (String.eqb (trim raw) "" || String.eqb (trim raw) ".");
    [discriminate |].
  destruct (matches_decimal (normalizeNumberInput (trim raw))); [| discriminate].
  cbn [negb].
  destruct (Number_decimal (normalizeNumberInput (trim raw))) as [| | | q] eqn:En;
    try discriminate.
  cbn. intros [= <-]. exists q.
  split; [reflexivity | apply (Number_decimal_nonneg _ _ En)].
Qed.

(** X13: whatever is typed, a value that [parseDecimalInput] accepts is
    a finite number that is not negative, read from a text that, once
    trimmed and rid of its commas, is digits with at most one point; no
    sign, exponent or other character gets through, and a text too long
    for a double is refused rather than read as infinity. *)
Theorem parse_accepts_only_nonnegative (raw : string) (value : number) :
  parseDecimalInput raw = ParsedOk value ->
  matches_decimal (normalizeNumberInput (trim raw)) = true
  /\ exists q, value = Finite q /\ 0 <= q < inject_Z overflow_threshold.
Proof.
  intros H. split; [| exact (ParsedOk_value raw value H)].
  revert H. unfold parseDecimalInput. cbv zeta.
  destruct (String.eqb (trim raw) "" || String.eqb (trim raw) ".");
    [discriminate |].
  destruct (matches_decimal (normalizeNumberInput (trim raw)));
    [reflexivity | discriminate].
Qed.

(** A thousand and a half, typed with a comma. *)
Lemma parse_accepts_only_nonnegative_witness :
  parseDecimalInput " 1,000.50 " = ParsedOk (Finite (100050 # 100))
  /\ exists q, Finite (100050 # 100) = Finite q
               /\ 0 <= q < inject_Z overflow_threshold.
Proof.
  split; [reflexivity |].
  exact (proj2 (parse_accepts_only_nonnegative " 1,000.50 "
                  (Finite (100050 # 100)) eq_refl)).
Defined.

Lemma clamp_range q :
  exists c, clampNumber (Finite q) (Finite 0) (Finite 10000000) = Finite c
            /\ 0 <= c <= 10000000
            /\ (0 <= q <= 10000000 -> c == q).
Proof.
  unfold clampNumber, Format.Math_max. cbn [num_le].
  destruct (Qle_bool 0 q) eqn:E0.
  - apply Qle_bool_iff in E0. unfold Format.Math_min. cbn [num_le].
    destruct (Qle_bool 10000000 q) eqn:E1.
    + apply Qle_bool_iff in E1. eexists. split; [reflexivity |].
      split; [lra |]. intros H. lra.
    + assert (~ 10000000 <= q) by (intros H; apply Qle_bool_iff in H; congruence).
      eexists. split; [reflexivity |]. split; [lra | reflexivity].
  - assert (~ 0 <= q) by (intros H; apply Qle_bool_iff in H; congruence).
    unfold Format.Math_min. cbn. eexists. split; [reflexivity |].
    split; [lra |]. intros H'. lra.
Qed.

Lemma amount_invariant (inputs : list string) (s0 : Amount.State) :
  (exists q, sgdAmount s0 = Finite q /\ 0 <= q <= 10000000) ->
  exists q, sgdAmount (foldl (fun s i => onInput i s) s0 inputs) = Finite q
            /\ 0 <= q <= 10000000.
Proof.
  revert s0. induction inputs as [| i r IH]; intros s0 H0; cbn [foldl];
    [exact H0 |].
  apply IH. unfold onInput.
  destruct (parseDecimalInput i) as [value | e] eqn:E; cbn [sgdAmount];
    [| exact H0].
  destruct (ParsedOk_value _ _ E) as (q & -> & _).
  destruct (clamp_range q) as (c & -> & Hc & _). exists c.
  split; [reflexivity | exact Hc].
Qed.

(** X14: the amount the calculator works with is always a finite
    number from 0 to 10,000,000, whatever sequence of texts is typed: an
    accepted text sets it to the typed value cut to that interval and
    clears the error, any other text leaves it as it was. *)
Theorem amount_always_in_range (inputs : list string) (text : string) :
  let s := foldl (fun s i => onInput i s) Amount.initial inputs in
  let s' := onInput text s in
  (exists q, sgdAmount s = Finite q /\ 0 <= q <= 10000000)
  /\ match parseDecimalInput text with
     | ParsedOk value =>
         sgdAmountError s' = None
         /\ exists q c, value = Finite q /\ sgdAmount s' = Finite c
                        /\ 0 <= c <= 10000000
                        /\ (q <= 10000000 -> c == q)
     | ParseError e => sgdAmountError s' = e /\ sgdAmount s' = sgdAmount s
     end.
Proof.
  intros s s'. split.
  - unfold s. apply amount_invariant. exists 1. split; [reflexivity | lra].
  - unfold s', onInput.
    destruct (parseDecimalInput text) as [value | e] eqn:E;
      cbn [sgdAmount sgdAmountError]; [| split; reflexivity].
    split; [reflexivity |].
    destruct (ParsedOk_value _ _ E) as (q & -> & Hq & _).
    destruct (clamp_range q) as (c & -> & Hc & Hid). exists q, c.
    repeat split; try apply Hc. intros Hle. apply Hid. lra.
Qed.

(** Twelve dollars, then a text that is refused. *)
Lemma amount_always_in_range_witness :
  exists q,
    sgdAmount (foldl (fun s i => onInput i s) Amount.initial ["12"; "-5"])
    = Finite q
    /\ 0 <= q <= 10000000.
Proof. exact (proj1 (amount_always_in_range ["12"; "-5"] "7")). Defined.

(** X15: the amounts are shown with two decimals at least and six at
    most, the least never above the most, and a value larger in
    magnitude never gets more decimals than a smaller one. *)
Theorem fx_digits_bounds (a b : Q) :
  fx_min_digits a = 2%Z
  /\ (fx_min_digits a <= fx_max_digits a <= 6)%Z
  /\ (Qabs a <= Qabs b -> (fx_max_digits b <= fx_max_digits a)%Z).
Proof.
  unfold fx_min_digits, fx_max_digits.
  destruct (Qle_bool 100 (Qabs a)) eqn:A1, (Qle_bool 1 (Qabs a)) eqn:A2,
           (Qle_bool 100 (Qabs b)) eqn:B1, (Qle_bool 1 (Qabs b)) eqn:B2;
    (split; [reflexivity | split; [lia |]]); intros H; try lia;
    repeat match goal with
           | E : Qle_bool _ _ = true |- _ => apply Qle_bool_iff in E
           | E : Qle_bool ?x ?y = false |- _ =>
               assert (~ x <= y) by (intros X; apply Qle_bool_iff in X; congruence);
               clear E
           end; exfalso; lra.
Qed.

Lemma fx_digits_bounds_witness :
  (fx_max_digits 250 <= fx_max_digits (1 # 2))%Z.
Proof.
  apply (proj2 (proj2 (fx_digits_bounds (1 # 2) 250))).
  unfold Qle. simpl. lia.
Defined.

End FormatProps.

(** ** [lib/watchlist.ts] *)
Module WatchlistProps.
Import JsString Fx Watchlist StringFacts.


Lemma existsb_code_iff (items : list WatchlistItem) (c : string) :
  existsb (fun i => String.eqb (code i) c) items = true
  <-> c ∈ map code items.
Proof.
  rewrite existsb_exists, list_elem_of_In, List.in_map_iff. split.
  - intros (i & Hi & E). apply String.eqb_eq in E. exists i. split; auto.
  - intros (i & E & Hi). exists i. split; [exact Hi |].
    apply String.eqb_eq. exact E.
Qed.

(** X16: adding a code to the watchlist puts its upper-case form at the
    end unless it is there already; either way the code is listed
    afterwards, the items that were there stay in front in their order,
    codes that were distinct stay distinct, and adding the same code
    again changes nothing. *)
Theorem addToWatchlist_keeps_distinct (items : list WatchlistItem) (c : string) :
  let out := addToWatchlist items c in
  toUpperCase c ∈ map code out
  /\ (out = items \/ out = items ++ [ {| code := toUpperCase c |} ])
  /\ (toUpperCase c ∈ map code items <-> out = items)
  /\ (NoDup (map code items) -> NoDup (map code out))
  /\ addToWatchlist out c = out.
Proof.
  unfold addToWatchlist. cbv zeta.
  destruct (existsb _ items) eqn:E.
  - pose proof (proj1 (existsb_code_iff items (toUpperCase c)) E) as Hin.
    rewrite E. repeat split; auto.
  - assert (Hn : toUpperCase c ∉ map code items).
    { intros Hin. apply existsb_code_iff in Hin. congruence. }
    assert (Hlast : toUpperCase c ∈ map code (items ++ [ {| code := toUpperCase c |} ])).
    { rewrite map_app. apply elem_of_app. right. cbn.
      apply list_elem_of_singleton. reflexivity. }
    split; [exact Hlast |]. split; [right; reflexivity |].
    split; [| split].
    + split; [contradiction |]. intros Heq.
      apply (f_equal (@length _)) in Heq. rewrite length_app in Heq.
      cbn in Heq. lia.
    + intros Hnd. rewrite map_app. apply NoDup_app. split; [exact Hnd |].
      split; [| cbn; apply NoDup_singleton].
      intros x Hx Hx'. cbn in Hx'. apply list_elem_of_singleton in Hx'.
      subst x. contradiction.
    + apply existsb_code_iff in Hlast. rewrite Hlast. reflexivity.
Qed.

(** USD is tracked; "usd" is added, then "sgd". *)
Lemma addToWatchlist_keeps_distinct_witness :
  addToWatchlist [ {| code := "USD" |} ] "usd" = [ {| code := "USD" |} ]
  /\ NoDup (map code (addToWatchlist [ {| code := "USD" |} ] "sgd")).
Proof.
  split.
  - destruct (addToWatchlist_keeps_distinct [ {| code := "USD" |} ] "usd")
      as (_ & _ & H & _).
    apply H. cbn. apply list_elem_of_singleton. reflexivity.
  - destruct (addToWatchlist_keeps_distinct [ {| code := "USD" |} ] "sgd")
      as (_ & _ & _ & H & _).
    apply H. cbn. apply NoDup_singleton.
Defined.

Lemma filter_all {A} (f : A -> bool) (l : list A) :
  Forall (fun x => f x = true) l -> List.filter f l = l.
Proof.
  induction 1 as [| x r Hx _ IH]; [reflexivity |]. cbn. rewrite Hx, IH.
  reflexivity.
Qed.

(** X17: removing a code takes out every item with its upper-case form
    and nothing else, keeping the order of the rest; removing a code
    that is not listed changes nothing, and removing a code that has
    just been added to a list that did not have it gives that list
    back. *)
Theorem removeFromWatchlist_removes (items : list WatchlistItem) (c : string) :
  let out := removeFromWatchlist items c in
  (toUpperCase c ∉ map code out)
  /\ (forall i, i ∈ out <-> i ∈ items /\ code i <> toUpperCase c)
  /\ (out `sublist_of` items)
  /\ (toUpperCase c ∉ map code items ->
      out = items
      /\ removeFromWatchlist (addToWatchlist items c) c = items).
Proof.
  unfold removeFromWatchlist. cbv zeta.
  assert (Hmem : forall i,
             i ∈ List.filter (fun i => negb (String.eqb (code i) (toUpperCase c)))
                   items
             <-> i ∈ items /\ code i <> toUpperCase c).
  { intros i. rewrite !list_elem_of_In, List.filter_In, negb_true_iff,
      String.eqb_neq. reflexivity. }
  split; [| split; [exact Hmem | split]].
  - intros Hin. apply list_elem_of_In, List.in_map_iff in Hin.
    destruct Hin as (i & E & Hi). apply list_elem_of_In, Hmem in Hi.
    destruct Hi as [_ Hne]. contradiction.
  - induction items as [| i r IH]; cbn; [constructor |].
    destruct (negb _); [apply sublist_skip | apply sublist_cons];
      apply IH; intros j; rewrite !list_elem_of_In, List.filter_In,
        negb_true_iff, String.eqb_neq; reflexivity.
  - intros Hn.
    assert (Hall : Forall (fun i => negb (String.eqb (code i) (toUpperCase c))
                                   = true) items).
    { apply List.Forall_forall. intros i Hi. apply negb_true_iff, String.eqb_neq.
      intros E. apply Hn. rewrite <- E. apply list_elem_of_In, List.in_map, Hi. }
    split; [apply filter_all, Hall |].
    unfold addToWatchlist. cbv zeta.
    destruct (existsb _ items) eqn:E.
    + apply existsb_code_iff in E. contradiction.
    + rewrite List.filter_app, (filter_all _ _ Hall). cbn.
      rewrite String.eqb_refl. cbn. apply app_nil_r.
Qed.

(** EUR is taken off a list of two, and SGD is added and taken off. *)
Lemma removeFromWatchlist_removes_witness :
  removeFromWatchlist
    (addToWatchlist [ {| code := "USD" |}; {| code := "EUR" |} ] "sgd") "SGD"
  = [ {| code := "USD" |}; {| code := "EUR" |} ].
Proof.
  destruct (removeFromWatchlist_removes
              [ {| code := "USD" |}; {| code := "EUR" |} ] "sgd")
    as (_ & _ & _ & H).
  refine (proj2 (H _)). cbn. intros Hin.
  repeat (apply elem_of_cons in Hin; destruct Hin as [Hin | Hin];
          [discriminate |]).
  apply elem_of_nil in Hin. exact Hin.
Defined.

(** *** Reading and writing the stored watchlist *)





End WatchlistProps.

(** ** [lib/currencies.ts] *)
Module CurrenciesProps.
Import JsString JsArray Currencies StringFacts SortFacts RouteMoreProps.

Lemma CURRENCIES_upper :
  Forall (fun c => toUpperCase (code c) = code c) CURRENCIES.
Proof. repeat constructor. Qed.

Lemma CURRENCIES_distinct : NoDup (map code CURRENCIES).
Proof. apply (bool_decide_unpack _). vm_compute. exact I. Qed.

Lemma CODE_TO_ENTRY_complete :
  Forall (fun c => CODE_TO_ENTRY !! code c = Some c) CURRENCIES.
Proof. repeat (constructor; [vm_compute; reflexivity |]). constructor. Qed.

Lemma map_of_entries_lookup (l : list CurrencyEntry)
    (m : gmap string CurrencyEntry) (k : string) (e : CurrencyEntry) :
  foldl (fun m c =>
           <[toUpperCase (code c) :=
               {| code := toUpperCase (code c); name := name c;
                  symbol := symbol c |}]> m) m l !! k = Some e ->
  m !! k = Some e
  \/ exists c, c ∈ l /\ toUpperCase (code c) = k
               /\ e = {| code := toUpperCase (code c); name := name c;
                         symbol := symbol c |}.
Proof.
  revert m. induction l as [| c r IH]; intros m; cbn [foldl]; [auto |].
  intros H. destruct (IH _ H) as [Hm | (c' & Hc' & Hk & He)].
  - destruct (decide (toUpperCase (code c) = k)) as [E | N].
    + rewrite E, lookup_insert_eq in Hm. injection Hm as <-.
      right. exists c. split; [apply elem_of_cons; left; reflexivity |].
      split; [exact E |]. rewrite E. reflexivity.
    + rewrite lookup_insert_ne in Hm by exact N. left. exact Hm.
  - right. exists c'. split; [apply elem_of_cons; right; exact Hc' |].
    split; assumption.
Qed.

(** X20: the directory is found by code, in any letter case and with
    spaces around: a text that normalizes to the code of an entry gives
    that entry, and any other text gives nothing. *)
Theorem getCurrencyByCode_finds (q : string) :
  (forall c, c ∈ CURRENCIES -> normalizeCurrencyQuery q = code c ->
             getCurrencyByCode q = Some c)
  /\ (forall e, getCurrencyByCode q = Some e ->
                e ∈ CURRENCIES /\ code e = normalizeCurrencyQuery q)
  /\ (normalizeCurrencyQuery q ∉ map code CURRENCIES ->
      getCurrencyByCode q = None).
Proof.
  assert (Hsound : forall e, getCurrencyByCode q = Some e ->
                     e ∈ CURRENCIES /\ code e = normalizeCurrencyQuery q).
  { intros e H. unfold getCurrencyByCode, CODE_TO_ENTRY in H.
    apply map_of_entries_lookup in H.
    destruct H as [H | (c & Hc & Hk & He)]; [rewrite lookup_empty in H; discriminate |].
    pose proof (proj1 (List.Forall_forall _ _) CURRENCIES_upper c
                  (proj1 (list_elem_of_In _ _) Hc)) as Hu.
    rewrite Hu in He, Hk. destruct c. cbn in *. subst e. split; assumption. }
  split; [| split; [exact Hsound |]].
  - intros c Hc Hq. unfold getCurrencyByCode. rewrite Hq.
    exact (proj1 (List.Forall_forall _ _) CODE_TO_ENTRY_complete c
             (proj1 (list_elem_of_In _ _) Hc)).
  - intros Hn. destruct (getCurrencyByCode q) as [e |] eqn:E; [| reflexivity].
    destruct (Hsound e eq_refl) as [He Hc]. exfalso. apply Hn.
    rewrite <- Hc. apply list_elem_of_In, List.in_map, list_elem_of_In, He.
Qed.

(** The euro, asked for in lower case with spaces, and a code that is
    not in the directory. *)
Lemma getCurrencyByCode_finds_witness :
  getCurrencyByCode " eur "
  = Some {| code := "EUR"; name := "Euro"; symbol := Some "€" |}
  /\ getCurrencyByCode "XYZ" = None.
Proof.
  split.
  - apply (proj1 (getCurrencyByCode_finds " eur ")); [| reflexivity].
    apply list_elem_of_In. cbn. tauto.
  - apply (proj2 (proj2 (getCurrencyByCode_finds "XYZ"))).
    apply (bool_decide_unpack _). vm_compute. exact I.
Defined.

(** *** Searching the directory *)
Import Notions.

Lemma score_of_range q c : -1 <= score_of q c <= 3.
Proof. unfold score_of. repeat case_match; lia. Qed.

Lemma score_of_zero q c : score_of q c = 0 <-> toUpperCase (code c) = q.
Proof.
  unfold score_of. destruct (String.eqb_spec (toUpperCase (code c)) q).
  - tauto.
  - split; [| contradiction]. repeat case_match; lia.
Qed.

Lemma suggestion_lt_asym a b :
  suggestion_lt a b = true -> suggestion_lt b a = false.
Proof.
  unfold suggestion_lt.
  destruct (Z.eqb_spec (score a) (score b)) as [E | N]; cbn [negb].
  - rewrite E, Z.eqb_refl. cbn [negb]. apply ltb_asym.
  - destruct (Z.eqb_spec (score b) (score a)); [congruence |]. cbn [negb].
    rewrite !Z.ltb_lt, Z.ltb_ge. lia.
Qed.

Lemma ranks_before_trans a b c :
  suggestion_lt b a = false -> suggestion_lt c b = false ->
  suggestion_lt c a = false.
Proof.
  unfold suggestion_lt.
  destruct (Z.eqb_spec (score b) (score a)), (Z.eqb_spec (score c) (score b)),
           (Z.eqb_spec (score c) (score a)); cbn [negb];
    rewrite ?Z.ltb_ge; try lia.
  apply not_ltb_trans.
Qed.

Lemma StronglySorted_take {A} (R : A -> A -> Prop) n l :
  StronglySorted R l -> StronglySorted R (take n l).
Proof.
  intros H. revert n. induction H as [| x r Hs IH Hx]; intros [| n]; cbn;
    try constructor; [apply IH |].
  apply List.Forall_forall. intros y Hy. apply list_elem_of_In in Hy.
  apply elem_of_take in Hy. destruct Hy as (i & Hi & _).
  apply list_elem_of_lookup_2, list_elem_of_In in Hi.
  exact (proj1 (List.Forall_forall _ _) Hx y Hi).
Qed.

Lemma matches_iff q excluded x :
  In x (matches q excluded)
  <-> exists c, In c CURRENCIES
                /\ ~ In (toUpperCase (code c)) excluded
                /\ 0 <= score_of q c
                /\ x = suggestion_of c (score_of q c).
Proof.
  unfold matches. rewrite List.in_flat_map. split.
  - intros (c & Hc & Hx). exists c. split; [exact Hc |].
    destruct (existsb _ excluded) eqn:E; [destruct Hx |].
    destruct (0 <=? score_of q c) eqn:S; [| destruct Hx].
    destruct Hx as [<- | []]. split; [| split; [lia | reflexivity]].
    intros Hin. assert (existsb (String.eqb (toUpperCase (code c))) excluded = true);
      [| congruence].
    apply existsb_exists. eexists. split; [exact Hin | apply String.eqb_refl].
  - intros (c & Hc & Hex & Hs & ->). exists c. split; [exact Hc |].
    destruct (existsb _ excluded) eqn:E.
    + apply existsb_exists in E. destruct E as (y & Hy & Ey).
      apply String.eqb_eq in Ey. subst y. contradiction.
    + apply Z.leb_le in Hs. rewrite Hs. left. reflexivity.
Qed.

Lemma searchCurrencies_unfold query excludeCodes limit :
  searchCurrencies query excludeCodes limit
  = if negb (truthy (normalizeCurrencyQuery query)) then []
    else take (Z.to_nat (Z.max 1 (Z.min 20 limit)))
           (sort_by suggestion_lt
              (matches (normalizeCurrencyQuery query)
                 (map normalizeCurrencyQuery excludeCodes))).
Proof. reflexivity. Qed.

(** X21: a search of the directory gives at most twenty suggestions and
    at most [max(1, limit)], none for a blank query; every suggestion is
    made from a directory entry that matches the query, with that
    entry's score from 0 to 3 (0 exactly for the entry whose code is the
    query), and none has an excluded code; the suggestions come in rank
    order, by score and then by code. *)
Theorem searchCurrencies_results (query : string) (excludeCodes : list string)
    (limit : Z) :
  let q := normalizeCurrencyQuery query in
  let out := searchCurrencies query excludeCodes limit in
  (length out <= 20)%nat
  /\ (length out <= Z.to_nat (Z.max 1 limit))%nat
  /\ (q = "" -> out = [])
  /\ Forall
       (fun x =>
          0 <= score x <= 3
          /\ (score x = 0 <-> s_code x = q)
          /\ ~ In (s_code x) (map normalizeCurrencyQuery excludeCodes)
          /\ exists c, In c CURRENCIES /\ x = suggestion_of c (score_of q c))
       out
  /\ StronglySorted ranks_before out.
Proof.
  intros q out. unfold out. rewrite searchCurrencies_unfold. fold q.
  destruct (truthy q) eqn:Ht; cbn [negb].
  2:{ repeat split; try constructor; cbn; lia. }
  split; [rewrite length_take; lia |].
  split; [rewrite length_take; lia |].
  split; [intros E; rewrite E in Ht; discriminate |].
  split.
  - apply List.Forall_forall. intros x Hx. apply list_elem_of_In in Hx.
    apply elem_of_take in Hx. destruct Hx as (i & Hi & _).
    apply list_elem_of_lookup_2 in Hi.
    rewrite <- (sort_by_Permutation suggestion_lt) in Hi.
    apply list_elem_of_In, matches_iff in Hi.
    destruct Hi as (c & Hc & Hex & Hs & ->). cbn [score s_code suggestion_of].
    pose proof (score_of_range q c). split; [lia |].
    split; [apply score_of_zero |]. split; [exact Hex |].
    exists c. split; [exact Hc | reflexivity].
  - apply StronglySorted_take. unfold ranks_before.
    apply sort_by_StronglySorted.
    + apply suggestion_lt_asym.
    + apply ranks_before_trans.
Qed.

(** Searching for "d" with USD excluded: DKK, which begins with it,
    comes before every code that only holds it. *)
Lemma searchCurrencies_results_witness :
  map s_code (searchCurrencies "d" ["usd"] 3) = ["DKK"; "AED"; "AUD"]
  /\ searchCurrencies "  " [] 8 = [].
Proof.
  split; [vm_compute; reflexivity |].
  destruct (searchCurrencies_results "  " [] 8) as (_ & _ & H & _).
  apply H. reflexivity.
Defined.

Lemma NoDup_map_inj {A B} (f : A -> B) (l : list A) x y :
  NoDup (map f l) -> In x l -> In y l -> f x = f y -> x = y.
Proof.
  induction l as [| a r IH]; cbn; [tauto |].
  intros Hnd Hx Hy E. apply NoDup_cons in Hnd. destruct Hnd as [Hna Hnd].
  destruct Hx as [-> | Hx], Hy as [-> | Hy]; auto.
  - exfalso. apply Hna. rewrite E. apply list_elem_of_In, List.in_map, Hy.
  - exfalso. apply Hna. rewrite <- E. apply list_elem_of_In, List.in_map, Hx.
Qed.

(** X22: a query that is the code of a directory entry (in any letter
    case, with spaces around) puts that entry first, with score 0,
    unless its code is excluded. *)
Theorem exact_code_comes_first (query : string) (excludeCodes : list string)
    (limit : Z) (c : CurrencyEntry) :
  In c CURRENCIES ->
  normalizeCurrencyQuery query = code c ->
  ~ In (code c) (map normalizeCurrencyQuery excludeCodes) ->
  exists rest,
    searchCurrencies query excludeCodes limit = suggestion_of c 0 :: rest.
Proof.
  intros Hc Hq Hex. rewrite searchCurrencies_unfold. rewrite Hq.
  pose proof (proj1 (List.Forall_forall _ _) CURRENCIES_upper c Hc) as Hu.
  assert (Ht : truthy (code c) = true).
  { revert Hc. clear. intros Hc.
    assert (F : Forall (fun c => truthy (code c) = true) CURRENCIES)
      by (repeat constructor).
    exact (proj1 (List.Forall_forall _ _) F c Hc). }
  rewrite Ht. cbn [negb].
  set (ex := map normalizeCurrencyQuery excludeCodes) in *.
  assert (H0 : In (suggestion_of c 0) (matches (code c) ex)).
  { apply matches_iff. exists c. split; [exact Hc |].
    rewrite Hu. split; [exact Hex |].
    assert (score_of (code c) c = 0) as -> by (apply score_of_zero, Hu).
    split; [lia | reflexivity]. }
  pose proof (sort_by_Permutation suggestion_lt (matches (code c) ex)) as Hp.
  pose proof (sort_by_StronglySorted suggestion_lt suggestion_lt_asym
                ranks_before_trans (matches (code c) ex)) as Hs.
  destruct (sort_by suggestion_lt (matches (code c) ex)) as [| h t] eqn:E.
  { apply (Permutation_in _ Hp) in H0. destruct H0. }
  assert (Hh : In h (matches (code c) ex)).
  { apply (Permutation_in _ (Permutation_sym Hp)). left. reflexivity. }
  apply matches_iff in Hh. destruct Hh as (c' & Hc' & _ & Hs' & Hh').
  assert (Hle : suggestion_lt (suggestion_of c 0) h = false).
  { apply (Permutation_in _ Hp) in H0. destruct H0 as [<- | Ht0].
    - unfold suggestion_lt. rewrite Z.eqb_refl. cbn [negb].
      unfold ltb. rewrite compare_refl. reflexivity.
    - apply StronglySorted_inv in Hs. destruct Hs as [_ Hall].
      exact (proj1 (List.Forall_forall _ _) Hall _ Ht0). }
  assert (Hz : score_of (code c) c' = 0).
  { subst h. unfold suggestion_lt in Hle. cbn [score suggestion_of] in Hle.
    destruct (Z.eqb_spec 0 (score_of (code c) c')); [lia |].
    cbn [negb] in Hle. apply Z.ltb_ge in Hle. lia. }
  assert (c' = c).
  { apply score_of_zero in Hz.
    pose proof (proj1 (List.Forall_forall _ _) CURRENCIES_upper c' Hc') as Hu'.
    rewrite Hu' in Hz.
    exact (NoDup_map_inj code CURRENCIES c' c CURRENCIES_distinct Hc' Hc Hz). }
  subst c'. rewrite Hz in Hh'. subst h.
  assert (exists n, Z.to_nat (Z.max 1 (Z.min 20 limit)) = S n) as [n ->].
  { exists (Z.to_nat (Z.max 1 (Z.min 20 limit)) - 1)%nat. lia. }
  cbn [take]. eexists. reflexivity.
Qed.

(** Typing "jpy" with the yen not yet tracked. *)
Lemma exact_code_comes_first_witness :
  exists rest,
    searchCurrencies " jpy" ["USD"] 8
    = {| s_code := "JPY"; s_name := "Japanese Yen"; s_symbol := Some "¥";
         score := 0 |} :: rest.
Proof.
  apply (exact_code_comes_first " jpy" ["USD"] 8
           {| code := "JPY"; name := "Japanese Yen"; symbol := Some "¥" |}).
  - cbn. tauto.
  - reflexivity.
  - cbn. intros [H | []]. discriminate.
Defined.

End CurrenciesProps.

(** ** The input box of the watch list *)
Module ControlsProps.
Import JsString JsArray Currencies Watchlist Controls Notions.
Import StringFacts WatchlistProps.

Lemma upper_ascii_fixed c : is_upper c = true -> upper_ascii c = c.
Proof.
  unfold is_upper, upper_ascii. intros H.
  apply andb_true_iff in H. destruct H as [H1 H2].
  apply Nat.leb_le in H1, H2.
  destruct (97 <=? nat_of_ascii c)%nat eqn:E; [| reflexivity].
  apply Nat.leb_le in E. lia.
Qed.

Lemma all_upper_fixed s : all_upper s = true -> toUpperCase s = s.
Proof.
  induction s as [| c r IH]; cbn; [reflexivity |].
  intros H. apply andb_true_iff in H. destruct H as [Hc Hr].
  rewrite (upper_ascii_fixed c Hc), (IH Hr). reflexivity.
Qed.

(** What a code that passes the check is like, and what adding it
    does. *)
Lemma validate_passes watchlist c :
  validate watchlist c = None ->
  (3 <= String.length c <= 5)%nat
  /\ all_upper c = true
  /\ ~ In c (map code watchlist)
  /\ onAdd watchlist c = watchlist ++ [ {| code := c |} ].
Proof.
  unfold validate. destruct (truthy c) eqn:Ht; cbn [negb]; [| discriminate].
  destruct ((String.length c <? 3)%nat || (5 <? String.length c)%nat) eqn:El;
    [discriminate |].
  unfold letters_only. rewrite Ht. cbn [andb].
  destruct (all_upper c) eqn:Eu; cbn [negb]; [| discriminate].
  destruct (existsb _ watchlist) eqn:Ex; [discriminate |]. intros _.
  apply orb_false_iff in El. destruct El as [E1 E2].
  apply Nat.ltb_ge in E1, E2.
  assert (Hn : ~ In c (map code watchlist)).
  { intros Hin. apply List.in_map_iff in Hin. destruct Hin as (w & <- & Hw).
    assert (existsb (fun w0 => String.eqb (code w0) (code w)) watchlist = true);
      [| congruence].
    apply existsb_exists. exists w. split; [exact Hw | apply String.eqb_refl]. }
  repeat split; try lia; try exact Hn.
  unfold onAdd, addToWatchlist. rewrite (all_upper_fixed c Eu), Ex. reflexivity.
Qed.

Lemma acceptSuggestion_outcome c watchlist s :
  let r := acceptSuggestion c watchlist s in
  (fst r = watchlist /\ exists err, snd r = rejected (Some err) s)
  \/ (exists c',
         fst r = watchlist ++ [ {| code := c' |} ]
         /\ (3 <= String.length c' <= 5)%nat
         /\ all_upper c' = true
         /\ ~ In c' (map code watchlist)
         /\ snd r = accepted s).
Proof.
  unfold acceptSuggestion.
  destruct (validate watchlist (toUpperCase (trim c))) as [err |] eqn:E; cbn.
  - left. split; [reflexivity | exists err; reflexivity].
  - right. destruct (validate_passes _ _ E) as (Hl & Hu & Hn & Ha).
    exists (toUpperCase (trim c)). rewrite Ha. auto.
Qed.

(** X23: pressing Add (or Enter) either leaves the watch list as it is
    and shows an error, or appends exactly one code: 3 to 5 upper-case
    letters, not listed before; the box is then cleared and the
    suggestions closed. *)
Theorem handleAdd_outcome (watchlist : list WatchlistItem) (s : State) :
  let r := handleAdd watchlist s in
  (fst r = watchlist /\ exists err, snd r = rejected (Some err) s)
  \/ (exists c,
         fst r = watchlist ++ [ {| code := c |} ]
         /\ (3 <= String.length c <= 5)%nat
         /\ all_upper c = true
         /\ ~ In c (map code watchlist)
         /\ snd r = accepted s).
Proof.
  unfold handleAdd.
  destruct (isSuggestOpen s && (0 <=? activeIndex s)
            && (activeIndex s <? Z.of_nat (length (suggestions watchlist s))))
    eqn:E.
  - apply andb_true_iff in E. destruct E as [E E3].
    apply andb_true_iff in E. destruct E as [_ E2].
    apply Z.leb_le in E2. apply Z.ltb_lt in E3.
    destruct (suggestions watchlist s !! Z.to_nat (activeIndex s)) as [x |] eqn:L.
    + apply acceptSuggestion_outcome.
    + apply lookup_ge_None in L. lia.
  - destruct (validate watchlist (normalizedInput s)) as [err |] eqn:V; cbn.
    + left. split; [reflexivity | exists err; reflexivity].
    + right. destruct (validate_passes _ _ V) as (Hl & Hu & Hn & Ha).
      exists (normalizedInput s). rewrite Ha. auto.
Qed.



End ControlsProps.

(** ** The extremes of the chart and their markers *)
Module ChartMarkerProps.
Import Fx JsArray Format ChartMarkers.

Lemma Qle_bool_total x y : Qle_bool x y = false -> Qle_bool y x = true.
Proof.
  intros H. apply Qle_bool_iff.
  destruct (Qlt_le_dec y x) as [L | L]; [apply Qlt_le_weak, L |].
  apply Qle_bool_iff in L. congruence.
Qed.

Lemma Qle_bool_trans x y z :
  Qle_bool x y = true -> Qle_bool y z = true -> Qle_bool x z = true.
Proof. rewrite !Qle_bool_iff. apply Qle_trans. Qed.

Lemma Qle_bool_refl x : Qle_bool x x = true.
Proof. apply Qle_bool_iff, Qle_refl. Qed.

Lemma num_le_refl a : a <> NaN -> num_le a a = true.
Proof. destruct a; cbn; try congruence. intros _. apply Qle_bool_refl. Qed.

Lemma num_le_total a b :
  a <> NaN -> b <> NaN -> num_le a b = false -> num_le b a = true.
Proof.
  destruct a, b; cbn; try congruence. intros _ _. apply Qle_bool_total.
Qed.

Lemma num_le_trans a b c :
  num_le a b = true -> num_le b c = true -> num_le a c = true.
Proof.
  destruct a, b, c; cbn; try congruence. apply Qle_bool_trans.
Qed.

Lemma strict_eq_refl a : a <> NaN -> strict_eq a a = true.
Proof.
  destruct a; cbn; try congruence. intros _. apply Qeq_bool_iff. reflexivity.
Qed.

Lemma strict_eq_le a b : strict_eq a b = true -> num_le a b = true.
Proof.
  destruct a, b; cbn; try congruence.
  intros H. apply Qeq_bool_iff in H. apply Qle_bool_iff. rewrite H.
  apply Qle_refl.
Qed.

Lemma strict_eq_ge a b : strict_eq a b = true -> num_le b a = true.
Proof.
  destruct a, b; cbn; try congruence.
  intros H. apply Qeq_bool_iff in H. apply Qle_bool_iff. rewrite H.
  apply Qle_refl.
Qed.

Lemma strict_eq_NaN a : strict_eq a NaN = false.
Proof. destruct a; reflexivity. Qed.

(** Folding a choice between two numbers that picks the one that is
    first in an order. *)
Section Extreme.
Variable op : number -> number -> number.
Variable le : number -> number -> bool.
Hypothesis op_choice :
  forall a b, a <> NaN -> b <> NaN ->
              (op a b = a /\ le a b = true) \/ (op a b = b /\ le b a = true).
Hypothesis le_refl : forall a, a <> NaN -> le a a = true.
Hypothesis le_trans :
  forall a b c, le a b = true -> le b c = true -> le a c = true.
Hypothesis op_NaN_l : forall b, op NaN b = NaN.
Hypothesis op_NaN_r : forall a, op a NaN = NaN.

Lemma fold_extreme (l : list number) (acc : number) :
  acc <> NaN -> Forall (fun x => x <> NaN) l ->
  let r := fold_left op l acc in
  (r = acc \/ In r l) /\ le r acc = true /\ Forall (fun x => le r x = true) l.
Proof.
  intros Ha Hl. revert acc Ha.
  induction Hl as [| x l Hx Hl IH]; intros acc Ha; cbn.
  - split; [left; reflexivity | split; [apply le_refl, Ha | constructor]].
  - assert (Ho : op acc x <> NaN).
    { destruct (op_choice acc x Ha Hx) as [[-> _] | [-> _]]; assumption. }
    destruct (IH (op acc x) Ho) as (Hin & Hle & Hall).
    destruct (op_choice acc x Ha Hx) as [[E L] | [E L]]; rewrite E in *.
    + split; [tauto |]. split; [exact Hle |].
      constructor; [eapply le_trans; eassumption | exact Hall].
    + split; [destruct Hin as [-> | Hin]; auto |].
      split; [eapply le_trans; eassumption |].
      constructor; [exact Hle | exact Hall].
Qed.

Lemma fold_NaN (l : list number) : fold_left op l NaN = NaN.
Proof. induction l as [| x l IH]; cbn; [| rewrite op_NaN_l]; auto. Qed.

Lemma fold_with_NaN (l : list number) (acc : number) :
  In NaN l -> fold_left op l acc = NaN.
Proof.
  revert acc. induction l as [| x l IH]; intros acc; cbn; [tauto |].
  intros [-> | Hin]; [rewrite op_NaN_r; apply fold_NaN | apply IH, Hin].
Qed.

End Extreme.

Lemma min_choice a b :
  a <> NaN -> b <> NaN ->
  (Math_min a b = a /\ num_le a b = true)
  \/ (Math_min a b = b /\ num_le b a = true).
Proof.
  intros Ha Hb. unfold Math_min.
  destruct (num_le a b) eqn:E.
  - left. destruct a, b; try congruence; auto.
  - right. split; [destruct a, b; try congruence; auto |].
    apply num_le_total; assumption.
Qed.

Lemma max_choice a b :
  a <> NaN -> b <> NaN ->
  (Math_max a b = a /\ num_le b a = true)
  \/ (Math_max a b = b /\ num_le a b = true).
Proof.
  intros Ha Hb. unfold Math_max.
  destruct (num_le a b) eqn:E.
  - right. destruct a, b; try congruence; auto.
  - left. split; [destruct a, b; try congruence; auto |].
    apply num_le_total; assumption.
Qed.

Lemma Math_min_NaN_r a : Math_min a NaN = NaN.
Proof. destruct a; reflexivity. Qed.

Lemma Math_max_NaN_r a : Math_max a NaN = NaN.
Proof. destruct a; reflexivity. Qed.

Lemma findIndex_first {A} (f : A -> bool) (l : list A) x :
  In x l -> f x = true ->
  exists i y, findIndex f l = Some i /\ l !! i = Some y /\ f y = true
              /\ forall j z, (j < i)%nat -> l !! j = Some z -> f z = false.
Proof.
  induction l as [| a l IH]; cbn; [tauto |]. intros Hin Hf.
  destruct (f a) eqn:Ea.
  - exists 0%nat, a. repeat split; auto. intros j z Hj. lia.
  - destruct Hin as [-> | Hin]; [congruence |].
    destruct (IH Hin Hf) as (i & y & -> & Hy & Hfy & Hfirst).
    exists (S i), y. repeat split; auto.
    intros [| j] z Hj; cbn; [intros [= <-]; exact Ea |].
    apply Hfirst. lia.
Qed.

Lemma findIndex_none {A} (f : A -> bool) (l : list A) :
  (forall x, In x l -> f x = false) -> findIndex f l = None.
Proof.
  induction l as [| a l IH]; cbn; [reflexivity |]. intros H.
  rewrite (H a) by auto. rewrite IH by auto. reflexivity.
Qed.

(** X25: in a series of two points or more none of whose values is
    not-a-number, both markers are drawn: the one for the minimum is on
    the first point whose value is the smallest of all, the one for the
    maximum on the first point whose value is the largest. *)
Theorem markers_on_first_extremes (points : list TimeSeriesPoint) :
  (2 <= length points)%nat ->
  Forall (fun p => v p <> NaN) points ->
  (exists i p,
      minIdx points = Some (Some i) /\ points !! i = Some p
      /\ strict_eq (v p) (minV points) = true
      /\ Forall (fun q => num_le (v p) (v q) = true) points
      /\ forall j q, (j < i)%nat -> points !! j = Some q ->
                     strict_eq (v q) (minV points) = false)
  /\ (exists i p,
         maxIdx points = Some (Some i) /\ points !! i = Some p
         /\ strict_eq (v p) (maxV points) = true
         /\ Forall (fun q => num_le (v q) (v p) = true) points
         /\ forall j q, (j < i)%nat -> points !! j = Some q ->
                        strict_eq (v q) (maxV points) = false).
Proof.
  intros Hn Hv.
  assert (Hvals : Forall (fun x => x <> NaN) (values points)).
  { unfold values. apply List.Forall_forall. intros x Hx.
    apply List.in_map_iff in Hx. destruct Hx as (p & <- & Hp).
    exact (proj1 (List.Forall_forall _ _) Hv p Hp). }
  assert (Hlen : (0 <? length (values points))%nat = true).
  { apply Nat.ltb_lt. unfold values. rewrite length_map. lia. }
  assert (H2 : (length points <? 2)%nat = false) by (apply Nat.ltb_ge; lia).
  assert (Hext : forall op le m,
             (forall a b, a <> NaN -> b <> NaN ->
                          (op a b = a /\ le a b = true)
                          \/ (op a b = b /\ le b a = true)) ->
             (forall a, a <> NaN -> le a a = true) ->
             (forall a b c, le a b = true -> le b c = true -> le a c = true) ->
             (forall a b, strict_eq a b = true -> le a b = true) ->
             (forall x, x <> NaN -> op m x = x) -> m <> NaN ->
             let r := fold_left op (values points) m in
             exists i p,
               findIndex (fun p => strict_eq (v p) r) points = Some i
               /\ points !! i = Some p
               /\ strict_eq (v p) r = true
               /\ Forall (fun q => le (v p) (v q) = true) points
               /\ forall j q, (j < i)%nat -> points !! j = Some q ->
                              strict_eq (v q) r = false).
  { intros op le m Hc Hr Ht He Hm Hm' r.
    assert (Hin : In r (values points) /\ Forall (fun x => le r x = true) (values points)).
    { unfold r. destruct (values points) as [| x l] eqn:E; [discriminate |].
      cbn [fold_left]. apply Forall_cons in Hvals. destruct Hvals as [Hx Hl].
      rewrite (Hm x Hx).
      destruct (fold_extreme op le Hc Hr Ht l x Hx Hl) as (Hi & Hle & Hall).
      split; [destruct Hi as [Ei | Hi]; [left; symmetry; exact Ei | right; exact Hi] |].
      constructor; assumption. }
    destruct Hin as [Hin Hall].
    assert (Hrn : r <> NaN)
      by exact (proj1 (List.Forall_forall _ _) Hvals r Hin).
    unfold values in Hin. apply List.in_map_iff in Hin.
    destruct Hin as (p0 & Hp0 & Hin).
    destruct (findIndex_first (fun p => strict_eq (v p) r) points p0 Hin)
      as (i & p & Hi & Hp & Hfp & Hfirst).
    { cbn. rewrite Hp0. apply strict_eq_refl, Hrn. }
    exists i, p. repeat split; auto.
    apply List.Forall_forall. intros q Hq.
    assert (Hq' : le r (v q) = true).
    { apply (proj1 (List.Forall_forall _ _) Hall). unfold values.
      apply List.in_map, Hq. }
    eapply Ht; [apply He, Hfp | exact Hq']. }
  split.
  - unfold minIdx, minV. rewrite H2, Hlen.
    destruct (Hext Math_min num_le PosInf) as (i & p & Hi & Hp & Hs & Hall & Hf).
    + apply min_choice.
    + apply num_le_refl.
    + apply num_le_trans.
    + apply strict_eq_le.
    + intros [| | |]; cbn; congruence.
    + discriminate.
    + exists i, p. unfold Math_min_all. rewrite Hi. auto.
  - unfold maxIdx, maxV. rewrite H2, Hlen.
    destruct (Hext Math_max (fun a b => num_le b a) NegInf)
      as (i & p & Hi & Hp & Hs & Hall & Hf).
    + intros a b Ha Hb. destruct (max_choice a b Ha Hb); tauto.
    + apply num_le_refl.
    + intros a b c H1 H3. eapply num_le_trans; eassumption.
    + apply strict_eq_ge.
    + intros [| | |]; cbn; congruence.
    + discriminate.
    + exists i, p. unfold Math_max_all. rewrite Hi. auto.
Qed.

(** A week of rates that ends where it began: the minimum is marked on
    the first day, not the last. *)
Lemma markers_on_first_extremes_witness :
  let points := [ {| t := "2024-01-01"; v := Finite (134 # 100) |};
                  {| t := "2024-01-02"; v := Finite (136 # 100) |};
                  {| t := "2024-01-03"; v := Finite (67 # 50) |} ] in
  minIdx points = Some (Some 0%nat) /\ maxIdx points = Some (Some 1%nat).
Proof.
  intros points.
  destruct (markers_on_first_extremes points) as [Hmin Hmax].
  - cbn. lia.
  - repeat constructor; discriminate.
  - destruct Hmin as (i & p & Hi & _). destruct Hmax as (j & q & Hj & _).
    split; [rewrite Hi | rewrite Hj]; vm_compute in Hi, Hj; congruence.
Defined.

(** X26: a value that is not a number anywhere in the series makes
    both extremes not-a-number, and neither marker is drawn. *)
Theorem markers_lost_to_NaN (points : list TimeSeriesPoint) :
  (2 <= length points)%nat ->
  In NaN (values points) ->
  minV points = NaN /\ maxV points = NaN
  /\ minIdx points = Some None /\ maxIdx points = Some None.
Proof.
  intros Hn Hin.
  assert (Hlen : (0 <? length (values points))%nat = true).
  { apply Nat.ltb_lt. unfold values. rewrite length_map. lia. }
  assert (H2 : (length points <? 2)%nat = false) by (apply Nat.ltb_ge; lia).
  assert (Emin : minV points = NaN).
  { unfold minV, Math_min_all. rewrite Hlen.
    apply fold_with_NaN; [reflexivity | apply Math_min_NaN_r | exact Hin]. }
  assert (Emax : maxV points = NaN).
  { unfold maxV, Math_max_all. rewrite Hlen.
    apply fold_with_NaN; [reflexivity | apply Math_max_NaN_r | exact Hin]. }
  unfold minIdx, maxIdx. rewrite H2, Emin, Emax.
  rewrite !findIndex_none by (intros; apply strict_eq_NaN).
  auto.
Qed.

Lemma markers_lost_to_NaN_witness :
  minIdx [ {| t := "2024-01-01"; v := Finite 1 |};
           {| t := "2024-01-02"; v := NaN |} ] = Some None.
Proof.
  apply (markers_lost_to_NaN
           [ {| t := "2024-01-01"; v := Finite 1 |};
             {| t := "2024-01-02"; v := NaN |} ]).
  - cbn. lia.
  - cbn. tauto.
Defined.

End ChartMarkerProps.

(** ** The age shown beside the rates *)
Module TimeAgoProps.
Import TimeAgo.

(** X27: the label and the level of an age agree.  A fresh age reads
    "just now" or in seconds from 10 to 59; a warm one in minutes from 1
    to 4; a stale one in minutes from 5 to 59 or in hours from 1; the
    number shown is the count of whole units elapsed, so never 0 and
    never negative. *)
Theorem label_agrees_with_level (s : Z) :
  let label := timeAgoLabel (Some s) in
  match stalenessLevel (Some s) with
  | fresh =>
      (s < 10 /\ label = "just now")
      \/ (10 <= s < 60 /\ label = pretty s +:+ "s ago")
  | warm =>
      exists m, 1 <= m < 5 /\ 60 * m <= s < 60 * (m + 1)
                /\ label = pretty m +:+ "m ago"
  | stale =>
      (exists m, 5 <= m < 60 /\ 60 * m <= s < 60 * (m + 1)
                 /\ label = pretty m +:+ "m ago")
      \/ (exists h, 1 <= h /\ 3600 * h <= s < 3600 * (h + 1)
                    /\ label = pretty h +:+ "h ago")
  | unknown => False
  end.
Proof.
  unfold timeAgoLabel, stalenessLevel. cbv zeta.
  destruct (Z.ltb_spec s 60) as [H60 | H60].
  - destruct (Z.ltb_spec s 10); [left | right]; split; auto; lia.
  - destruct (Z.ltb_spec s 10); [lia |].
    destruct (Z.ltb_spec s 300) as [H300 | H300].
    + exists (s / 60).
      assert (s / 60 < 60) by DateFacts.zdiv.
      destruct (Z.ltb_spec (s / 60) 60); [| lia].
      repeat split; try reflexivity; DateFacts.zdiv.
    + destruct (Z.ltb_spec (s / 60) 60) as [Hm | Hm].
      * left. exists (s / 60). repeat split; try reflexivity; DateFacts.zdiv.
      * right. exists (s / 60 / 60).
        repeat split; try reflexivity; DateFacts.zdiv.
Qed.

End TimeAgoProps.
